(** * npm-sitemap: the record store, the validator and the XML serializer

    A shallow embedding of [src/sitemap/Sitemap.ts], [src/sitemap/Model.ts],
    [src/sitemap/SitemapIndex.ts], [src/validators/DataValidator.ts],
    [src/validators/UrlValidator.ts], [src/utils/DateUtils.ts] and
    [src/utils/XmlUtils.ts].

    JavaScript strings are modelled as [string]; the code only ever inspects
    them one code unit at a time against ASCII constants, so the width of a
    code unit plays no role.  JavaScript numbers that carry a measure
    (priority, duration, rating) are binary64 floats; the two count
    thresholds ([maxItems], [maxSitemaps]) are modelled on their integral
    values as [Z].  What the platform provides (the WHATWG [URL] class,
    [Date], number printing) is an interface, [JSRuntime]. *)

From Stdlib Require Import ZArith Floats Ascii Bool Lia DecimalString.
From stdpp Require Import gmap strings list.

(** ** Strings *)

Module Str.

Definition dquote : ascii := "034"%char.
Definition squote : ascii := "039"%char.
Definition newline : ascii := "010"%char.

(** One character as a string. *)
Definition chr (c : ascii) : string := String c EmptyString.

Definition q : string := chr dquote.
Definition nl : string := chr newline.

(** [text.replace(/c/g, by)] for a pattern of one literal character and a
    replacement without [$]. *)
Fixpoint replace_char (c : ascii) (by_ : string) (text : string) : string :=
  match text with
  | EmptyString => EmptyString
  | String a rest =>
      if Ascii.eqb a c then by_ +:+ replace_char c by_ rest
      else String a (replace_char c by_ rest)
  end.

(** [text.startsWith(pat)]. *)
Fixpoint starts_with (pat text : string) : bool :=
  match pat with
  | EmptyString => true
  | String a pat' =>
      match text with
      | EmptyString => false
      | String b text' => Ascii.eqb a b && starts_with pat' text'
      end
  end.

(** [text.replace(/pat/g, by)] for a literal, non-empty pattern: scan left
    to right, matches do not overlap. [fuel] bounds the scan by the length
    of the text. *)
Fixpoint replace_sub_aux (fuel : nat) (pat by_ text : string) : string :=
  match fuel with
  | O => text
  | S fuel' =>
      match text with
      | EmptyString => EmptyString
      | String a rest =>
          if starts_with pat text
          then by_ +:+ replace_sub_aux fuel' pat by_
                         (String.substring (String.length pat)
                            (String.length text - String.length pat) text)
          else String a (replace_sub_aux fuel' pat by_ rest)
      end
  end.

Definition replace_sub (pat by_ text : string) : string :=
  replace_sub_aux (String.length text) pat by_ text.

(** [text.includes(c)] for one character. *)
Fixpoint occurs (c : ascii) (text : string) : bool :=
  match text with
  | EmptyString => false
  | String a rest => Ascii.eqb a c || occurs c rest
  end.

(** [text.includes(pat)]. *)
Fixpoint includes (pat text : string) : bool :=
  starts_with pat text ||
  match text with
  | EmptyString => false
  | String _ rest => includes pat rest
  end.

(** Number of positions of [text] at which [pat] starts. *)
Fixpoint count_sub (pat text : string) : nat :=
  (if starts_with pat text then 1 else 0) +
  match text with
  | EmptyString => 0
  | String _ rest => count_sub pat rest
  end.

(** [parts.join(sep)]. *)
Fixpoint join (sep : string) (parts : list string) : string :=
  match parts with
  | [] => EmptyString
  | [p] => p
  | p :: rest => p +:+ sep +:+ join sep rest
  end.

(** [s.repeat(n)]. *)
Fixpoint repeat (s : string) (n : nat) : string :=
  match n with
  | O => EmptyString
  | S n' => s +:+ repeat s n'
  end.

(** Template-literal rendering of an array index. *)
Definition of_nat (n : nat) : string :=
  NilEmpty.string_of_uint (Nat.to_uint n).

(** [text] has [pat] somewhere inside. *)
Definition contains (text pat : string) : Prop :=
  exists pre post, text = pre +:+ pat +:+ post.

(** [text.endsWith(suffix)]. *)
Fixpoint ends_with (suffix text : string) : bool :=
  String.eqb text suffix ||
  match text with
  | EmptyString => false
  | String _ rest => ends_with suffix rest
  end.

(** [text.split(c)[0]]: what stands before the first [c]. *)
Fixpoint before (c : ascii) (text : string) : string :=
  match text with
  | EmptyString => EmptyString
  | String a rest => if Ascii.eqb a c then EmptyString else String a (before c rest)
  end.

(** The character [c] is one of [lo] to [hi]. *)
Definition in_range (lo hi c : ascii) : bool :=
  (nat_of_ascii lo <=? nat_of_ascii c)%nat && (nat_of_ascii c <=? nat_of_ascii hi)%nat.

End Str.

(** ** XmlUtils.ts *)

Definition is_meta (c : ascii) : bool :=
  Ascii.eqb c "&"%char || Ascii.eqb c "<"%char || Ascii.eqb c ">"%char
  || Ascii.eqb c Str.dquote || Ascii.eqb c Str.squote.

Definition has_meta (text : string) : bool :=
  Str.occurs "&"%char text || Str.occurs "<"%char text || Str.occurs ">"%char text
  || Str.occurs Str.dquote text || Str.occurs Str.squote text.

(** [escapeXml]: five global replacements, the ampersand first. *)
Definition escapeXml (text : string) : string :=
  Str.replace_char Str.squote "&#39;"
    (Str.replace_char Str.dquote "&quot;"
       (Str.replace_char ">"%char "&gt;"
          (Str.replace_char "<"%char "&lt;"
             (Str.replace_char "&"%char "&amp;" text)))).

(** [wrapCDATA]. *)
Definition wrapCDATA (text : string) : string :=
  if Str.occurs "&"%char text || Str.occurs "<"%char text || Str.occurs ">"%char text
     || Str.occurs Str.newline text
  then "<![CDATA[" +:+ Str.replace_sub "]]>" "]]&gt;" text +:+ "]]>"
  else escapeXml text.

(** *** What the escaping property speaks of *)

(** The entity the specification assigns to a character. *)
Definition entity (c : ascii) : string :=
  if Ascii.eqb c "&"%char then "&amp;"
  else if Ascii.eqb c "<"%char then "&lt;"
  else if Ascii.eqb c ">"%char then "&gt;"
  else if Ascii.eqb c Str.dquote then "&quot;"
  else if Ascii.eqb c Str.squote then "&#39;"
  else Str.chr c.

(** The specification's reading of escaping: every character is replaced, in
    place, by its entity. *)
Fixpoint escapeXml_spec (text : string) : string :=
  match text with
  | EmptyString => EmptyString
  | String c rest => entity c +:+ escapeXml_spec rest
  end.

(** An ampersand is escaped, not raw, when one of the five entities starts
    at it. *)
Definition entity_tail (rest : string) : bool :=
  Str.starts_with "amp;" rest || Str.starts_with "lt;" rest
  || Str.starts_with "gt;" rest || Str.starts_with "quot;" rest
  || Str.starts_with "#39;" rest.

(** No raw metacharacter: none of [<], [>], the two quotes, and no
    ampersand other than one that opens an entity. *)
Fixpoint raw_free (text : string) : bool :=
  match text with
  | EmptyString => true
  | String c rest =>
      (if Ascii.eqb c "&"%char then entity_tail rest else negb (is_meta c))
      && raw_free rest
  end.

(** ** The platform *)

(** A [Date] object: a time value in milliseconds, or the invalid date whose
    time value is NaN. *)
Inductive JSDate :=
| DateTime (ms : Z)
| InvalidDate.

(** A value of type [string | Date]. *)
Inductive DateInput :=
| DStr (s : string)
| DObj (d : JSDate).

(** A parsed URL, as the [URL] class exposes it. [query] and [fragment] are
    absent ([None]) or present, possibly empty. *)
Record URL := mkURL {
  protocol : string;
  username : string;
  password : string;
  hostname : string;
  port : string;
  pathname : string;
  query : option string;
  fragment : option string;
}.

(** [urlObj.hash = ''] removes the fragment. *)
Definition URL_clear_hash (u : URL) : URL :=
  mkURL (protocol u) (username u) (password u) (hostname u) (port u)
        (pathname u) (query u) None.

(** [urlObj.pathname = '/'] on a URL with an http or https scheme: the path
    becomes the root path. *)
Definition URL_set_pathname_root (u : URL) : URL :=
  mkURL (protocol u) (username u) (password u) (hostname u) (port u)
        "/" (query u) (fragment u).

(** What the code takes from the JavaScript runtime. *)
Class JSRuntime := {
  (** [new URL(s)]; [None] when the constructor throws. *)
  URL_parse : string -> option URL;
  (** [new URL(s, base)]; [None] when the constructor throws. *)
  URL_parse_base : string -> string -> option URL;
  (** [urlObj.toString()]. *)
  URL_href : URL -> string;
  (** [new Date(s)]. *)
  Date_parse : string -> JSDate;
  (** [date.toISOString()] on a valid date. *)
  Date_toISOString : Z -> string;
  (** [String(date)], as a template literal takes it. *)
  Date_toString : JSDate -> string;
  (** [String(n)], as a template literal takes it. *)
  Number_toString : float -> string;
}.

(** [Number.isInteger]: finite and without fractional part. *)
Definition Number_isInteger (x : float) : bool :=
  match Prim2SF x with
  | S754_zero _ => true
  | S754_finite _ m e =>
      (0 <=? e)%Z || (Z.land (Z.pos m) (Z.ones (- e)) =? 0)%Z
  | _ => false
  end.

(** A function of the code returns or throws an [Error] with a message. *)
Inductive outcome (A : Type) :=
| Returns (a : A)
| Throws (message : string).
Arguments Returns {A} a.
Arguments Throws {A} message.

Section Utilities.
Context `{JSRuntime}.

(** *** UrlValidator.ts *)

Definition isValidUrl (url : string) : bool :=
  if String.eqb url "" then false
  else
    match URL_parse url with
    | None => false
    | Some urlObj =>
        if negb (String.eqb (protocol urlObj) "http:"
                 || String.eqb (protocol urlObj) "https:") then false
        else if String.eqb (hostname urlObj) "" then false
        else if (2048 <? String.length url)%nat then false
        else true
    end.

(** What [normalizeUrl] does to the parsed URL before it prints it. *)
Definition normalize_object (urlObj : URL) : URL :=
  let urlObj := URL_clear_hash urlObj in
  if String.eqb (pathname urlObj) "" || String.eqb (pathname urlObj) "/"
  then URL_set_pathname_root urlObj
  else urlObj.

Definition normalizeUrl (url : string) : string :=
  if negb (isValidUrl url) then url
  else
    match URL_parse url with
    | None => url
    | Some urlObj => URL_href (normalize_object urlObj)
    end.

(** The platform reads back what it printed: parsing the serialization
    of a normalized http or https URL gives that URL again. *)
Definition URL_round_trip : Prop :=
  forall url urlObj,
    URL_parse url = Some urlObj ->
    String.eqb (protocol urlObj) "http:" || String.eqb (protocol urlObj) "https:" = true ->
    String.eqb (hostname urlObj) "" = false ->
    URL_parse (URL_href (normalize_object urlObj)) = Some (normalize_object urlObj).

Definition resolveUrl (url baseUrl : string) : string :=
  if String.eqb url "" then url
  else if isValidUrl url then url
  else
    match URL_parse_base url baseUrl with
    | Some resolved => URL_href resolved
    | None => url
    end.

(** *** DateUtils.ts *)

Definition formatDate (date : DateInput) : outcome string :=
  match date with
  | DStr s =>
      match Date_parse s with
      | InvalidDate => Throws ("Invalid date string: " +:+ s)
      | DateTime ms => Returns (Date_toISOString ms)
      end
  | DObj InvalidDate => Throws "Invalid Date object"
  | DObj (DateTime ms) => Returns (Date_toISOString ms)
  end.

Definition isValidDate (dateString : string) : bool :=
  match Date_parse dateString with
  | InvalidDate => false
  | DateTime _ => true
  end.

(** [now] is the reading of the clock by [new Date()]. *)
Definition isValidLastModDate (now : Z) (date : DateInput) : bool :=
  let dateObj := match date with DStr s => Date_parse s | DObj d => d end in
  match dateObj with
  | DateTime ms => (ms <=? now)%Z
  | InvalidDate => false
  end.

End Utilities.

(** ** SitemapTypes.ts *)

(** JavaScript truthiness of an optional string. *)
Definition truthy (o : option string) : bool :=
  match o with
  | Some s => negb (String.eqb s "")
  | None => false
  end.

Definition or_empty (o : option string) : string := default ""%string o.

Module ImageItem.
Record t := mk {
  url : string;
  title : option string;
  caption : option string;
  geo_location : option string;
  license : option string;
}.
End ImageItem.

Module VideoItem.
Record t := mk {
  title : string;
  description : string;
  thumbnail_url : string;
  duration : option float;
  expiration_date : option DateInput;
  rating : option float;
  view_count : option float;
  publication_date : option DateInput;
  family_friendly : option bool;
  restriction : option string;
  gallery_loc : option string;
  price : option string;
  requires_subscription : option bool;
  platform : option string;
  live : option bool;
}.

(** A video with the three required fields only. *)
Definition basic (title description thumbnail_url : string) : t :=
  mk title description thumbnail_url None None None None None None None
     None None None None None.
End VideoItem.

Module TranslationItem.
Record t := mk {
  language : string;
  url : string;
}.
End TranslationItem.

Module AlternateItem.
Record t := mk {
  media : option string;
  url : string;
}.
End AlternateItem.

Module GoogleNewsItem.
Record t := mk {
  sitename : string;
  language : string;
  publication_date : DateInput;
  title : option string;
  keywords : option string;
  stock_tickers : option string;
}.
End GoogleNewsItem.

Record SitemapItem := mkItem {
  loc : string;
  lastmod : option DateInput;
  priority : option float;
  changefreq : option string;
  title : option string;
  images : option (list ImageItem.t);
  videos : option (list VideoItem.t);
  translations : option (list TranslationItem.t);
  alternates : option (list AlternateItem.t);
  googlenews : option GoogleNewsItem.t;
}.

(** An item that has a location and nothing else. *)
Definition plain_item (loc : string) : SitemapItem :=
  mkItem loc None None None None None None None None None.

Record SitemapIndexItem := mkIndexItem {
  index_loc : string;
  index_lastmod : option DateInput;
}.

(** [SitemapItemInput]: one item or an array of items. *)
Inductive SitemapItemInput :=
| OneItem (item : SitemapItem)
| ManyItems (items : list SitemapItem).

Record SitemapAddOptions := mkAddOptions {
  opt_images : option (list ImageItem.t);
  opt_videos : option (list VideoItem.t);
  opt_translations : option (list TranslationItem.t);
  opt_alternates : option (list AlternateItem.t);
  opt_googlenews : option GoogleNewsItem.t;
  opt_title : option string;
}.

Definition no_options : SitemapAddOptions :=
  mkAddOptions None None None None None None.

(** The [value: unknown] of a validation error. *)
Inductive JSValue :=
| VUndefined
| VString (s : string)
| VNumber (x : float)
| VDate (d : JSDate).

Definition value_of_date (d : DateInput) : JSValue :=
  match d with
  | DStr s => VString s
  | DObj o => VDate o
  end.

Inductive ErrorType := url_error | priority_error | date_error | required_error | format_error.

Record ValidationError := mkError {
  type : ErrorType;
  field : string;
  message : string;
  value : JSValue;
}.

Record RenderOptions := mkRenderOptions {
  ro_stylesheet : option string;
  ro_pretty : option bool;
  ro_namespaces : option (gmap string string);
}.

Definition default_render_options : RenderOptions :=
  mkRenderOptions None None None.

(** [SitemapConfig]: every key may be absent. *)
Module SitemapConfig.
Record t := mk {
  escaping : option bool;
  validate : option bool;
  maxItems : option Z;
  baseUrl : option string;
  pretty : option bool;
  stylesheet : option string;
  namespaces : option (gmap string string);
}.
Definition empty : t := mk None None None None None None None.
End SitemapConfig.

(** [Required<SitemapConfig>]. *)
Module Config.
Record t := mk {
  escaping : bool;
  validate : bool;
  maxItems : Z;
  baseUrl : string;
  pretty : bool;
  stylesheet : string;
  namespaces : gmap string string;
}.
End Config.

(** [SitemapIndexConfig], as given by the caller and as stored after the
    merge with the defaults. *)
Module SitemapIndexConfig.
Record t := mk {
  baseUrl : option string;
  validate : option bool;
  escaping : option bool;
  pretty : option bool;
  stylesheet : option string;
  maxSitemaps : option Z;
}.
Definition empty : t := mk None None None None None None.
End SitemapIndexConfig.

Module IndexConfig.
Record t := mk {
  validate : bool;
  escaping : bool;
  pretty : bool;
  baseUrl : string;
  stylesheet : string;
  maxSitemaps : Z;
}.
End IndexConfig.

(** ** DataValidator.ts *)

Definition VALID_FREQUENCIES : list string :=
  ["always"; "hourly"; "daily"; "weekly"; "monthly"; "yearly"; "never"]%string.

(** [array.forEach((x, index) => ...)] collecting what each call pushes. *)
Fixpoint flat_mapi {A B} (f : nat -> A -> list B) (index : nat) (l : list A) : list B :=
  match l with
  | [] => []
  | x :: rest => f index x ++ flat_mapi f (S index) rest
  end.

(** [{...error, field: `${prefix}${error.field}`}]. *)
Definition prefix_field (prefix : string) (error : ValidationError) : ValidationError :=
  mkError (type error) (prefix +:+ field error) (message error) (value error).

Module DataValidator.
Section DataValidator.
Context `{JSRuntime}.

Definition isValidUrl (url : string) : bool := isValidUrl url.

Definition isValidPriority (priority : float) : bool :=
  PrimFloat.leb 0 priority && PrimFloat.leb priority 1
  && negb (PrimFloat.is_nan priority).

Definition isValidDate (date : DateInput) : bool :=
  match date with
  | DObj (DateTime _) => true
  | DObj InvalidDate => false
  | DStr s => isValidDate s
  end.

Definition isValidChangeFreq (freq : string) : bool :=
  existsb (String.eqb freq) VALID_FREQUENCIES.

Definition validateImageItem (image : ImageItem.t) : list ValidationError :=
  if String.eqb (ImageItem.url image) "" then
    [mkError required_error "image.url" "Image URL is required"
             (VString (ImageItem.url image))]
  else if negb (isValidUrl (ImageItem.url image)) then
    [mkError url_error "image.url" "Image URL is not valid"
             (VString (ImageItem.url image))]
  else [].

Definition validateVideoItem (video : VideoItem.t) : list ValidationError :=
  (if String.eqb (VideoItem.title video) "" then
     [mkError required_error "video.title" "Video title is required"
              (VString (VideoItem.title video))]
   else [])
  ++ (if String.eqb (VideoItem.description video) "" then
        [mkError required_error "video.description" "Video description is required"
                 (VString (VideoItem.description video))]
      else [])
  ++ (if String.eqb (VideoItem.thumbnail_url video) "" then
        [mkError required_error "video.thumbnail_url" "Video thumbnail URL is required"
                 (VString (VideoItem.thumbnail_url video))]
      else if negb (isValidUrl (VideoItem.thumbnail_url video)) then
        [mkError url_error "video.thumbnail_url" "Video thumbnail URL is not valid"
                 (VString (VideoItem.thumbnail_url video))]
      else [])
  ++ (match VideoItem.duration video with
      | Some duration =>
          if PrimFloat.ltb duration 0 || negb (Number_isInteger duration) then
            [mkError format_error "video.duration"
                     "Video duration must be a positive integer (seconds)"
                     (VNumber duration)]
          else []
      | None => []
      end)
  ++ (match VideoItem.rating video with
      | Some rating =>
          if PrimFloat.ltb rating 0 || PrimFloat.ltb 5 rating then
            [mkError format_error "video.rating"
                     "Video rating must be between 0.0 and 5.0" (VNumber rating)]
          else []
      | None => []
      end).

Definition validateTranslationItem (translation : TranslationItem.t)
  : list ValidationError :=
  (if String.eqb (TranslationItem.language translation) "" then
     [mkError required_error "translation.language" "Translation language is required"
              (VString (TranslationItem.language translation))]
   else [])
  ++ (if String.eqb (TranslationItem.url translation) "" then
        [mkError required_error "translation.url" "Translation URL is required"
                 (VString (TranslationItem.url translation))]
      else if negb (isValidUrl (TranslationItem.url translation)) then
        [mkError url_error "translation.url" "Translation URL is not valid"
                 (VString (TranslationItem.url translation))]
      else []).

Definition validateAlternateItem (alternate : AlternateItem.t)
  : list ValidationError :=
  if String.eqb (AlternateItem.url alternate) "" then
    [mkError required_error "alternate.url" "Alternate URL is required"
             (VString (AlternateItem.url alternate))]
  else if negb (isValidUrl (AlternateItem.url alternate)) then
    [mkError url_error "alternate.url" "Alternate URL is not valid"
             (VString (AlternateItem.url alternate))]
  else [].

Definition validateGoogleNewsItem (news : GoogleNewsItem.t) : list ValidationError :=
  (if String.eqb (GoogleNewsItem.sitename news) "" then
     [mkError required_error "googlenews.sitename" "Google News sitename is required"
              (VString (GoogleNewsItem.sitename news))]
   else [])
  ++ (if String.eqb (GoogleNewsItem.language news) "" then
        [mkError required_error "googlenews.language" "Google News language is required"
                 (VString (GoogleNewsItem.language news))]
      else [])
  ++ (match GoogleNewsItem.publication_date news with
      | DStr EmptyString =>
          [mkError required_error "googlenews.publication_date"
                   "Google News publication date is required" (VString "")]
      | date =>
          if negb (isValidDate date) then
            [mkError date_error "googlenews.publication_date"
                     "Google News publication date is not valid" (value_of_date date)]
          else []
      end).

(** [validateItem]; [now] is the clock reading taken by the check that
    the last modification is not in the future. *)
Definition validateItem (now : Z) (item : SitemapItem) : list ValidationError :=
  (if String.eqb (loc item) "" then
     [mkError required_error "loc" "URL (loc) is required" (VString (loc item))]
   else if negb (isValidUrl (loc item)) then
     [mkError url_error "loc" "URL (loc) is not valid" (VString (loc item))]
   else [])
  ++ (match priority item with
      | Some p =>
          if negb (isValidPriority p) then
            [mkError priority_error "priority"
                     "Priority must be a number between 0.0 and 1.0" (VNumber p)]
          else []
      | None => []
      end)
  ++ (match lastmod item with
      | Some d =>
          if negb (isValidDate d) then
            [mkError date_error "lastmod" "Last modification date is not valid"
                     (value_of_date d)]
          else if negb (isValidLastModDate now d) then
            [mkError date_error "lastmod"
                     "Last modification date cannot be in the future" (value_of_date d)]
          else []
      | None => []
      end)
  ++ (match changefreq item with
      | Some freq =>
          if negb (isValidChangeFreq freq) then
            [mkError format_error "changefreq"
                     ("Change frequency must be one of: "
                      +:+ Str.join ", " VALID_FREQUENCIES)
                     (VString freq)]
          else []
      | None => []
      end)
  ++ (match images item with
      | Some l =>
          flat_mapi (fun index image =>
            prefix_field ("images[" +:+ Str.of_nat index +:+ "].")
              <$> validateImageItem image) 0 l
      | None => []
      end)
  ++ (match videos item with
      | Some l =>
          flat_mapi (fun index video =>
            prefix_field ("videos[" +:+ Str.of_nat index +:+ "].")
              <$> validateVideoItem video) 0 l
      | None => []
      end)
  ++ (match translations item with
      | Some l =>
          flat_mapi (fun index translation =>
            prefix_field ("translations[" +:+ Str.of_nat index +:+ "].")
              <$> validateTranslationItem translation) 0 l
      | None => []
      end)
  ++ (match alternates item with
      | Some l =>
          flat_mapi (fun index alternate =>
            prefix_field ("alternates[" +:+ Str.of_nat index +:+ "].")
              <$> validateAlternateItem alternate) 0 l
      | None => []
      end)
  ++ (match googlenews item with
      | Some news => validateGoogleNewsItem news
      | None => []
      end).

Definition validateIndexItem (item : SitemapIndexItem) : list ValidationError :=
  (if String.eqb (index_loc item) "" then
     [mkError required_error "loc" "Sitemap URL (loc) is required" (VString (index_loc item))]
   else if negb (isValidUrl (index_loc item)) then
     [mkError url_error "loc" "Sitemap URL (loc) is not valid" (VString (index_loc item))]
   else [])
  ++ (match index_lastmod item with
      | Some d =>
          if negb (isValidDate d) then
            [mkError date_error "lastmod" "Last modification date is not valid"
                     (value_of_date d)]
          else []
      | None => []
      end).

End DataValidator.
End DataValidator.

(** [SitemapStats]: counts and a size in bytes. *)
Record SitemapStats := mkStats {
  urls : nat;
  withImages : nat;
  withVideos : nat;
  withTranslations : nat;
  withAlternates : nat;
  withGoogleNews : nat;
  totalImages : nat;
  totalVideos : nat;
  estimatedSize : nat;
}.

(** JavaScript truthiness of an optional [string | Date]: a [Date] object is
    truthy, a string when it is not empty. *)
Definition truthy_date (o : option DateInput) : bool :=
  match o with
  | Some (DStr s) => negb (String.eqb s "")
  | Some (DObj _) => true
  | None => false
  end.

(** ** Control: results and instance state *)

Global Instance outcome_ret : MRet outcome := fun _ a => Returns a.
Global Instance outcome_bind : MBind outcome := fun _ _ k m =>
  match m with
  | Returns a => k a
  | Throws e => Throws e
  end.

(** A method of an instance of state [S]: it leaves a state behind whether
    it returns or throws. *)
Definition Eff (St A : Type) : Type := St -> St * outcome A.

Global Instance eff_ret {St} : MRet (Eff St) := fun _ a s => (s, Returns a).
Global Instance eff_bind {St} : MBind (Eff St) := fun _ _ k m s =>
  match m s with
  | (s', Returns a) => k a s'
  | (s', Throws e) => (s', Throws e)
  end.

Definition throw {St A} (message : string) : Eff St A := fun s => (s, Throws message).
Definition lift {St A} (o : outcome A) : Eff St A := fun s => (s, o).
Definition modify {St} (f : St -> St) : Eff St unit := fun s => (f s, Returns tt).
Definition gets {St A} (f : St -> A) : Eff St A := fun s => (s, Returns (f s)).

(** [for (const x of xs) body(x)]; [index] counts the iterations. *)
Fixpoint for_each {St A} (body : nat -> A -> Eff St unit) (index : nat) (xs : list A)
  : Eff St unit :=
  match xs with
  | [] => mret tt
  | x :: rest => body index x ;; for_each body (S index) rest
  end.

(** [items.filter(item => !predicate(item))] with a callback as a caller
    may write it: handed a record object of the array, it can write to it,
    and it answers or throws. The result is the records as the callbacks
    left them, with the filtered array or the error of the first callback
    that threw; the records behind that one are not visited. *)
Fixpoint filter_callback {A} (predicate : A -> A * outcome bool) (items : list A)
  : list A * outcome (list A) :=
  match items with
  | [] => ([], Returns [])
  | item :: rest =>
      match predicate item with
      | (written, Throws e) => (written :: rest, Throws e)
      | (written, Returns answer) =>
          match filter_callback predicate rest with
          | (rest', Throws e) => (written :: rest', Throws e)
          | (rest', Returns kept) =>
              (written :: rest', Returns (if negb answer then written :: kept else kept))
          end
      end
  end.

(** The loop of a function that builds a string and may throw. *)
Fixpoint concat_outcomes {A} (f : A -> outcome string) (xs : list A) : outcome string :=
  match xs with
  | [] => Returns EmptyString
  | x :: rest => s ← f x; t ← concat_outcomes f rest; Returns (s +:+ t)
  end.

(** [errors.map(error => `${error.field}: ${error.message}`).join(', ')]. *)
Definition errorMessages (errors : list ValidationError) : string :=
  Str.join ", " ((fun error => field error +:+ ": " +:+ message error) <$> errors).

(** ** Model.ts *)

Module Model.

Record t := mk {
  items : list SitemapItem;
  sitemaps : list SitemapIndexItem;
  config : Config.t;
}.

Definition DEFAULT_CONFIG : Config.t :=
  Config.mk true true 50000 "" false "" ∅.

(** [{ ...DEFAULT_CONFIG, ...config }]. *)
Definition merge (base : Config.t) (config : SitemapConfig.t) : Config.t :=
  Config.mk
    (default (Config.escaping base) (SitemapConfig.escaping config))
    (default (Config.validate base) (SitemapConfig.validate config))
    (default (Config.maxItems base) (SitemapConfig.maxItems config))
    (default (Config.baseUrl base) (SitemapConfig.baseUrl config))
    (default (Config.pretty base) (SitemapConfig.pretty config))
    (default (Config.stylesheet base) (SitemapConfig.stylesheet config))
    (default (Config.namespaces base) (SitemapConfig.namespaces config)).

Definition new (config : SitemapConfig.t) : t :=
  mk [] [] (merge DEFAULT_CONFIG config).

Definition addItem (item : SitemapItem) (self : t) : t :=
  mk (items self ++ [item]) (sitemaps self) (config self).

Definition getItems (self : t) : list SitemapItem := items self.

Definition clear (self : t) : t := mk [] (sitemaps self) (config self).

Definition getConfig (self : t) : Config.t := config self.

Definition getEscaping (self : t) : bool := Config.escaping (config self).

Definition addSitemap (sitemap : SitemapIndexItem) (self : t) : t :=
  mk (items self) (sitemaps self ++ [sitemap]) (config self).

Definition getSitemaps (self : t) : list SitemapIndexItem := sitemaps self.

Definition resetSitemaps (sitemaps : list SitemapIndexItem) (self : t) : t :=
  mk (items self) sitemaps (config self).

Definition getItemCount (self : t) : nat := length (items self).

Definition getSitemapCount (self : t) : nat := length (sitemaps self).

Definition shouldSplit (self : t) : bool :=
  (Config.maxItems (config self) <=? Z.of_nat (length (items self)))%Z.

End Model.

(** ** Sitemap.ts *)

Module Sitemap.
Section Sitemap.
Context `{JSRuntime}.

(** The instance: its model; the validator has no state. *)
Record t := mk { model : Model.t }.

Definition new (config : SitemapConfig.t) : t := mk (Model.new config).

Definition escapeXml (self : t) (text : string) : string :=
  let config := Model.getConfig (model self) in
  if negb (Config.escaping config) then text
  else
    Str.replace_char Str.squote "&#39;"
      (Str.replace_char Str.dquote "&quot;"
         (Str.replace_char ">"%char "&gt;"
            (Str.replace_char "<"%char "&lt;"
               (Str.replace_char "&"%char "&amp;" text)))).

(** The private [formatDate]. *)
Definition formatDate_ (date : DateInput) : outcome string :=
  match date with
  | DStr s => Returns s
  | DObj d => formatDate (DObj d)
  end.

(** The record [add] builds, up to the point where it validates it. *)
Definition add_item (self : t) (url : string) (lastmod : option DateInput)
    (priority : option float) (changefreq : option string)
    (options : SitemapAddOptions) : outcome SitemapItem :=
  let config := Model.getConfig (model self) in
  let normalizedUrl := normalizeUrl url in
  let normalizedUrl :=
    if negb (String.eqb (Config.baseUrl config) "")
       && negb (DataValidator.isValidUrl normalizedUrl)
    then resolveUrl url (Config.baseUrl config)
    else normalizedUrl in
  lastmod' ← match lastmod with
             | None => Returns None
             | Some (DObj d) => s ← formatDate (DObj d); Returns (Some (DStr s))
             | Some (DStr s) => Returns (Some (DStr s))
             end;
  Returns (mkItem normalizedUrl lastmod' priority changefreq
             (opt_title options) (opt_images options) (opt_videos options)
             (opt_translations options) (opt_alternates options)
             (opt_googlenews options)).

Definition add (now : Z) (url : string) (lastmod : option DateInput)
    (priority : option float) (changefreq : option string)
    (options : SitemapAddOptions) : Eff t unit :=
  config ← gets (fun self => Model.getConfig (model self));
  item ← (fun self => lift (add_item self url lastmod priority changefreq options) self);
  (if Config.validate config then
     let errors := DataValidator.validateItem now item in
     if (0 <? length errors)%nat
     then throw ("Validation failed: " +:+ errorMessages errors)
     else mret tt
   else mret tt);;
  modify (fun self => mk (Model.addItem item (model self))).

(** The record one turn of the loop of [addItem] builds. *)
Definition processedItem (config : Config.t) (item : SitemapItem) : outcome SitemapItem :=
  let normalizedUrl := normalizeUrl (loc item) in
  let normalizedUrl :=
    if negb (String.eqb (Config.baseUrl config) "")
       && negb (DataValidator.isValidUrl normalizedUrl)
    then resolveUrl (loc item) (Config.baseUrl config)
    else normalizedUrl in
  lastmod' ← match lastmod item with
             | Some (DObj d) => s ← formatDate (DObj d); Returns (Some (DStr s))
             | other => Returns other
             end;
  Returns (mkItem normalizedUrl lastmod' (priority item) (changefreq item)
             (title item) (images item) (videos item) (translations item)
             (alternates item) (googlenews item)).

(** [Array.isArray(items) ? items : [items]]. *)
Definition itemsArray (items : SitemapItemInput) : list SitemapItem :=
  match items with
  | OneItem item => [item]
  | ManyItems l => l
  end.

(** One turn of the loop of [addItem]; [now] is the clock reading during
    the turn. *)
Definition addItem_turn (config : Config.t) (now : Z) (item : SitemapItem) : Eff t unit :=
  processedItem ← lift (processedItem config item);
  (if Config.validate config then
     let errors := DataValidator.validateItem now processedItem in
     if (0 <? length errors)%nat
     then throw ("Validation failed for " +:+ loc processedItem +:+ ": "
                 +:+ errorMessages errors)
     else mret tt
   else mret tt);;
  modify (fun self => mk (Model.addItem processedItem (model self))).

(** [clock index] is the clock reading during turn [index] of the loop. *)
Definition addItem (clock : nat -> Z) (items : SitemapItemInput) : Eff t unit :=
  let itemsArray := itemsArray items in
  config ← gets (fun self => Model.getConfig (model self));
  for_each (fun index item => addItem_turn config (clock index) item) 0 itemsArray.

Definition getItems (self : t) : list SitemapItem := Model.getItems (model self).

Definition getItemCount (self : t) : nat := Model.getItemCount (model self).

Definition clear (self : t) : t := mk (Model.clear (model self)).

(** [removeItems] with a predicate that reads the record it is handed and
    answers; [removeItems_callback] below takes any callback. *)
Definition removeItems (predicate : SitemapItem -> bool) (self : t) : t :=
  let items := Model.getItems (model self) in
  let filteredItems := filter (fun item => negb (predicate item) = true) items in
  mk (foldl (fun m item => Model.addItem item m) (Model.clear (model self))
        filteredItems).

Definition shouldSplit (self : t) : bool := Model.shouldSplit (model self).

(** *** Rendering *)

Definition render_images (self : t) (indentStr : string) (item : SitemapItem) : string :=
  match images item with
  | Some l =>
      String.concat "" ((fun image =>
        indentStr +:+ "  <image:image>" +:+ Str.nl
        +:+ indentStr +:+ "    <image:loc>" +:+ escapeXml self (ImageItem.url image)
            +:+ "</image:loc>" +:+ Str.nl
        +:+ (if truthy (ImageItem.title image) then
               indentStr +:+ "    <image:title>"
               +:+ escapeXml self (or_empty (ImageItem.title image))
               +:+ "</image:title>" +:+ Str.nl
             else "")
        +:+ (if truthy (ImageItem.caption image) then
               indentStr +:+ "    <image:caption>"
               +:+ escapeXml self (or_empty (ImageItem.caption image))
               +:+ "</image:caption>" +:+ Str.nl
             else "")
        +:+ indentStr +:+ "  </image:image>" +:+ Str.nl) <$> l)
  | None => ""
  end.

Definition render_video (self : t) (indentStr : string) (video : VideoItem.t) : string :=
  indentStr +:+ "  <video:video>" +:+ Str.nl
  +:+ indentStr +:+ "    <video:thumbnail_loc>"
      +:+ escapeXml self (VideoItem.thumbnail_url video)
      +:+ "</video:thumbnail_loc>" +:+ Str.nl
  +:+ indentStr +:+ "    <video:title><![CDATA[" +:+ VideoItem.title video
      +:+ "]]></video:title>" +:+ Str.nl
  +:+ indentStr +:+ "    <video:description><![CDATA[" +:+ VideoItem.description video
      +:+ "]]></video:description>" +:+ Str.nl
  +:+ (match VideoItem.duration video with
       | Some duration =>
           indentStr +:+ "    <video:duration>" +:+ Number_toString duration
           +:+ "</video:duration>" +:+ Str.nl
       | None => ""
       end)
  +:+ indentStr +:+ "  </video:video>" +:+ Str.nl.

Definition render_videos (self : t) (indentStr : string) (item : SitemapItem) : string :=
  match videos item with
  | Some l => String.concat "" (render_video self indentStr <$> l)
  | None => ""
  end.

Definition render_translations (self : t) (indentStr : string) (item : SitemapItem)
  : string :=
  match translations item with
  | Some l =>
      String.concat "" ((fun trans =>
        indentStr +:+ "  <xhtml:link rel=" +:+ Str.q +:+ "alternate" +:+ Str.q
        +:+ " hreflang=" +:+ Str.q +:+ TranslationItem.language trans +:+ Str.q
        +:+ " href=" +:+ Str.q +:+ escapeXml self (TranslationItem.url trans) +:+ Str.q
        +:+ " />" +:+ Str.nl) <$> l)
  | None => ""
  end.

Definition render_alternates (self : t) (indentStr : string) (item : SitemapItem)
  : string :=
  match alternates item with
  | Some l =>
      String.concat "" ((fun alt =>
        let media :=
          if truthy (AlternateItem.media alt)
          then " media=" +:+ Str.q +:+ or_empty (AlternateItem.media alt) +:+ Str.q
          else "" in
        indentStr +:+ "  <xhtml:link rel=" +:+ Str.q +:+ "alternate" +:+ Str.q
        +:+ media
        +:+ " href=" +:+ Str.q +:+ escapeXml self (AlternateItem.url alt) +:+ Str.q
        +:+ " />" +:+ Str.nl) <$> l)
  | None => ""
  end.

Definition render_googlenews (self : t) (indentStr : string) (item : SitemapItem)
  : outcome string :=
  match googlenews item with
  | Some news =>
      publication_date ← formatDate_ (GoogleNewsItem.publication_date news);
      Returns (
        indentStr +:+ "  <news:news>" +:+ Str.nl
        +:+ indentStr +:+ "    <news:publication>" +:+ Str.nl
        +:+ indentStr +:+ "      <news:name>"
            +:+ escapeXml self (GoogleNewsItem.sitename news)
            +:+ "</news:name>" +:+ Str.nl
        +:+ indentStr +:+ "      <news:language>" +:+ GoogleNewsItem.language news
            +:+ "</news:language>" +:+ Str.nl
        +:+ indentStr +:+ "    </news:publication>" +:+ Str.nl
        +:+ indentStr +:+ "    <news:publication_date>" +:+ publication_date
            +:+ "</news:publication_date>" +:+ Str.nl
        +:+ (if truthy (GoogleNewsItem.title news) then
               indentStr +:+ "    <news:title>"
               +:+ escapeXml self (or_empty (GoogleNewsItem.title news))
               +:+ "</news:title>" +:+ Str.nl
             else "")
        +:+ indentStr +:+ "  </news:news>" +:+ Str.nl)
  | None => Returns ""
  end.

(** [renderSitemapItem]: the blocks of one [<url>] entry, in the order of
    the source. The news block is the only one that can throw; it comes
    last, after pure string building. *)
Definition renderSitemapItem (self : t) (item : SitemapItem) (indent : nat)
  : outcome string :=
  let indentStr := Str.repeat "  " indent in
  let xml := indentStr +:+ "<url>" +:+ Str.nl in
  let xml := xml +:+ indentStr +:+ "  <loc>" +:+ escapeXml self (loc item)
                 +:+ "</loc>" +:+ Str.nl in
  let xml :=
    match lastmod item with
    | Some (DStr s) =>
        if negb (String.eqb s "") then
          xml +:+ indentStr +:+ "  <lastmod>" +:+ s +:+ "</lastmod>" +:+ Str.nl
        else xml
    | Some (DObj d) =>
        xml +:+ indentStr +:+ "  <lastmod>" +:+ Date_toString d +:+ "</lastmod>" +:+ Str.nl
    | None => xml
    end in
  let xml :=
    if truthy (changefreq item) then
      xml +:+ indentStr +:+ "  <changefreq>" +:+ or_empty (changefreq item)
          +:+ "</changefreq>" +:+ Str.nl
    else xml in
  let xml :=
    match priority item with
    | Some p =>
        xml +:+ indentStr +:+ "  <priority>" +:+ Number_toString p
            +:+ "</priority>" +:+ Str.nl
    | None => xml
    end in
  let xml := xml +:+ render_images self indentStr item in
  let xml := xml +:+ render_videos self indentStr item in
  let xml := xml +:+ render_translations self indentStr item in
  let xml := xml +:+ render_alternates self indentStr item in
  news ← render_googlenews self indentStr item;
  let xml := xml +:+ news in
  Returns (xml +:+ indentStr +:+ "</url>" +:+ Str.nl).

Definition non_empty {A} (o : option (list A)) : bool :=
  match o with
  | Some l => (0 <? length l)%nat
  | None => false
  end.

Definition hasImages (items : list SitemapItem) : bool :=
  existsb (fun item => non_empty (images item)) items.
Definition hasVideos (items : list SitemapItem) : bool :=
  existsb (fun item => non_empty (videos item)) items.
Definition hasTranslations (items : list SitemapItem) : bool :=
  existsb (fun item => non_empty (translations item)) items.
Definition hasAlternates (items : list SitemapItem) : bool :=
  existsb (fun item => non_empty (alternates item)) items.
Definition hasGoogleNews (items : list SitemapItem) : bool :=
  existsb (fun item => bool_decide (is_Some (googlenews item))) items.

(** The namespaces [toXML] adds to the root element, "based on content". *)
Definition namespace_declarations (items : list SitemapItem) : string :=
  (if hasImages items then
     " xmlns:image=" +:+ Str.q +:+ "http://www.google.com/schemas/sitemap-image/1.1"
     +:+ Str.q
   else "")
  +:+ (if hasVideos items then
         " xmlns:video=" +:+ Str.q
         +:+ "http://www.google.com/schemas/sitemap-video/1.1" +:+ Str.q
       else "")
  +:+ (if hasTranslations items || hasAlternates items then
         " xmlns:xhtml=" +:+ Str.q +:+ "http://www.w3.org/1999/xhtml" +:+ Str.q
       else "")
  +:+ (if hasGoogleNews items then
         " xmlns:news=" +:+ Str.q
         +:+ "http://www.google.com/schemas/sitemap-news/0.9" +:+ Str.q
       else "").

Definition xml_declaration : string :=
  "<?xml version=" +:+ Str.q +:+ "1.0" +:+ Str.q +:+ " encoding=" +:+ Str.q
  +:+ "UTF-8" +:+ Str.q +:+ "?>".

(** What precedes the root element. *)
Definition prolog (self : t) (stylesheet : string) : string :=
  let xml := xml_declaration +:+ Str.nl in
  if negb (String.eqb stylesheet "") then
    xml +:+ "<?xml-stylesheet href=" +:+ Str.q +:+ escapeXml self stylesheet +:+ Str.q
        +:+ " type=" +:+ Str.q +:+ "text/xsl" +:+ Str.q +:+ "?>" +:+ Str.nl
  else xml.

(** The start tag of the root element. *)
Definition urlset_tag (items : list SitemapItem) : string :=
  "<urlset xmlns=" +:+ Str.q +:+ "http://www.sitemaps.org/schemas/sitemap/0.9"
  +:+ Str.q +:+ namespace_declarations items +:+ ">".

Definition toXML (options : RenderOptions) (self : t) : outcome string :=
  let items := Model.getItems (model self) in
  let config := Model.getConfig (model self) in
  let pretty := default (Config.pretty config) (ro_pretty options) in
  let stylesheet := default (Config.stylesheet config) (ro_stylesheet options) in
  let xml := prolog self stylesheet in
  let xml := xml +:+ urlset_tag items +:+ Str.nl in
  entries ← concat_outcomes
              (fun item => renderSitemapItem self item (if pretty then 1 else 0))
              items;
  let xml := xml +:+ entries in
  Returns (xml +:+ "</urlset>").

(** [render(format, options)]. *)
Definition render (format : string) (options : RenderOptions) (self : t)
  : outcome string :=
  if negb (String.eqb format "xml") then
    Throws ("Format '" +:+ format
            +:+ "' not yet implemented. Currently only 'xml' is supported.")
  else toXML options self.

Definition toTXT (self : t) : string :=
  Str.join Str.nl (loc <$> Model.getItems (model self)).

Definition toHTML (self : t) : outcome string :=
  Throws "HTML rendering is not yet implemented".

(** [validate()]; [clock index] is the clock reading while the item at
    [index] is checked. *)
Definition validate (clock : nat -> Z) (self : t) : list ValidationError :=
  flat_mapi (fun index item =>
    prefix_field ("item[" +:+ Str.of_nat index +:+ "].")
      <$> DataValidator.validateItem (clock index) item) 0 (Model.getItems (model self)).

(** *** Statistics *)

(** One turn of the counting loop of [getStats]. *)
Definition count_item (stats : SitemapStats) (item : SitemapItem) : SitemapStats :=
  let stats :=
    match images item with
    | Some l =>
        if (0 <? length l)%nat then
          mkStats (urls stats) (withImages stats + 1) (withVideos stats)
                  (withTranslations stats) (withAlternates stats) (withGoogleNews stats)
                  (totalImages stats + length l) (totalVideos stats) (estimatedSize stats)
        else stats
    | None => stats
    end in
  let stats :=
    match videos item with
    | Some l =>
        if (0 <? length l)%nat then
          mkStats (urls stats) (withImages stats) (withVideos stats + 1)
                  (withTranslations stats) (withAlternates stats) (withGoogleNews stats)
                  (totalImages stats) (totalVideos stats + length l) (estimatedSize stats)
        else stats
    | None => stats
    end in
  let stats :=
    if non_empty (translations item) then
      mkStats (urls stats) (withImages stats) (withVideos stats)
              (withTranslations stats + 1) (withAlternates stats) (withGoogleNews stats)
              (totalImages stats) (totalVideos stats) (estimatedSize stats)
    else stats in
  let stats :=
    if non_empty (alternates item) then
      mkStats (urls stats) (withImages stats) (withVideos stats)
              (withTranslations stats) (withAlternates stats + 1) (withGoogleNews stats)
              (totalImages stats) (totalVideos stats) (estimatedSize stats)
    else stats in
  match googlenews item with
  | Some _ =>
      mkStats (urls stats) (withImages stats) (withVideos stats)
              (withTranslations stats) (withAlternates stats) (withGoogleNews stats + 1)
              (totalImages stats) (totalVideos stats) (estimatedSize stats)
  | None => stats
  end.

(** The callback of the [reduce] that estimates the size. *)
Definition add_itemSize (size : nat) (item : SitemapItem) : nat :=
  let itemSize := 150 in
  let itemSize := itemSize + String.length (loc item) in
  let itemSize :=
    if truthy (title item) then itemSize + (String.length (or_empty (title item)) + 15)
    else itemSize in
  let itemSize := if truthy_date (lastmod item) then itemSize + 30 else itemSize in
  let itemSize :=
    match images item with Some l => itemSize + length l * 200 | None => itemSize end in
  let itemSize :=
    match videos item with Some l => itemSize + length l * 500 | None => itemSize end in
  let itemSize :=
    match translations item with Some l => itemSize + length l * 100 | None => itemSize end in
  let itemSize :=
    match alternates item with Some l => itemSize + length l * 100 | None => itemSize end in
  let itemSize :=
    match googlenews item with Some _ => itemSize + 300 | None => itemSize end in
  size + itemSize.

Definition getStats (self : t) : SitemapStats :=
  let items := Model.getItems (model self) in
  let stats := mkStats (length items) 0 0 0 0 0 0 0 0 in
  let stats := foldl count_item stats items in
  mkStats (urls stats) (withImages stats) (withVideos stats) (withTranslations stats)
          (withAlternates stats) (withGoogleNews stats) (totalImages stats)
          (totalVideos stats) (foldl add_itemSize 500 items).

(** *** Callers *)

(** One call that changes a sitemap; a caller may catch what it throws and
    go on. The predicate of [removeItems] reads and answers. *)
Inductive call :=
| call_add (now : Z) (url : string) (lastmod : option DateInput)
    (priority : option float) (changefreq : option string) (options : SitemapAddOptions)
| call_addItem (clock : nat -> Z) (items : SitemapItemInput)
| call_clear
| call_removeItems (predicate : SitemapItem -> bool).

Definition run_call (c : call) : Eff t unit :=
  match c with
  | call_add now url lastmod priority changefreq options =>
      add now url lastmod priority changefreq options
  | call_addItem clock items => addItem clock items
  | call_clear => modify clear
  | call_removeItems predicate => modify (removeItems predicate)
  end.

(** The state a sequence of calls leaves, thrown errors caught. *)
Definition run_calls (calls : list call) (self : t) : t :=
  foldl (fun self c => fst (run_call c self)) self calls.

(** *** Callers that write to the records

    The records of the array that [getItems] returns are the store's own
    record objects, [removeItems] hands them to its callback, and a record
    holds the arrays and the news metadata that were passed to [add] and
    [addItem]: a caller can write to what is stored without a call of the
    store. *)

(** [removeItems] with a callback that may write to the record it is
    handed, and may throw: when it throws, the store is not cleared. *)
Definition removeItems_callback (predicate : SitemapItem -> SitemapItem * outcome bool)
  : Eff t unit := fun self =>
  let items := Model.getItems (model self) in
  match filter_callback predicate items with
  | (written, Throws e) =>
      (mk (Model.mk written (Model.sitemaps (model self)) (Model.config (model self))),
       Throws e)
  | (written, Returns filteredItems) =>
      (mk (foldl (fun m item => Model.addItem item m) (Model.clear (model self))
             filteredItems),
       Returns tt)
  end.

(** A write to the record at [index], or to an object it holds, through a
    reference the caller has. *)
Definition write_record (index : nat) (write : SitemapItem -> SitemapItem) (self : t) : t :=
  mk (Model.mk (alter write index (Model.items (model self)))
        (Model.sitemaps (model self)) (Model.config (model self))).

(** What a caller can do to a sitemap: a call with a predicate that only
    reads and answers, a [removeItems] with any callback, a write to a
    stored record. *)
Inductive use :=
| use_call (c : call)
| use_removeItems (predicate : SitemapItem -> SitemapItem * outcome bool)
| use_write (index : nat) (write : SitemapItem -> SitemapItem).

Definition run_use (u : use) : Eff t unit :=
  match u with
  | use_call c => run_call c
  | use_removeItems predicate => removeItems_callback predicate
  | use_write index write => modify (write_record index write)
  end.

(** The state a sequence of uses leaves, thrown errors caught. *)
Definition run_uses (uses : list use) (self : t) : t :=
  foldl (fun self u => fst (run_use u self)) self uses.

(** The caller leaves the stored records as they are. *)
Definition reads_only (u : use) : Prop :=
  match u with
  | use_call _ => True
  | use_removeItems predicate => forall item, fst (predicate item) = item
  | use_write _ write => forall item, write item = item
  end.

End Sitemap.
End Sitemap.

(** The store with the records [stored] appended in order. *)
Definition extended (self : Sitemap.t) (stored : list SitemapItem) : Sitemap.t :=
  Sitemap.mk (Model.mk (Model.items (Sitemap.model self) ++ stored)
                (Model.sitemaps (Sitemap.model self))
                (Model.config (Sitemap.model self))).



(** ** SitemapIndex.ts *)

Module SitemapIndex.
Section SitemapIndex.
Context `{JSRuntime}.

Record t := mk {
  items : list SitemapIndexItem;
  config : IndexConfig.t;
}.

Definition DEFAULT_CONFIG : IndexConfig.t :=
  IndexConfig.mk true true true "" "" 50000.

(** [{ ...base, ...config }]. *)
Definition merge (base : IndexConfig.t) (config : SitemapIndexConfig.t) : IndexConfig.t :=
  IndexConfig.mk
    (default (IndexConfig.validate base) (SitemapIndexConfig.validate config))
    (default (IndexConfig.escaping base) (SitemapIndexConfig.escaping config))
    (default (IndexConfig.pretty base) (SitemapIndexConfig.pretty config))
    (default (IndexConfig.baseUrl base) (SitemapIndexConfig.baseUrl config))
    (default (IndexConfig.stylesheet base) (SitemapIndexConfig.stylesheet config))
    (default (IndexConfig.maxSitemaps base) (SitemapIndexConfig.maxSitemaps config)).

Definition new (config : SitemapIndexConfig.t) : t :=
  mk [] (merge DEFAULT_CONFIG config).

Definition validateSitemapItem (item : SitemapIndexItem) : list ValidationError :=
  (if negb (DataValidator.isValidUrl (index_loc item)) then
     [mkError url_error "loc" "Invalid URL format" (VString (index_loc item))]
   else [])
  ++ (match index_lastmod item with
      | Some (DStr s) =>
          if negb (String.eqb s "") then
            match Date_parse s with
            | InvalidDate =>
                [mkError date_error "lastmod" "Invalid date format" (VString s)]
            | DateTime _ => []
            end
          else []
      | _ => []
      end).

(** The template literal [${this.config.maxSitemaps}]. *)
Definition limit_string (n : Z) : string :=
  NilZero.string_of_int (Z.to_int n).

(** [`Maximum number of sitemaps (${this.config.maxSitemaps}) exceeded`]. *)
Definition limit_message (config : IndexConfig.t) : string :=
  "Maximum number of sitemaps (" +:+ limit_string (IndexConfig.maxSitemaps config)
  +:+ ") exceeded".

(** The entry [addSitemap] builds, up to the point where it validates it. *)
Definition addSitemap_item (config : IndexConfig.t) (loc : string)
    (lastmod : option DateInput) : outcome SitemapIndexItem :=
  let normalizedUrl := normalizeUrl loc in
  let normalizedUrl :=
    if negb (String.eqb (IndexConfig.baseUrl config) "")
       && negb (DataValidator.isValidUrl normalizedUrl)
    then resolveUrl loc (IndexConfig.baseUrl config)
    else normalizedUrl in
  lastmod' ← match lastmod with
             | None => Returns None
             | Some (DObj d) => s ← formatDate (DObj d); Returns (Some (DStr s))
             | Some (DStr s) => Returns (Some (DStr s))
             end;
  Returns (mkIndexItem normalizedUrl lastmod').

Definition addSitemap (loc : string) (lastmod : option DateInput) : Eff t unit :=
  config ← gets config;
  item ← lift (addSitemap_item config loc lastmod);
  (if IndexConfig.validate config then
     let errors := validateSitemapItem item in
     if (0 <? length errors)%nat
     then throw ("Validation failed: " +:+ errorMessages errors)
     else mret tt
   else mret tt);;
  count ← gets (fun self => length (items self));
  (if (IndexConfig.maxSitemaps config <=? Z.of_nat count)%Z
   then throw (limit_message config)
   else mret tt);;
  modify (fun self => mk (items self ++ [item]) (SitemapIndex.config self)).

Definition addSitemaps (items : list SitemapIndexItem) : Eff t unit :=
  for_each (fun _ item => addSitemap (index_loc item) (index_lastmod item)) 0 items.

Definition getSitemaps (self : t) : list SitemapIndexItem := items self.

Definition getSitemapCount (self : t) : nat := length (items self).

Definition clear : Eff t unit :=
  modify (fun self => mk [] (config self)).

(** [removeSitemaps] with a predicate that reads the entry it is handed
    and answers; [removeSitemaps_callback] below takes any callback. *)
Definition removeSitemaps (predicate : SitemapIndexItem -> bool) : Eff t unit :=
  modify (fun self =>
    mk (filter (fun item => negb (predicate item) = true) (items self)) (config self)).

Definition resetSitemaps (sitemaps : list SitemapIndexItem) : Eff t unit :=
  modify (fun self => mk [] (config self));;
  addSitemaps sitemaps.

Definition hasSitemap (url : string) (self : t) : bool :=
  let normalizedUrl := normalizeUrl url in
  existsb (fun item => String.eqb (index_loc item) normalizedUrl) (items self).

Definition shouldSplit (self : t) : bool :=
  (IndexConfig.maxSitemaps (config self) <=? Z.of_nat (length (items self)))%Z.

Definition setConfig (config : SitemapIndexConfig.t) : Eff t unit :=
  modify (fun self => mk (items self) (merge (SitemapIndex.config self) config)).

(** *** Callers *)

(** One call on an index; a caller may catch what it throws and go on.
    The predicate of [removeSitemaps] reads and answers. *)
Inductive call :=
| call_addSitemap (loc : string) (lastmod : option DateInput)
| call_addSitemaps (items : list SitemapIndexItem)
| call_resetSitemaps (sitemaps : list SitemapIndexItem)
| call_removeSitemaps (predicate : SitemapIndexItem -> bool)
| call_clear
| call_setConfig (config : SitemapIndexConfig.t).

Definition run_call (c : call) : Eff t unit :=
  match c with
  | call_addSitemap loc lastmod => addSitemap loc lastmod
  | call_addSitemaps items => addSitemaps items
  | call_resetSitemaps sitemaps => resetSitemaps sitemaps
  | call_removeSitemaps predicate => removeSitemaps predicate
  | call_clear => clear
  | call_setConfig config => setConfig config
  end.

(** The state a sequence of calls leaves, thrown errors caught. *)
Definition run_calls (calls : list call) (self : t) : t :=
  foldl (fun self c => fst (run_call c self)) self calls.

(** The index holds no more entries than its configuration allows. *)
Definition within_limit (self : t) : Prop :=
  (Z.of_nat (getSitemapCount self) <= IndexConfig.maxSitemaps (config self))%Z.

(** A call that does not touch the limit of the configuration. *)
Definition keeps_maxSitemaps (c : call) : Prop :=
  match c with
  | call_setConfig config => SitemapIndexConfig.maxSitemaps config = None
  | _ => True
  end.

(** *** Rendering and the rest *)

Definition escapeXml (self : t) (text : string) : string :=
  if negb (IndexConfig.escaping (config self)) then text
  else
    Str.replace_char Str.squote "&#39;"
      (Str.replace_char Str.dquote "&quot;"
         (Str.replace_char ">"%char "&gt;"
            (Str.replace_char "<"%char "&lt;"
               (Str.replace_char "&"%char "&amp;" text)))).

Definition renderSitemapIndexItem (self : t) (item : SitemapIndexItem) (indent : nat)
  : string :=
  let indentStr := Str.repeat "  " indent in
  let xml := indentStr +:+ "<sitemap>" +:+ Str.nl in
  let xml := xml +:+ indentStr +:+ "  <loc>" +:+ escapeXml self (index_loc item)
                 +:+ "</loc>" +:+ Str.nl in
  let xml :=
    match index_lastmod item with
    | Some (DStr s) =>
        if negb (String.eqb s "") then
          xml +:+ indentStr +:+ "  <lastmod>" +:+ s +:+ "</lastmod>" +:+ Str.nl
        else xml
    | Some (DObj d) =>
        xml +:+ indentStr +:+ "  <lastmod>" +:+ Date_toString d +:+ "</lastmod>" +:+ Str.nl
    | None => xml
    end in
  xml +:+ indentStr +:+ "</sitemap>" +:+ Str.nl.

Definition sitemapindex_tag : string :=
  "<sitemapindex xmlns=" +:+ Str.q +:+ "http://www.sitemaps.org/schemas/sitemap/0.9"
  +:+ Str.q +:+ ">".

Definition toXML (options : RenderOptions) (self : t) : string :=
  let pretty := default (IndexConfig.pretty (config self)) (ro_pretty options) in
  let stylesheet := default (IndexConfig.stylesheet (config self)) (ro_stylesheet options) in
  let xml := Sitemap.xml_declaration +:+ Str.nl in
  let xml :=
    if negb (String.eqb stylesheet "") then
      xml +:+ "<?xml-stylesheet href=" +:+ Str.q +:+ escapeXml self stylesheet +:+ Str.q
          +:+ " type=" +:+ Str.q +:+ "text/xsl" +:+ Str.q +:+ "?>" +:+ Str.nl
    else xml in
  let xml := xml +:+ sitemapindex_tag +:+ Str.nl in
  let xml :=
    foldl (fun xml item => xml +:+ renderSitemapIndexItem self item (if pretty then 1 else 0))
          xml (items self) in
  xml +:+ "</sitemapindex>".

Definition render (options : RenderOptions) (self : t) : string := toXML options self.

(** [validate()]. *)
Definition validate (self : t) : list ValidationError :=
  flat_mapi (fun index item =>
    prefix_field ("sitemap[" +:+ Str.of_nat index +:+ "].")
      <$> validateSitemapItem item) 0 (items self).

Definition getStats (self : t) : SitemapStats :=
  mkStats (length (items self)) 0 0 0 0 0 0 0
    (foldl (fun size item =>
              let itemSize := 100 in
              let itemSize := itemSize + String.length (index_loc item) in
              let itemSize :=
                if truthy_date (index_lastmod item) then itemSize + 30 else itemSize in
              size + itemSize)
           200 (items self)).

Definition getConfig (self : t) : IndexConfig.t := config self.

(** *** Callers that write to the entries

    The entries of the array that [getSitemaps] returns are the index's
    own objects, and [removeSitemaps] hands them to its callback. *)

(** [removeSitemaps] with a callback that may write to the entry it is
    handed, and may throw: when it throws, the array is not replaced. *)
Definition removeSitemaps_callback
    (predicate : SitemapIndexItem -> SitemapIndexItem * outcome bool) : Eff t unit :=
  fun self =>
  match filter_callback predicate (items self) with
  | (written, Throws e) => (mk written (config self), Throws e)
  | (written, Returns kept) => (mk kept (config self), Returns tt)
  end.

(** A write to the entry at [index] through a reference the caller has. *)
Definition write_entry (index : nat) (write : SitemapIndexItem -> SitemapIndexItem)
    (self : t) : t :=
  mk (alter write index (items self)) (config self).

(** What a caller can do to an index: a call with a predicate that only
    reads and answers, a [removeSitemaps] with any callback, a write to
    an entry. *)
Inductive use :=
| use_call (c : call)
| use_removeSitemaps (predicate : SitemapIndexItem -> SitemapIndexItem * outcome bool)
| use_write (index : nat) (write : SitemapIndexItem -> SitemapIndexItem).

Definition run_use (u : use) : Eff t unit :=
  match u with
  | use_call c => run_call c
  | use_removeSitemaps predicate => removeSitemaps_callback predicate
  | use_write index write => modify (write_entry index write)
  end.

(** The state a sequence of uses leaves, thrown errors caught. *)
Definition run_uses (uses : list use) (self : t) : t :=
  foldl (fun self u => fst (run_use u self)) self uses.

(** The caller leaves the entries as they are. *)
Definition reads_only (u : use) : Prop :=
  match u with
  | use_call _ => True
  | use_removeSitemaps predicate => forall item, fst (predicate item) = item
  | use_write _ write => forall item, write item = item
  end.

End SitemapIndex.
End SitemapIndex.

(** ** The rest of XmlUtils.ts, UrlValidator.ts and DateUtils.ts *)

(** More of the platform: case mapping, and a [Date] read in local time or
    made from a number. *)
Class JSText := {
  (** [s.toLowerCase()]. *)
  toLowerCase : string -> string;
}.

Class JSLocalTime := {
  (** [new Date(n)]. *)
  Date_of_number : float -> JSDate;
  (** [date.getFullYear()], [date.getMonth()] and [date.getDate()] on a
      valid date. *)
  getFullYear : Z -> Z;
  getMonth : Z -> Z;
  getDate : Z -> Z;
}.

(** [Object.entries(record)]: the keys with their values, in the order of
    the platform. *)
Abbreviation entries := (list (string * string)) (only parsing).

Definition xmlDeclaration (version encoding : option string) : string :=
  "<?xml version=" +:+ Str.q +:+ default "1.0"%string version +:+ Str.q
  +:+ " encoding=" +:+ Str.q +:+ default "UTF-8"%string encoding +:+ Str.q +:+ "?>".

Definition xmlStylesheet (href : string) (type_ : option string) : string :=
  "<?xml-stylesheet href=" +:+ Str.q +:+ escapeXml href +:+ Str.q
  +:+ " type=" +:+ Str.q +:+ default "text/xsl"%string type_ +:+ Str.q +:+ "?>".

(** The attribute string both element builders make. *)
Definition attrStr (attributes : option entries) : string :=
  match attributes with
  | Some l =>
      Str.join "" ((fun kv => " " +:+ fst kv +:+ "=" +:+ Str.q +:+ escapeXml (snd kv)
                              +:+ Str.q) <$> l)
  | None => ""
  end.

Definition createElement (tagName : string) (content : option string)
    (attributes : option entries) (indent : nat) : string :=
  let indentStr := Str.repeat "  " indent in
  let attrStr := attrStr attributes in
  match content with
  | None => indentStr +:+ "<" +:+ tagName +:+ attrStr +:+ " />"
  | Some content =>
      if String.eqb content "" then indentStr +:+ "<" +:+ tagName +:+ attrStr +:+ " />"
      else
        let escapedContent := escapeXml content in
        indentStr +:+ "<" +:+ tagName +:+ attrStr +:+ ">" +:+ escapedContent
        +:+ "</" +:+ tagName +:+ ">"
  end.

Definition createElementWithChildren (tagName : string) (children : list string)
    (attributes : option entries) (indent : nat) : string :=
  let indentStr := Str.repeat "  " indent in
  let attrStr := attrStr attributes in
  if (length children =? 0)%nat then indentStr +:+ "<" +:+ tagName +:+ attrStr +:+ " />"
  else
    let childrenStr := Str.join Str.nl children in
    indentStr +:+ "<" +:+ tagName +:+ attrStr +:+ ">" +:+ Str.nl +:+ childrenStr
    +:+ Str.nl +:+ indentStr +:+ "</" +:+ tagName +:+ ">".

Definition createNamespaceDeclarations (namespaces : entries) : string :=
  Str.join "" ((fun kv =>
                  let prefix := fst kv in
                  let uri := snd kv in
                  let nsPrefix :=
                    if String.eqb prefix "default" || String.eqb prefix "sitemap"
                    then "xmlns"%string else ("xmlns:" +:+ prefix)%string in
                  " " +:+ nsPrefix +:+ "=" +:+ Str.q +:+ escapeXml uri +:+ Str.q)
               <$> namespaces).

(** [/^192\.168\.|^10\.|^172\.(1[6-9]|2[0-9]|3[0-1])\./] matches. *)
Definition private_ip (hostname : string) : bool :=
  Str.starts_with "192.168." hostname
  || Str.starts_with "10." hostname
  || (Str.starts_with "172." hostname
      && match String.substring 4 3 hostname with
         | String a (String b (String c EmptyString)) =>
             ((Ascii.eqb a "1" && Str.in_range "6" "9" b)
              || (Ascii.eqb a "2" && Str.in_range "0" "9" b)
              || (Ascii.eqb a "3" && Str.in_range "0" "1" b))
             && Ascii.eqb c "."
         | _ => false
         end).

Definition validExtensions : list string :=
  [".html"; ".htm"; ".php"; ".asp"; ".aspx"; ".jsp"; ".cfm";
   ".pdf"; ".doc"; ".docx"; ".xls"; ".xlsx"; ".ppt"; ".pptx";
   ".txt"; ".xml"; ".rss"; ".atom"]%string.

Section MoreUtilities.
Context `{JSRuntime} `{JSText} `{JSLocalTime}.

Definition isAccessibleUrl (url : string) : bool :=
  if negb (isValidUrl url) then false
  else
    match URL_parse url with
    | None => false
    | Some urlObj =>
        let hostname := toLowerCase (hostname urlObj) in
        if existsb (String.eqb hostname) ["localhost"; "127.0.0.1"; "::1"]%string then false
        else if private_ip hostname then false
        else true
    end.

Definition isDomainAllowed (url : string) (allowedDomains : option (list string)) : bool :=
  match allowedDomains with
  | None => true
  | Some [] => true
  | Some allowedDomains =>
      if negb (isValidUrl url) then false
      else
        match URL_parse url with
        | None => false
        | Some urlObj =>
            let hostname := toLowerCase (hostname urlObj) in
            existsb (fun domain =>
                       let normalizedDomain := toLowerCase domain in
                       String.eqb hostname normalizedDomain
                       || Str.ends_with ("." +:+ normalizedDomain) hostname)
                    allowedDomains
        end
  end.

Definition extractDomain (url : string) : option string :=
  if negb (isValidUrl url) then None
  else
    match URL_parse url with
    | None => None
    | Some urlObj => Some (hostname urlObj)
    end.

Definition hasValidWebExtension (url : string) : bool :=
  if negb (isValidUrl url) then false
  else
    match URL_parse url with
    | None => false
    | Some urlObj =>
        let pathname := toLowerCase (pathname urlObj) in
        if negb (Str.occurs "." pathname) then true
        else existsb (fun ext => Str.ends_with ext pathname) validExtensions
    end.

Definition formatNewsDate (date : DateInput) : outcome string :=
  isoDate ← formatDate date;
  Returns isoDate.

Definition formatW3CDate (date : DateInput) (includeTime : option bool) : outcome string :=
  let dateObj := match date with DStr s => Date_parse s | DObj d => d end in
  match dateObj with
  | InvalidDate => Throws "Invalid date provided"
  | DateTime ms =>
      if default true includeTime then Returns (Date_toISOString ms)
      else Returns (Str.before "T" (Date_toISOString ms))
  end.

(** [now] is the reading of the clock by [new Date()]. *)
Definition getCurrentDate (now : Z) : string := Date_toISOString now.

(** A value of type [Date | string | number]. *)
Inductive DateLike :=
| of_date (d : JSDate)
| of_string (s : string)
| of_number (n : float).

Definition parseDate (date : DateLike) : outcome JSDate :=
  match date with
  | of_date d => Returns d
  | of_string s =>
      match Date_parse s with
      | InvalidDate => Throws ("Unable to parse date: " +:+ s)
      | parsedDate => Returns parsedDate
      end
  | of_number n =>
      match Date_of_number n with
      | InvalidDate => Throws ("Unable to parse date: " +:+ Number_toString n)
      | parsedDate => Returns parsedDate
      end
  end.

Definition DateLike_of (date : DateInput) : DateLike :=
  match date with
  | DStr s => of_string s
  | DObj d => of_date d
  end.

(** The three comparisons of [isSameDay]; a getter of an invalid date gives
    NaN, which equals nothing. *)
Definition same_local_day (d1 d2 : JSDate) : bool :=
  match d1, d2 with
  | DateTime t1, DateTime t2 =>
      (getFullYear t1 =? getFullYear t2)%Z
      && (getMonth t1 =? getMonth t2)%Z
      && (getDate t1 =? getDate t2)%Z
  | _, _ => false
  end.

Definition isSameDay (date1 date2 : DateInput) : bool :=
  match parseDate (DateLike_of date1) with
  | Throws _ => false
  | Returns d1 =>
      match parseDate (DateLike_of date2) with
      | Throws _ => false
      | Returns d2 => same_local_day d1 d2
      end
  end.

End MoreUtilities.

(** ** Objects and references

    [Model.getItems] returns [[...this.items]]: a new array holding the same
    references. Who can reach what after such a call is a matter of
    references, so here arrays and records live in a heap. *)

Module Heap.

(** A reference is an address in the heap. *)
Abbreviation ref := nat (only parsing).

Record t := mk {
  objects : gmap nat SitemapItem;
  arrays : gmap nat (list nat);
}.

(** A [Model] instance: [this.items] refers to an array. *)
Record model := mkModel {
  items : ref;
  config : Config.t;
}.

(** An array literal: a new array. *)
Definition new_array (elements : list ref) (h : t) : ref * t :=
  let a := fresh (dom (arrays h)) in
  (a, mk (objects h) (<[a := elements]> (arrays h))).

(** An object literal: a new record. *)
Definition new_object (item : SitemapItem) (h : t) : ref * t :=
  let r := fresh (dom (objects h)) in
  (r, mk (<[r := item]> (objects h)) (arrays h)).

Definition elements (a : ref) (h : t) : list ref := default [] (arrays h !! a).

(** [new Model(config)]. *)
Definition Model_new (config : SitemapConfig.t) (h : t) : model * t :=
  let (a, h) := new_array [] h in
  (mkModel a (Model.merge Model.DEFAULT_CONFIG config), h).

(** [this.items.push(item)]. *)
Definition Model_addItem (item : ref) (self : model) (h : t) : t :=
  mk (objects h) (alter (fun l => l ++ [item]) (items self) (arrays h)).

(** [return [...this.items]]. *)
Definition Model_getItems (self : model) (h : t) : ref * t :=
  new_array (elements (items self) h) h.

(** [return this.items.length]. *)
Definition Model_getItemCount (self : model) (h : t) : nat :=
  length (elements (items self) h).

(** [Sitemap.getItems] hands on what the model returns. *)
Definition Sitemap_getItems (self : model) (h : t) : ref * t :=
  Model_getItems self h.

(** The records an array refers to. *)
Definition records (a : ref) (h : t) : list SitemapItem :=
  omap (fun r => objects h !! r) (elements a h).

(** The store as a value: what every reader of the instance works on. *)
Definition snapshot (self : model) (h : t) : Model.t :=
  Model.mk (records (items self) h) [] (config self).

(** What code outside the instance can do to the heap. *)
Inductive mutation :=
| array_write (a : ref) (f : list ref -> list ref)
    (** push, pop, splice, sort, an index or length assignment on array [a] *)
| object_write (r : ref) (f : SitemapItem -> SitemapItem)
    (** field assignments on record [r] *)
| object_new (item : SitemapItem)
    (** an object literal *).

Definition apply (mu : mutation) (h : t) : t :=
  match mu with
  | array_write a f => mk (objects h) (alter f a (arrays h))
  | object_write r f => mk (alter f r (objects h)) (arrays h)
  | object_new item => snd (new_object item h)
  end.

Definition run (mus : list mutation) (h : t) : t :=
  foldl (fun h mu => apply mu h) h mus.

(** The array of the model exists and the records it refers to exist. *)
Definition well_formed (self : model) (h : t) : Prop :=
  is_Some (arrays h !! items self)
  /\ forall r, r ∈ elements (items self) h -> is_Some (objects h !! r).

(** A mutation of the array [a] or of a record it holds: what the words
    "mutation of the returned collection, including mutation of the
    records it contains" cover. *)
Definition mutates_collection (a : ref) (h : t) (mu : mutation) : Prop :=
  match mu with
  | array_write a' _ => a' = a
  | object_write r _ => r ∈ elements a h
  | object_new _ => False
  end.

(** A mutation of the array [a] itself, the making of a new record, or a
    write to a record that the model [self] does not hold. *)
Definition mutates_copy (a : ref) (self : model) (h : t) (mu : mutation) : Prop :=
  match mu with
  | array_write a' _ => a' = a
  | object_write r _ => r ∉ elements (items self) h
  | object_new _ => True
  end.

End Heap.

(** ** What the properties of a store speak of *)


(** The publication date of the news metadata of the record, when there is
    one, is not an invalid [Date] object. *)
Definition news_date_ok (item : SitemapItem) : bool :=
  match googlenews item with
  | Some news =>
      match GoogleNewsItem.publication_date news with
      | DObj InvalidDate => false
      | _ => true
      end
  | None => true
  end.

(** How many of [items] satisfy [p]. *)
Definition count_if (p : SitemapItem -> bool) (items : list SitemapItem) : nat :=
  sum_list ((fun item => if p item then 1 else 0) <$> items).

(** The length of an optional array, zero when it is absent. *)
Definition array_length {A} (o : option (list A)) : nat :=
  match o with
  | Some l => length l
  | None => 0
  end.

(** The strings of [blocks] one after the other. *)
Definition concat_blocks (blocks : list string) : string :=
  foldr String.append EmptyString blocks.

(** The last modification of an entry of an index is absent or a string. *)
Definition index_lastmod_is_string (item : SitemapIndexItem) : Prop :=
  match index_lastmod item with
  | Some (DObj _) => False
  | _ => True
  end.

(** ** A small runtime for worked examples

    Five URLs, one date. *)

Module Example.

Definition home : URL :=
  mkURL "https:" "" "" "example.com" "" "/" None None.
Definition page : URL :=
  mkURL "https:" "" "" "example.com" "" "/page" (Some "a=1"%string) None.

Definition with_fragment (u : URL) (f : string) : URL :=
  mkURL (protocol u) (username u) (password u) (hostname u) (port u)
        (pathname u) (query u) (Some f).

Definition parse (s : string) : option URL :=
  if String.eqb s "https://example.com" then Some home
  else if String.eqb s "https://example.com/" then Some home
  else if String.eqb s "https://example.com/#top" then Some (with_fragment home "top")
  else if String.eqb s "https://example.com/page?a=1" then Some page
  else if String.eqb s "https://example.com/page?a=1#top"
       then Some (with_fragment page "top")
  else None.

Definition href (u : URL) : string :=
  protocol u +:+ "//" +:+ hostname u +:+ pathname u
  +:+ match query u with Some q => "?" +:+ q | None => "" end
  +:+ match fragment u with Some f => "#" +:+ f | None => "" end.

Definition parse_base (s base : string) : option URL :=
  if String.eqb s "/page?a=1" && String.eqb base "https://example.com"
  then Some page else parse s.

Definition date_parse (s : string) : JSDate :=
  if String.eqb s "2025-01-01" then DateTime 1735689600000 else InvalidDate.

Global Instance runtime : JSRuntime := {|
  URL_parse := parse;
  URL_parse_base := parse_base;
  URL_href := href;
  Date_parse := date_parse;
  Date_toISOString := fun _ => "2025-01-01T00:00:00.000Z"%string;
  Date_toString := fun _ => "Wed Jan 01 2025"%string;
  Number_toString := fun _ => "0.8"%string;
|}.

Definition now : Z := 1767225600000.

(** An index configured with a negative limit. *)
Definition negative_limit : SitemapIndexConfig.t :=
  SitemapIndexConfig.mk None None None None None (Some (-1)%Z).

(** An index limited to one entry. *)
Definition single : SitemapIndexConfig.t :=
  SitemapIndexConfig.mk None None None None None (Some 1%Z).

(** Stores with a threshold of two records. *)
Definition limited : SitemapConfig.t :=
  SitemapConfig.mk None None (Some 2%Z) None None None None.
Definition one_record : Sitemap.t :=
  Sitemap.mk (Model.addItem (plain_item "https://example.com/") (Model.new limited)).
Definition two_records : Sitemap.t :=
  Sitemap.mk (Model.addItem (plain_item "https://example.com/page?a=1")
                (Sitemap.model one_record)).

(** A model with one record, built on the empty heap. *)
Definition stored : Heap.model * Heap.t :=
  let (self, h) := Heap.Model_new SitemapConfig.empty (Heap.mk ∅ ∅) in
  let (r, h) := Heap.new_object (plain_item "https://example.com/") h in
  (self, Heap.Model_addItem r self h).

Definition store : Heap.model := fst stored.
Definition heap : Heap.t := snd stored.

(** [const copy = store.getItems()]. *)
Definition copy : Heap.ref := fst (Heap.Sitemap_getItems store heap).
Definition heap_after_read : Heap.t := snd (Heap.Sitemap_getItems store heap).

(** [item.loc = 'https://example.com/moved']. *)
Definition move (item : SitemapItem) : SitemapItem :=
  mkItem "https://example.com/moved" (lastmod item) (priority item) (changefreq item)
         (title item) (images item) (videos item) (translations item)
         (alternates item) (googlenews item).

(** [copy[0].loc = 'https://example.com/moved']. *)
Definition tamper : Heap.mutation :=
  Heap.object_write (default 0 (Heap.elements copy heap_after_read !! 0)) move.

(** [copy.push({ loc: 'https://example.com/modified' })]: a new record,
    then a push on the copy. *)
Definition push_new : list Heap.mutation :=
  [Heap.object_new (plain_item "https://example.com/modified");
   Heap.array_write copy
     (fun l => l ++ [fresh (dom (Heap.objects heap_after_read))])].

(** A batch whose second record has no valid location. *)
Definition batch : list SitemapItem :=
  [plain_item "https://example.com"; plain_item "not a url";
   plain_item "https://example.com/page?a=1"].

(** A record with one image, and a store that holds it. *)
Definition photo : ImageItem.t :=
  ImageItem.mk "https://example.com/" (Some "A photo"%string) None None None.
Definition with_image : SitemapItem :=
  mkItem "https://example.com/" None None None None (Some [photo]) (Some [])
         None None None.
Definition gallery : Sitemap.t :=
  Sitemap.mk (Model.addItem with_image (Model.new SitemapConfig.empty)).

(** A video whose title holds the end mark of a CDATA section. *)
Definition clip : VideoItem.t :=
  VideoItem.basic "a]]>b" "A clip" "https://example.com/".
Definition with_video : SitemapItem :=
  mkItem "https://example.com/" None None None None None (Some [clip])
         None None None.

(** Lower case on the letters A to Z. *)
Definition lower_char (c : ascii) : ascii :=
  if Str.in_range "A" "Z" c then ascii_of_nat (nat_of_ascii c + 32) else c.

Fixpoint lower (s : string) : string :=
  match s with
  | EmptyString => EmptyString
  | String c rest => String (lower_char c) (lower rest)
  end.

Global Instance text : JSText := {| toLowerCase := lower |}.

(** Days counted from the epoch, in one month of one year. *)
Global Instance local_time : JSLocalTime := {|
  Date_of_number := fun _ => InvalidDate;
  getFullYear := fun _ => 2025%Z;
  getMonth := fun _ => 0%Z;
  getDate := fun ms => (ms / 86400000)%Z;
|}.

(** A store that holds a record with news metadata dated by an invalid
    [Date] object; such a record enters when validation is off. *)
Definition undated_news : SitemapItem :=
  mkItem "https://example.com/" None None None None None None None None
         (Some (GoogleNewsItem.mk "Example Times" "en" (DObj InvalidDate) None None None)).

Definition unchecked : SitemapConfig.t :=
  SitemapConfig.mk None (Some false) None None None None None.

(** A record whose second image has no valid URL. *)
Definition broken_image : ImageItem.t :=
  ImageItem.mk "not a url" None None None None.
Definition with_broken_image : SitemapItem :=
  mkItem "https://example.com/" None None None None (Some [photo; broken_image]) None
         None None None.


(** A callback that only reads: it drops the records of one page. *)
Definition drop_page (item : SitemapItem) : SitemapItem * outcome bool :=
  (item, Returns (String.eqb (loc item) "https://example.com/page?a=1")).

(** A callback that writes to the record it is handed and keeps it. *)
Definition spoil (item : SitemapItem) : SitemapItem * outcome bool :=
  (mkItem "not a url" (Some (DObj InvalidDate)) (priority item) (changefreq item)
          (title item) (images item) (videos item) (translations item)
          (alternates item)
          (Some (GoogleNewsItem.mk "Example Times" "en" (DObj InvalidDate) None None None)),
   Returns false).

(** Two records added, one refused, one dropped by a callback that reads. *)
Definition careful : list Sitemap.use :=
  [Sitemap.use_call (Sitemap.call_add now "https://example.com" None None None no_options);
   Sitemap.use_call
     (Sitemap.call_add now "https://example.com/page?a=1" None None None no_options);
   Sitemap.use_call (Sitemap.call_add now "not a url" None None None no_options);
   Sitemap.use_removeItems drop_page].

(** A record added, then written to by a callback. *)
Definition careless : list Sitemap.use :=
  [Sitemap.use_call (Sitemap.call_add now "https://example.com" None None None no_options);
   Sitemap.use_removeItems spoil].

(** Callbacks on the entries of an index: one reads, one writes. *)
Definition drop_undated (item : SitemapIndexItem) : SitemapIndexItem * outcome bool :=
  (item, Returns match index_lastmod item with None => true | Some _ => false end).
Definition spoil_entry (item : SitemapIndexItem) : SitemapIndexItem * outcome bool :=
  (mkIndexItem "not a url" (Some (DObj InvalidDate)), Returns false).

(** Uses of a new index: a dated entry, a change of the configuration, an
    entry that is refused, an entry without date that a callback drops. *)
Definition index_uses : list SitemapIndex.use :=
  [SitemapIndex.use_call
     (SitemapIndex.call_addSitemap "https://example.com" (Some (DStr "2025-01-01")));
   SitemapIndex.use_call
     (SitemapIndex.call_setConfig
        (SitemapIndexConfig.mk None None None (Some true) None None));
   SitemapIndex.use_call (SitemapIndex.call_addSitemap "not a url" None);
   SitemapIndex.use_call (SitemapIndex.call_addSitemap "https://example.com/page?a=1" None);
   SitemapIndex.use_removeSitemaps drop_undated].

(** An entry added, then written to by a callback. *)
Definition index_careless : list SitemapIndex.use :=
  [SitemapIndex.use_call (SitemapIndex.call_addSitemap "https://example.com" None);
   SitemapIndex.use_removeSitemaps spoil_entry].

End Example.

(** * Properties *)

(** ** Strings *)

Lemma append_cons (c : ascii) (a b : string) : String c a +:+ b = String c (a +:+ b).
Proof. reflexivity. Qed.

Lemma append_nil_l (s : string) : "" +:+ s = s.
Proof. reflexivity. Qed.

(** Unfold [+:+] on what is known of its left operand. *)
Ltac str_simpl := cbn; rewrite ?append_cons, ?append_nil_l; cbn.

Lemma append_nil_r (s : string) : s +:+ "" = s.
Proof. induction s as [|c s IH]; str_simpl; [reflexivity | now rewrite IH]. Qed.

Lemma append_assoc (a b c : string) : (a +:+ b) +:+ c = a +:+ b +:+ c.
Proof. induction a as [|x a IH]; str_simpl; [reflexivity | now rewrite IH]. Qed.

Lemma replace_char_app c by_ (a b : string) :
  Str.replace_char c by_ (a +:+ b) = Str.replace_char c by_ a +:+ Str.replace_char c by_ b.
Proof.
  induction a as [|x a IH]; str_simpl; [reflexivity |].
  destruct (Ascii.eqb x c); rewrite IH; [now rewrite append_assoc | reflexivity].
Qed.

Lemma replace_char_absent c by_ (s : string) :
  Str.occurs c s = false -> Str.replace_char c by_ s = s.
Proof.
  induction s as [|x s IH]; cbn; [reflexivity |].
  destruct (Ascii.eqb x c); cbn; [discriminate |].
  intros Hs. now rewrite IH.
Qed.

Lemma contains_refl (s : string) : Str.contains s s.
Proof. exists ""%string, ""%string. now rewrite append_nil_r. Qed.

Lemma contains_app_l (a b pat : string) : Str.contains a pat -> Str.contains (a +:+ b) pat.
Proof.
  intros (pre & post & ->). exists pre, (post +:+ b).
  now rewrite !append_assoc.
Qed.

Lemma contains_app_r (a b pat : string) : Str.contains b pat -> Str.contains (a +:+ b) pat.
Proof.
  intros (pre & post & ->). exists (a +:+ pre), post.
  now rewrite !append_assoc.
Qed.

(** ** Escaping *)

(** One step of [escapeXml]: the five passes turn the first character into
    its entity and leave what they produced alone. *)
Lemma escapeXml_cons (c : ascii) (rest : string) :
  escapeXml (String c rest) = entity c +:+ escapeXml rest.
Proof.
  unfold escapeXml, entity.
  cbn [Str.replace_char].
  destruct (Ascii.eqb_spec c "&") as [-> | Hamp].
  { rewrite !replace_char_app. reflexivity. }
  cbn [Str.replace_char].
  destruct (Ascii.eqb_spec c "<") as [-> | Hlt].
  { rewrite !replace_char_app. reflexivity. }
  cbn [Str.replace_char].
  destruct (Ascii.eqb_spec c ">") as [-> | Hgt].
  { rewrite !replace_char_app. reflexivity. }
  cbn [Str.replace_char].
  destruct (Ascii.eqb_spec c Str.dquote) as [-> | Hdq].
  { rewrite !replace_char_app. reflexivity. }
  cbn [Str.replace_char].
  destruct (Ascii.eqb_spec c Str.squote) as [-> | Hsq]; reflexivity.
Qed.

Lemma escapeXml_is_spec (text : string) : escapeXml text = escapeXml_spec text.
Proof.
  induction text as [|c rest IH]; [reflexivity |].
  rewrite escapeXml_cons. cbn. now rewrite IH.
Qed.

Lemma is_meta_false (c : ascii) :
  c <> "&"%char -> c <> "<"%char -> c <> ">"%char -> c <> Str.dquote -> c <> Str.squote ->
  is_meta c = false.
Proof.
  intros. unfold is_meta.
  repeat match goal with
         | Hne : c <> ?d |- context [Ascii.eqb c ?d] =>
             rewrite (proj2 (Ascii.eqb_neq c d) Hne)
         end.
  reflexivity.
Qed.

(** An entity is never raw, whatever follows it. *)
Lemma raw_free_entity (c : ascii) (rest : string) :
  raw_free (entity c +:+ rest) = raw_free rest.
Proof.
  unfold entity.
  destruct (Ascii.eqb_spec c "&") as [-> | Hamp];
    [rewrite !append_cons, append_nil_l; reflexivity |].
  destruct (Ascii.eqb_spec c "<") as [-> | Hlt];
    [rewrite !append_cons, append_nil_l; reflexivity |].
  destruct (Ascii.eqb_spec c ">") as [-> | Hgt];
    [rewrite !append_cons, append_nil_l; reflexivity |].
  destruct (Ascii.eqb_spec c Str.dquote) as [-> | Hdq];
    [rewrite !append_cons, append_nil_l; reflexivity |].
  destruct (Ascii.eqb_spec c Str.squote) as [-> | Hsq];
    [rewrite !append_cons, append_nil_l; reflexivity |].
  unfold Str.chr. rewrite append_cons, append_nil_l. cbn [raw_free].
  rewrite (proj2 (Ascii.eqb_neq c "&") Hamp), is_meta_false by assumption.
  reflexivity.
Qed.

Lemma escapeXml_raw_free (text : string) : raw_free (escapeXml text) = true.
Proof.
  induction text as [|c rest IH]; [reflexivity |].
  now rewrite escapeXml_cons, raw_free_entity.
Qed.

(** A text without raw metacharacters has no [<], [>] or quote at all. *)
Lemma raw_free_occurs (c : ascii) (text : string) :
  is_meta c = true -> c <> "&"%char -> raw_free text = true -> Str.occurs c text = false.
Proof.
  intros Hc Hamp. induction text as [|x rest IH]; [reflexivity |].
  cbn [raw_free Str.occurs]. intros Hraw.
  apply andb_prop in Hraw as [Hx Hrest]. rewrite (IH Hrest), orb_false_r.
  destruct (Ascii.eqb_spec x c) as [-> | Hne]; [| reflexivity].
  rewrite (proj2 (Ascii.eqb_neq c "&") Hamp), Hc in Hx. discriminate.
Qed.

Lemma escapeXml_no_meta (text : string) : has_meta text = false -> escapeXml text = text.
Proof.
  unfold has_meta, escapeXml. intros Hno.
  repeat (apply orb_false_elim in Hno as [Hno ?]).
  rewrite (replace_char_absent "&" _ text) by assumption.
  rewrite (replace_char_absent "<" _ text) by assumption.
  rewrite (replace_char_absent ">" _ text) by assumption.
  rewrite (replace_char_absent Str.dquote _ text) by assumption.
  now rewrite (replace_char_absent Str.squote _ text) by assumption.
Qed.

(** C2: on a string with at least one of the five metacharacters,
    [escapeXml] returns a text with no raw metacharacter (no [<], [>],
    double or single quote, and no ampersand but the one that opens an
    entity) in which every character of the input stands as its entity; on
    a string with none of the five, it returns the input. The private
    [Sitemap.escapeXml] is this function when escaping is configured. *)
Theorem escapeXml_escapes (text : string) :
  (has_meta text = true ->
     raw_free (escapeXml text) = true
     /\ Str.occurs "<" (escapeXml text) = false
     /\ Str.occurs ">" (escapeXml text) = false
     /\ Str.occurs Str.dquote (escapeXml text) = false
     /\ Str.occurs Str.squote (escapeXml text) = false
     /\ escapeXml text = escapeXml_spec text)
  /\ (has_meta text = false -> escapeXml text = text)
  /\ (forall self : Sitemap.t,
        Config.escaping (Model.getConfig (Sitemap.model self)) = true ->
        Sitemap.escapeXml self text = escapeXml text).
Proof.
  pose proof (escapeXml_raw_free text) as Hraw.
  split; [| split].
  - intros _. repeat split; try (apply raw_free_occurs; [reflexivity | discriminate | exact Hraw]).
    + exact Hraw.
    + apply escapeXml_is_spec.
  - apply escapeXml_no_meta.
  - intros self Hesc. unfold Sitemap.escapeXml. now rewrite Hesc.
Qed.

Lemma escapeXml_escapes_witness :
  escapeXml "Tom & <Jerry>" = "Tom &amp; &lt;Jerry&gt;"%string
  /\ raw_free (escapeXml "Tom & <Jerry>") = true
  /\ escapeXml "plain text" = "plain text"%string
  /\ Sitemap.escapeXml (Sitemap.new SitemapConfig.empty) "a'b" = "a&#39;b"%string.
Proof.
  destruct (escapeXml_escapes "Tom & <Jerry>") as [Hmeta _].
  destruct (escapeXml_escapes "plain text") as (_ & Hplain & _).
  destruct (escapeXml_escapes "a'b") as (_ & _ & Hself).
  destruct (Hmeta eq_refl) as (Hraw & _ & _ & _ & _ & Hspec).
  split; [rewrite Hspec; reflexivity |].
  split; [exact Hraw |].
  split; [exact (Hplain eq_refl) |].
  rewrite (Hself (Sitemap.new SitemapConfig.empty) eq_refl). reflexivity.
Defined.

(** With escaping configured off, [Sitemap.escapeXml] hands the text on. *)
Lemma Sitemap_escapeXml_off (self : Sitemap.t) (text : string) :
  Config.escaping (Model.getConfig (Sitemap.model self)) = false ->
  Sitemap.escapeXml self text = text.
Proof. intros Hoff. unfold Sitemap.escapeXml. now rewrite Hoff. Qed.

(** The unit tests of [escapeXml] and [wrapCDATA], replayed. *)
Example escapeXml_tests :
  escapeXml "<tag>content</tag>" = "&lt;tag&gt;content&lt;/tag&gt;"%string
  /\ escapeXml "Tom & Jerry" = "Tom &amp; Jerry"%string
  /\ escapeXml ("Say " +:+ Str.q +:+ "Hello" +:+ Str.q) = "Say &quot;Hello&quot;"%string
  /\ escapeXml "It's here" = "It&#39;s here"%string
  /\ escapeXml ("<>&" +:+ Str.q +:+ "'") = "&lt;&gt;&amp;&quot;&#39;"%string
  /\ escapeXml "&&&" = "&amp;&amp;&amp;"%string
  /\ escapeXml "" = ""%string
  /\ escapeXml "abc-def_ghi.jkl" = "abc-def_ghi.jkl"%string.
Proof. repeat split. Qed.

Example wrapCDATA_tests :
  wrapCDATA "Tom & Jerry" = "<![CDATA[Tom & Jerry]]>"%string
  /\ wrapCDATA "Hello World" = "Hello World"%string
  /\ wrapCDATA "It's here" = "It&#39;s here"%string
  /\ wrapCDATA "" = ""%string
  /\ wrapCDATA "Some text ]]> more text" = "<![CDATA[Some text ]]&gt; more text]]>"%string.
Proof. repeat split. Qed.

(** ** Rendering an empty store *)

(** C5: a store without records, rendered without a stylesheet (the default
    configuration has none), gives the XML declaration, a line break, the
    [<urlset>] start tag with the sitemap namespace alone, a line break and
    the end tag: no entry in between. *)
Theorem toXML_empty_store `{JSRuntime} (options : RenderOptions) (self : Sitemap.t) :
  Sitemap.getItems self = [] ->
  default (Config.stylesheet (Model.getConfig (Sitemap.model self)))
          (ro_stylesheet options) = ""%string ->
  Sitemap.toXML options self =
    Returns ("<?xml version=" +:+ Str.q +:+ "1.0" +:+ Str.q +:+ " encoding=" +:+ Str.q
             +:+ "UTF-8" +:+ Str.q +:+ "?>" +:+ Str.nl
             +:+ "<urlset xmlns=" +:+ Str.q
             +:+ "http://www.sitemaps.org/schemas/sitemap/0.9" +:+ Str.q +:+ ">"
             +:+ Str.nl +:+ "</urlset>").
Proof.
  unfold Sitemap.toXML, Sitemap.getItems. intros -> ->. reflexivity.
Qed.

Lemma toXML_empty_store_witness :
  Sitemap.toXML default_render_options (Sitemap.new SitemapConfig.empty) =
    Returns ("<?xml version=" +:+ Str.q +:+ "1.0" +:+ Str.q +:+ " encoding=" +:+ Str.q
             +:+ "UTF-8" +:+ Str.q +:+ "?>" +:+ Str.nl
             +:+ "<urlset xmlns=" +:+ Str.q
             +:+ "http://www.sitemaps.org/schemas/sitemap/0.9" +:+ Str.q +:+ ">"
             +:+ Str.nl +:+ "</urlset>").
Proof.
  apply (toXML_empty_store default_render_options (Sitemap.new SitemapConfig.empty));
    reflexivity.
Defined.

(** ** The advisory threshold *)

(** Pushing records one after the other appends them and keeps the
    configuration. *)
Lemma addItem_foldl (items : list SitemapItem) : forall m : Model.t,
  Model.items (foldl (fun m item => Model.addItem item m) m items) = Model.items m ++ items
  /\ Model.config (foldl (fun m item => Model.addItem item m) m items) = Model.config m.
Proof.
  induction items as [|item items IH]; intros m; cbn [foldl].
  - now rewrite app_nil_r.
  - destruct (IH (Model.addItem item m)) as [-> ->]. cbn.
    now rewrite <- app_assoc.
Qed.

(** C7: [shouldSplit()] is true exactly when the number of stored records
    is at least [maxItems]: false at [maxItems - 1] and below, true at
    [maxItems] and above; a store built without a [maxItems] has 50000,
    and a new store into which [n] records were pushed answers by
    comparing [n] with its threshold. *)
Theorem shouldSplit_threshold (self : Sitemap.t) :
  let m := Config.maxItems (Model.getConfig (Sitemap.model self)) in
  let count := Z.of_nat (Sitemap.getItemCount self) in
  (Sitemap.shouldSplit self = true <-> (m <= count)%Z)
  /\ (count = (m - 1)%Z -> Sitemap.shouldSplit self = false)
  /\ ((count < m)%Z -> Sitemap.shouldSplit self = false)
  /\ (count = m -> Sitemap.shouldSplit self = true)
  /\ ((m < count)%Z -> Sitemap.shouldSplit self = true)
  /\ (forall config : SitemapConfig.t,
        SitemapConfig.maxItems config = None ->
        Config.maxItems (Model.getConfig (Sitemap.model (Sitemap.new config))) = 50000%Z)
  /\ (forall (config : SitemapConfig.t) (items : list SitemapItem),
        Sitemap.shouldSplit
          (Sitemap.mk (foldl (fun m item => Model.addItem item m) (Model.new config) items))
        = (default 50000 (SitemapConfig.maxItems config) <=? Z.of_nat (length items))%Z).
Proof.
  intros m count.
  assert (Hdef : Sitemap.shouldSplit self = (m <=? count)%Z) by reflexivity.
  rewrite Hdef. repeat split.
  - apply Z.leb_le.
  - apply Z.leb_le.
  - intros ->. apply Z.leb_gt. lia.
  - intros Hlt. apply Z.leb_gt. lia.
  - intros ->. apply Z.leb_le. lia.
  - intros Hlt. apply Z.leb_le. lia.
  - intros config Hnone. cbn. now rewrite Hnone.
  - intros config items.
    unfold Sitemap.shouldSplit, Model.shouldSplit. cbn [Sitemap.model].
    destruct (addItem_foldl items (Model.new config)) as [-> ->]. reflexivity.
Qed.

Lemma shouldSplit_threshold_witness :
  Sitemap.shouldSplit Example.one_record = false
  /\ Sitemap.shouldSplit Example.two_records = true.
Proof.
  destruct (shouldSplit_threshold Example.one_record) as (_ & Hbelow & _).
  destruct (shouldSplit_threshold Example.two_records) as (_ & _ & _ & Hat & _).
  split; [apply Hbelow | apply Hat]; reflexivity.
Defined.

(** ** Namespaces of the root element *)

Section Namespaces.
Context `{JSRuntime}.











End Namespaces.


(** ** Video text *)

Section VideoText.
Context `{JSRuntime}.

Lemma concat_contains (parts : list string) (part pat : string) :
  part ∈ parts -> Str.contains part pat -> Str.contains (String.concat "" parts) pat.
Proof.
  intros Hin Hpat. induction parts as [|first rest IH]; [now apply not_elem_of_nil in Hin |].
  apply elem_of_cons in Hin as [<- | Hin].
  - destruct rest as [|next rest]; cbn [String.concat]; [assumption |].
    now apply contains_app_l.
  - destruct rest as [|next rest]; [now apply not_elem_of_nil in Hin |].
    cbn [String.concat]. apply contains_app_r. rewrite append_nil_l. now apply IH.
Qed.

Lemma render_video_title self indentStr video :
  Str.contains (Sitemap.render_video self indentStr video)
    ("<video:title><![CDATA[" +:+ VideoItem.title video +:+ "]]></video:title>").
Proof.
  unfold Sitemap.render_video.
  exists (indentStr +:+ "  <video:video>" +:+ Str.nl
          +:+ indentStr +:+ "    <video:thumbnail_loc>"
          +:+ Sitemap.escapeXml self (VideoItem.thumbnail_url video)
          +:+ "</video:thumbnail_loc>" +:+ Str.nl +:+ indentStr +:+ "    ")%string.
  eexists. rewrite !append_assoc. reflexivity.
Qed.

Lemma render_video_description self indentStr video :
  Str.contains (Sitemap.render_video self indentStr video)
    ("<video:description><![CDATA[" +:+ VideoItem.description video
     +:+ "]]></video:description>").
Proof.
  unfold Sitemap.render_video.
  exists (indentStr +:+ "  <video:video>" +:+ Str.nl
          +:+ indentStr +:+ "    <video:thumbnail_loc>"
          +:+ Sitemap.escapeXml self (VideoItem.thumbnail_url video)
          +:+ "</video:thumbnail_loc>" +:+ Str.nl
          +:+ indentStr +:+ "    <video:title><![CDATA[" +:+ VideoItem.title video
          +:+ "]]></video:title>" +:+ Str.nl +:+ indentStr +:+ "    ")%string.
  eexists. rewrite !append_assoc. reflexivity.
Qed.

(** The entry of a record holds the block of each of its videos. *)
Lemma renderSitemapItem_video self item indent l video xml pat :
  videos item = Some l -> video ∈ l ->
  Str.contains (Sitemap.render_video self (Str.repeat "  " indent) video) pat ->
  Sitemap.renderSitemapItem self item indent = Returns xml ->
  Str.contains xml pat.
Proof.
  intros Hl Hin Hpat. unfold Sitemap.renderSitemapItem.
  destruct (Sitemap.render_googlenews _ _ _) as [news |]; cbn; [| discriminate].
  intros [= <-].
  do 2 apply contains_app_l. do 2 apply contains_app_l. apply contains_app_r.
  unfold Sitemap.render_videos. rewrite Hl.
  apply concat_contains with (part := Sitemap.render_video self (Str.repeat "  " indent) video);
    [| assumption].
  now apply list_elem_of_fmap_2.
Qed.

End VideoText.

(** C10: the entry of a record carries the title and the description of
    each of its videos verbatim between [<![CDATA[] and []]>], whatever the
    escaping configuration; so for the video titled [a]]>b] the entry holds
    [<![CDATA[a]]>b]]>], the end mark of the section raw inside it, and not
    what [wrapCDATA] makes of that title. *)
Theorem video_text_verbatim `{JSRuntime} :
  (forall self item indent l video xml,
      videos item = Some l -> video ∈ l ->
      Sitemap.renderSitemapItem self item indent = Returns xml ->
      Str.contains xml
        ("<video:title><![CDATA[" +:+ VideoItem.title video +:+ "]]></video:title>")
      /\ Str.contains xml
           ("<video:description><![CDATA[" +:+ VideoItem.description video
            +:+ "]]></video:description>"))
  /\ (Str.includes "]]>" (VideoItem.title Example.clip) = true
      /\ wrapCDATA (VideoItem.title Example.clip) = "<![CDATA[a]]&gt;b]]>"%string
      /\ forall self indent,
          exists xml,
            Sitemap.renderSitemapItem self Example.with_video indent = Returns xml
            /\ Str.contains xml "<video:title><![CDATA[a]]>b]]></video:title>").
Proof.
  assert (Hall : forall self item indent l video xml,
      videos item = Some l -> video ∈ l ->
      Sitemap.renderSitemapItem self item indent = Returns xml ->
      Str.contains xml
        ("<video:title><![CDATA[" +:+ VideoItem.title video +:+ "]]></video:title>")
      /\ Str.contains xml
           ("<video:description><![CDATA[" +:+ VideoItem.description video
            +:+ "]]></video:description>")).
  { intros self item indent l video xml Hl Hin Hxml.
    split; eapply renderSitemapItem_video; eauto.
    - apply render_video_title.
    - apply render_video_description. }
  split; [exact Hall |].
  split; [reflexivity |]. split; [reflexivity |].
  intros self indent. eexists. split; [reflexivity |].
  eapply (Hall self Example.with_video indent [Example.clip] Example.clip);
    [reflexivity | apply list_elem_of_here | reflexivity].
Qed.

Lemma video_text_verbatim_witness :
  exists xml,
    Sitemap.renderSitemapItem (Sitemap.new SitemapConfig.empty) Example.with_video 0
      = Returns xml
    /\ Str.contains xml "<video:title><![CDATA[a]]>b]]></video:title>".
Proof.
  destruct video_text_verbatim as [Hall _].
  eexists. split; [reflexivity |].
  eapply (Hall (Sitemap.new SitemapConfig.empty) Example.with_video 0
               [Example.clip] Example.clip);
    [reflexivity | apply list_elem_of_here | reflexivity].
Defined.

(** ** Adding records *)

Lemma join_contains (sep : string) (parts : list string) (part : string) :
  part ∈ parts -> Str.contains (Str.join sep parts) part.
Proof.
  intros Hin. induction parts as [|first rest IH]; [now apply not_elem_of_nil in Hin |].
  apply elem_of_cons in Hin as [<- | Hin].
  - destruct rest as [|next rest]; cbn [Str.join]; [apply contains_refl |].
    apply contains_app_l, contains_refl.
  - destruct rest as [|next rest]; [now apply not_elem_of_nil in Hin |].
    cbn [Str.join]. do 2 apply contains_app_r. now apply IH.
Qed.

(** The message of a failed validation names every error. *)
Lemma errorMessages_contains (errors : list ValidationError) (error : ValidationError) :
  error ∈ errors ->
  Str.contains (errorMessages errors) (field error +:+ ": " +:+ message error).
Proof.
  intros Hin. unfold errorMessages. apply join_contains.
  now apply (list_elem_of_fmap_2 (fun error => field error +:+ ": " +:+ message error)).
Qed.

Lemma length_pos_iff {A} (l : list A) : (0 <? length l)%nat = true <-> l <> [].
Proof. destruct l; cbn; split; intros; congruence. Qed.

Section Adding.
Context `{JSRuntime}.

(** C4: with validation enabled, [add] on a record that breaks a rule
    throws [Validation failed: ...], a message that joins the field and
    message of every error found, and leaves the store as it was: same
    records, same count. *)
Theorem add_rejects_invalid (now : Z) (url : string) (lastmod : option DateInput)
    (priority : option float) (changefreq : option string)
    (options : SitemapAddOptions) (self : Sitemap.t) (item : SitemapItem) :
  Config.validate (Model.getConfig (Sitemap.model self)) = true ->
  Sitemap.add_item self url lastmod priority changefreq options = Returns item ->
  DataValidator.validateItem now item <> [] ->
  let errors := DataValidator.validateItem now item in
  let result := Sitemap.add now url lastmod priority changefreq options self in
  result = (self, Throws ("Validation failed: " +:+ errorMessages errors))
  /\ (forall error, error ∈ errors ->
        Str.contains (errorMessages errors) (field error +:+ ": " +:+ message error))
  /\ Sitemap.getItems (fst result) = Sitemap.getItems self
  /\ Sitemap.getItemCount (fst result) = Sitemap.getItemCount self.
Proof.
  intros Hval Hitem Herr errors result.
  assert (Hres : result = (self, Throws ("Validation failed: " +:+ errorMessages errors))).
  { unfold result, Sitemap.add, mbind, eff_bind, gets, lift. cbv beta iota.
    rewrite Hitem, Hval. fold errors.
    now rewrite (proj2 (length_pos_iff errors) Herr). }
  rewrite Hres. repeat split.
  apply errorMessages_contains.
Qed.

(** When the record passes, or validation is off, [add] appends it. *)
Lemma add_accepts (now : Z) url lastmod priority changefreq options self item :
  Sitemap.add_item self url lastmod priority changefreq options = Returns item ->
  Config.validate (Model.getConfig (Sitemap.model self)) = false
  \/ DataValidator.validateItem now item = [] ->
  Sitemap.add now url lastmod priority changefreq options self
  = (Sitemap.mk (Model.addItem item (Sitemap.model self)), Returns tt).
Proof.
  intros Hitem Hok.
  unfold Sitemap.add, mbind, eff_bind, gets, lift. cbn. rewrite Hitem.
  destruct Hok as [-> | ->]; [reflexivity |].
  now destruct (Config.validate _).
Qed.

(** When the date cannot be formatted, [add] throws before it has a
    record, and the store is as it was. *)
Lemma add_throws_unchanged (now : Z) url lastmod priority changefreq options self e :
  Sitemap.add_item self url lastmod priority changefreq options = Throws e ->
  Sitemap.add now url lastmod priority changefreq options self = (self, Throws e).
Proof.
  intros Hitem. unfold Sitemap.add, mbind, eff_bind, gets, lift. cbn.
  now rewrite Hitem.
Qed.

End Adding.

Lemma add_rejects_invalid_witness :
  Sitemap.add Example.now "not a url" None (Some 2%float) None no_options
    (Sitemap.new SitemapConfig.empty)
  = (Sitemap.new SitemapConfig.empty,
     Throws ("Validation failed: loc: URL (loc) is not valid, "
             +:+ "priority: Priority must be a number between 0.0 and 1.0")).
Proof.
  destruct (add_rejects_invalid Example.now "not a url" None (Some 2%float) None no_options
              (Sitemap.new SitemapConfig.empty)
              (mkItem "not a url" None (Some 2%float) None None None None None None None))
    as [Hthrows _]; [reflexivity | reflexivity | vm_compute; discriminate |].
  rewrite Hthrows. reflexivity.
Defined.

Section Batches.
Context `{JSRuntime}.

Lemma addItem_turn_accepts config now item self p :
  Sitemap.processedItem config item = Returns p ->
  Config.validate config = false \/ DataValidator.validateItem now p = [] ->
  Sitemap.addItem_turn config now item self = (extended self [p], Returns tt).
Proof.
  intros Hp Hok. unfold Sitemap.addItem_turn, mbind, eff_bind, lift. cbv beta iota.
  rewrite Hp. destruct Hok as [-> | ->]; [reflexivity |].
  now destruct (Config.validate config).
Qed.

Lemma addItem_turn_rejects config now item self p :
  Sitemap.processedItem config item = Returns p ->
  Config.validate config = true ->
  DataValidator.validateItem now p <> [] ->
  Sitemap.addItem_turn config now item self
  = (self, Throws ("Validation failed for " +:+ loc p +:+ ": "
                   +:+ errorMessages (DataValidator.validateItem now p))).
Proof.
  intros Hp Hval Herr. unfold Sitemap.addItem_turn, mbind, eff_bind, lift.
  cbv beta iota. rewrite Hp, Hval.
  now rewrite (proj2 (length_pos_iff _) Herr).
Qed.

Lemma extended_nil self : extended self [] = self.
Proof. destruct self as [[items sitemaps config]]. unfold extended. cbn. now rewrite app_nil_r. Qed.

Lemma extended_app self a b : extended (extended self a) b = extended self (a ++ b).
Proof. unfold extended. cbn. now rewrite app_assoc. Qed.

(** The loop from turn [start] on: the records before the first invalid
    one are appended, then the loop throws. *)
Lemma addItem_loop config clock pre : forall start stored bad post rejected self,
  Config.validate config = true ->
  length stored = length pre ->
  (forall i item, pre !! i = Some item ->
     exists p, Sitemap.processedItem config item = Returns p
               /\ DataValidator.validateItem (clock (start + i)) p = []
               /\ stored !! i = Some p) ->
  Sitemap.processedItem config bad = Returns rejected ->
  DataValidator.validateItem (clock (start + length pre)) rejected <> [] ->
  for_each (fun index item => Sitemap.addItem_turn config (clock index) item)
           start (pre ++ bad :: post) self
  = (extended self stored,
     Throws ("Validation failed for " +:+ loc rejected +:+ ": "
             +:+ errorMessages
                   (DataValidator.validateItem (clock (start + length pre)) rejected))).
Proof.
  induction pre as [|item pre IH]; intros start stored bad post rejected self
    Hval Hlen Hpre Hbad Herr.
  - destruct stored; [| discriminate]. rewrite extended_nil.
    cbn [app for_each]. unfold mbind, eff_bind.
    rewrite Nat.add_0_r in Herr |- *.
    now rewrite (addItem_turn_rejects _ _ _ _ _ Hbad Hval Herr).
  - destruct stored as [|p stored]; [discriminate |].
    destruct (Hpre 0 item eq_refl) as (p' & Hp & Hok & [= ->]).
    rewrite Nat.add_0_r in Hok.
    cbn [app for_each]. unfold mbind, eff_bind.
    rewrite (addItem_turn_accepts _ _ _ _ _ Hp (or_intror Hok)).
    cbn [length] in Herr |- *. rewrite <- Nat.add_succ_comm in Herr |- *.
    rewrite (IH (S start) stored bad post rejected (extended self [p'])); try assumption.
    + now rewrite extended_app.
    + now injection Hlen.
    + intros i it Hi. destruct (Hpre (S i) it Hi) as (q & Hq & Hvq & Hsq).
      exists q. rewrite <- Nat.add_succ_comm in Hvq. auto.
Qed.

End Batches.

(** C6: with validation enabled, [addItem] takes the records of a batch
    one at a time, in order. When the record at some position is the first
    to break a rule, the call throws [Validation failed for <loc>: ...],
    naming the location of that record and every error found on it; the
    records before it are in the store, in order, after those that were
    there, and neither the failing record nor any later one is. *)
Theorem addItem_stops_at_first_invalid `{JSRuntime} (clock : nat -> Z)
    (input : SitemapItemInput) (self : Sitemap.t)
    (pre post stored : list SitemapItem) (bad rejected : SitemapItem) :
  let config := Model.getConfig (Sitemap.model self) in
  Config.validate config = true ->
  Sitemap.itemsArray input = pre ++ bad :: post ->
  length stored = length pre ->
  (forall i item, pre !! i = Some item ->
     exists p, Sitemap.processedItem config item = Returns p
               /\ DataValidator.validateItem (clock i) p = []
               /\ stored !! i = Some p) ->
  Sitemap.processedItem config bad = Returns rejected ->
  DataValidator.validateItem (clock (length pre)) rejected <> [] ->
  let errors := DataValidator.validateItem (clock (length pre)) rejected in
  let result := Sitemap.addItem clock input self in
  snd result = Throws ("Validation failed for " +:+ loc rejected +:+ ": "
                       +:+ errorMessages errors)
  /\ (forall error, error ∈ errors ->
        Str.contains (errorMessages errors) (field error +:+ ": " +:+ message error))
  /\ Sitemap.getItems (fst result) = Sitemap.getItems self ++ stored
  /\ Sitemap.getItemCount (fst result) = Sitemap.getItemCount self + length pre.
Proof.
  intros config Hval Hbatch Hlen Hpre Hbad Herr errors result.
  assert (Hres : result = (extended self stored,
                           Throws ("Validation failed for " +:+ loc rejected +:+ ": "
                                   +:+ errorMessages errors))).
  { unfold result, Sitemap.addItem, mbind at 1, eff_bind at 1, gets. cbv beta iota.
    rewrite Hbatch.
    apply (addItem_loop config clock pre 0 stored bad post rejected self); assumption. }
  rewrite Hres. cbn [fst snd]. repeat split.
  - apply errorMessages_contains.
  - unfold Sitemap.getItemCount, Model.getItemCount, extended. cbn.
    rewrite length_app. lia.
Qed.

Lemma addItem_stops_at_first_invalid_witness :
  let result :=
    Sitemap.addItem (fun _ => Example.now) (ManyItems Example.batch)
      (Sitemap.new SitemapConfig.empty) in
  snd result = Throws "Validation failed for not a url: loc: URL (loc) is not valid"
  /\ Sitemap.getItems (fst result) = [plain_item "https://example.com/"].
Proof.
  destruct (addItem_stops_at_first_invalid (fun _ => Example.now)
              (ManyItems Example.batch) (Sitemap.new SitemapConfig.empty)
              [plain_item "https://example.com"]
              [plain_item "https://example.com/page?a=1"]
              [plain_item "https://example.com/"]
              (plain_item "not a url") (plain_item "not a url"))
    as (Hthrows & _ & Hitems & _).
  - reflexivity.
  - reflexivity.
  - reflexivity.
  - intros [|i] item Hi; [| discriminate].
    injection Hi as <-. exists (plain_item "https://example.com/").
    repeat split; reflexivity.
  - reflexivity.
  - vm_compute. discriminate.
  - cbv zeta. rewrite Hthrows, Hitems. split; reflexivity.
Defined.

(** ** The limit of an index *)

Section IndexLimit.
Context `{JSRuntime}.

(** [addSitemap] either throws and leaves the index as it was, or returns
    after it appended one entry to an index that was below its limit. *)
Lemma addSitemap_cases loc lastmod (self : SitemapIndex.t) :
  (exists e, SitemapIndex.addSitemap loc lastmod self = (self, Throws e))
  \/ (exists item,
        SitemapIndex.addSitemap loc lastmod self
        = (SitemapIndex.mk (SitemapIndex.items self ++ [item]) (SitemapIndex.config self),
           Returns tt)
        /\ (Z.of_nat (SitemapIndex.getSitemapCount self)
            < IndexConfig.maxSitemaps (SitemapIndex.config self))%Z).
Proof.
  unfold SitemapIndex.addSitemap, mbind, eff_bind, gets, lift, throw, modify,
    mret, eff_ret, SitemapIndex.getSitemapCount.
  cbv beta iota.
  destruct (SitemapIndex.addSitemap_item _ loc lastmod) as [item | e]; [| eauto].
  destruct (IndexConfig.validate _);
    [destruct (0 <? length (SitemapIndex.validateSitemapItem item))%nat; [eauto |] |];
    (destruct (Z.leb_spec (IndexConfig.maxSitemaps (SitemapIndex.config self))
                (Z.of_nat (length (SitemapIndex.items self)))); [eauto |];
     right; exists item; split; [reflexivity | lia]).
Qed.

Lemma addSitemap_preserves loc lastmod self :
  SitemapIndex.within_limit self ->
  SitemapIndex.within_limit (fst (SitemapIndex.addSitemap loc lastmod self))
  /\ SitemapIndex.config (fst (SitemapIndex.addSitemap loc lastmod self))
     = SitemapIndex.config self.
Proof.
  intros Hinv.
  destruct (addSitemap_cases loc lastmod self) as [[e ->] | (item & -> & Hlt)];
    [now split |].
  split; [| reflexivity].
  unfold SitemapIndex.within_limit, SitemapIndex.getSitemapCount in *. cbn.
  rewrite length_app. cbn. lia.
Qed.

Lemma addSitemaps_preserves items : forall start self,
  SitemapIndex.within_limit self ->
  let self' :=
    fst (for_each (fun (_ : nat) item =>
                     SitemapIndex.addSitemap (index_loc item) (index_lastmod item))
           start items self) in
  SitemapIndex.within_limit self'
  /\ SitemapIndex.config self' = SitemapIndex.config self.
Proof.
  induction items as [|item items IH]; intros start self Hinv; [now split |].
  cbn [for_each]. unfold mbind, eff_bind.
  destruct (addSitemap_preserves (index_loc item) (index_lastmod item) self Hinv)
    as [Hinv' Hcfg'].
  destruct (SitemapIndex.addSitemap _ _ self) as [self1 [[] | e]]; cbn [fst] in *;
    [| now split].
  destruct (IH (S start) self1 Hinv') as [Hinv2 Hcfg2].
  split; [assumption | congruence].
Qed.

End IndexLimit.

Section IndexInvariant.
Context `{JSRuntime}.

Lemma run_call_preserves (c : SitemapIndex.call) (self : SitemapIndex.t) :
  (0 <= IndexConfig.maxSitemaps (SitemapIndex.config self))%Z ->
  SitemapIndex.keeps_maxSitemaps c ->
  SitemapIndex.within_limit self ->
  let self' := fst (SitemapIndex.run_call c self) in
  SitemapIndex.within_limit self'
  /\ IndexConfig.maxSitemaps (SitemapIndex.config self')
     = IndexConfig.maxSitemaps (SitemapIndex.config self).
Proof.
  intros Hpos Hkeep Hinv.
  destruct c as [loc lastmod | items | sitemaps | predicate | | config];
    cbn [SitemapIndex.run_call].
  - destruct (addSitemap_preserves loc lastmod self Hinv) as [? Hcfg].
    cbv zeta. now rewrite Hcfg.
  - destruct (addSitemaps_preserves items 0 self Hinv) as [? Hcfg].
    cbv zeta. unfold SitemapIndex.addSitemaps. now rewrite Hcfg.
  - unfold SitemapIndex.resetSitemaps, SitemapIndex.addSitemaps, mbind, eff_bind, modify.
    cbv beta iota zeta.
    destruct (addSitemaps_preserves sitemaps 0
                (SitemapIndex.mk [] (SitemapIndex.config self))) as [? Hcfg].
    { unfold SitemapIndex.within_limit. cbn. lia. }
    now rewrite Hcfg.
  - cbn. split; [| reflexivity].
    unfold SitemapIndex.within_limit, SitemapIndex.getSitemapCount in *. cbn.
    pose proof (length_filter (fun item => negb (predicate item) = true)
                  (SitemapIndex.items self)).
    lia.
  - cbn. split; [| reflexivity]. unfold SitemapIndex.within_limit. cbn. lia.
  - cbn in Hkeep |- *. rewrite Hkeep. cbn. split; [| reflexivity].
    unfold SitemapIndex.within_limit in *. cbn. now rewrite Hkeep.
Qed.

Lemma run_calls_preserve (calls : list SitemapIndex.call) : forall self,
  (0 <= IndexConfig.maxSitemaps (SitemapIndex.config self))%Z ->
  Forall SitemapIndex.keeps_maxSitemaps calls ->
  SitemapIndex.within_limit self ->
  SitemapIndex.within_limit (SitemapIndex.run_calls calls self)
  /\ IndexConfig.maxSitemaps (SitemapIndex.config (SitemapIndex.run_calls calls self))
     = IndexConfig.maxSitemaps (SitemapIndex.config self).
Proof.
  induction calls as [|c calls IH]; intros self Hpos Hkeep Hinv; [now split |].
  apply Forall_cons in Hkeep as [Hc Hcalls].
  destruct (run_call_preserves c self Hpos Hc Hinv) as [Hinv' Hmax'].
  unfold SitemapIndex.run_calls. cbn [foldl].
  destruct (IH (fst (SitemapIndex.run_call c self))) as [Hinv2 Hmax2];
    [now rewrite Hmax' | assumption | assumption |].
  unfold SitemapIndex.run_calls in *. split; [assumption | congruence].
Qed.

(** [addSitemap] turns the last modification into a string first; this
    fails on an invalid [Date] object, and on nothing else. *)
Lemma addSitemap_item_outcome config loc lastmod :
  (lastmod = Some (DObj InvalidDate)
   /\ SitemapIndex.addSitemap_item config loc lastmod = Throws "Invalid Date object")
  \/ (lastmod <> Some (DObj InvalidDate)
      /\ exists item, SitemapIndex.addSitemap_item config loc lastmod = Returns item).
Proof.
  unfold SitemapIndex.addSitemap_item.
  destruct lastmod as [[s | [ms |]] |]; cbn [mbind outcome_bind mret outcome_ret formatDate];
    [right | right | left | right]; try (split; [discriminate | eauto]).
  split; reflexivity.
Qed.

(** C9 (as amended): an index built with a non-negative [maxSitemaps]
    never holds more entries than that limit after any sequence of
    [addSitemap], [addSitemaps], [resetSitemaps], [removeSitemaps],
    [clear] and [setConfig] calls that leave [maxSitemaps] alone, errors
    caught or not. Once the count has reached the limit [addSitemap]
    throws before it appends, but not always the limit error, because the
    limit is checked last: an invalid [Date] object as last modification
    gives [Invalid Date object]; otherwise, with validation on, an entry
    with errors gives the validation error; otherwise the limit error. An
    [addSitemap] that throws leaves the entries as they were. *)
Theorem index_within_limit (config : SitemapIndexConfig.t)
    (calls : list SitemapIndex.call) :
  (0 <= IndexConfig.maxSitemaps (SitemapIndex.config (SitemapIndex.new config)))%Z ->
  Forall SitemapIndex.keeps_maxSitemaps calls ->
  let self := SitemapIndex.run_calls calls (SitemapIndex.new config) in
  SitemapIndex.within_limit self
  /\ IndexConfig.maxSitemaps (SitemapIndex.config self)
     = IndexConfig.maxSitemaps (SitemapIndex.config (SitemapIndex.new config))
  /\ (forall loc lastmod,
        (IndexConfig.maxSitemaps (SitemapIndex.config self)
         <= Z.of_nat (SitemapIndex.getSitemapCount self))%Z ->
        exists e,
          SitemapIndex.addSitemap loc lastmod self = (self, Throws e)
          /\ (lastmod = Some (DObj InvalidDate) -> e = "Invalid Date object"%string)
          /\ (lastmod <> Some (DObj InvalidDate) ->
              exists item,
                SitemapIndex.addSitemap_item (SitemapIndex.config self) loc lastmod
                = Returns item
                /\ (IndexConfig.validate (SitemapIndex.config self) = true ->
                    SitemapIndex.validateSitemapItem item <> [] ->
                    e = ("Validation failed: "
                         +:+ errorMessages (SitemapIndex.validateSitemapItem item))%string)
                /\ (IndexConfig.validate (SitemapIndex.config self) = false
                    \/ SitemapIndex.validateSitemapItem item = [] ->
                    e = SitemapIndex.limit_message (SitemapIndex.config self))))
  /\ (forall loc lastmod self' e,
        SitemapIndex.addSitemap loc lastmod self = (self', Throws e) -> self' = self).
Proof.
  intros Hpos Hkeep self.
  destruct (run_calls_preserve calls (SitemapIndex.new config) Hpos Hkeep) as [Hinv Hmax].
  { unfold SitemapIndex.within_limit. cbn in *. lia. }
  split; [exact Hinv |]. split; [exact Hmax |]. split.
  - intros loc lastmod Hfull.
    apply Z.leb_le in Hfull. unfold SitemapIndex.getSitemapCount in Hfull.
    unfold SitemapIndex.addSitemap, mbind, eff_bind, gets, lift. cbv beta iota.
    destruct (addSitemap_item_outcome (SitemapIndex.config self) loc lastmod)
      as [[Hdate Hthrows] | [Hdate (item & Hitem)]].
    + rewrite Hthrows. eexists. split; [reflexivity |]. split; [reflexivity |].
      intros Hne. contradiction.
    + rewrite Hitem.
      destruct (IndexConfig.validate (SitemapIndex.config self)) eqn:Hval.
      * destruct (SitemapIndex.validateSitemapItem item) as [|error errors] eqn:Herr.
        -- change (0 <? length (@nil ValidationError))%nat with false.
           unfold mret, eff_ret, throw. cbv beta iota. rewrite Hfull.
           eexists. split; [reflexivity |]. split; [intros Heq; contradiction |].
           intros _. exists item. split; [reflexivity |]. rewrite Herr.
           split; [intros _ Hne; contradiction | reflexivity].
        -- change (0 <? length (error :: errors))%nat with true.
           unfold throw. cbv beta iota.
           eexists. split; [reflexivity |]. split; [intros Heq; contradiction |].
           intros _. exists item. split; [reflexivity |]. rewrite Herr.
           split; [reflexivity |]. intros [Hoff | Hnil]; discriminate.
      * unfold mret, eff_ret, throw. cbv beta iota. rewrite Hfull.
        eexists. split; [reflexivity |]. split; [intros Heq; contradiction |].
        intros _. exists item. split; [reflexivity |].
        split; [discriminate | reflexivity].
  - intros loc lastmod self' e Hthrow.
    destruct (addSitemap_cases loc lastmod self) as [[e' He] | (item & Hret & _)];
      congruence.
Qed.

End IndexInvariant.

(** C9 as stated does not ask for a non-negative limit: an index built
    with [maxSitemaps: -1] holds zero entries, more than its limit, from
    the start and after a [clear]. *)
Lemma index_negative_limit :
  let self := SitemapIndex.run_calls [SitemapIndex.call_clear]
                (SitemapIndex.new Example.negative_limit) in
  Forall SitemapIndex.keeps_maxSitemaps [SitemapIndex.call_clear]
  /\ IndexConfig.maxSitemaps (SitemapIndex.config self) = (-1)%Z
  /\ SitemapIndex.getSitemapCount self = 0
  /\ ~ SitemapIndex.within_limit self.
Proof.
  cbv zeta. split; [repeat constructor |]. split; [reflexivity |].
  split; [reflexivity |]. unfold SitemapIndex.within_limit. cbn. lia.
Qed.

Lemma index_within_limit_witness :
  let self :=
    SitemapIndex.run_calls
      [SitemapIndex.call_addSitemap "https://example.com/" None;
       SitemapIndex.call_addSitemap "https://example.com/page?a=1" None]
      (SitemapIndex.new Example.single) in
  SitemapIndex.getSitemapCount self = 1
  /\ SitemapIndex.within_limit self
  /\ SitemapIndex.addSitemap "https://example.com/page?a=1" None self
     = (self, Throws "Maximum number of sitemaps (1) exceeded").
Proof.
  destruct (index_within_limit Example.single
              [SitemapIndex.call_addSitemap "https://example.com/" None;
               SitemapIndex.call_addSitemap "https://example.com/page?a=1" None])
    as (Hinv & _ & Hfull & _).
  - cbn. lia.
  - repeat constructor.
  - cbv zeta. split; [reflexivity |]. split; [exact Hinv |].
    destruct (Hfull "https://example.com/page?a=1" None)
      as (e & Hthrow & _ & Hbuilt); [vm_compute; discriminate |].
    destruct (Hbuilt ltac:(discriminate)) as (item & Hitem & _ & Hlimit).
    injection Hitem as <-.
    rewrite Hthrow, (Hlimit (or_intror eq_refl)). reflexivity.
Defined.

(** The limit is checked last: on a full index an entry with an invalid
    location is refused with the validation error, and one with an invalid
    [Date] object with the error of the date. *)
Example index_full_other_errors :
  let self :=
    SitemapIndex.run_calls [SitemapIndex.call_addSitemap "https://example.com/" None]
      (SitemapIndex.new Example.single) in
  SitemapIndex.shouldSplit self = true
  /\ SitemapIndex.addSitemap "not a url" None self
     = (self, Throws "Validation failed: loc: Invalid URL format")
  /\ SitemapIndex.addSitemap "https://example.com/page?a=1" (Some (DObj InvalidDate)) self
     = (self, Throws "Invalid Date object").
Proof. vm_compute. repeat split. Qed.

(** ** Reading the records *)

Section Copies.
Context `{JSRuntime}.

Lemma getItems_elements self h :
  let (a, h1) := Heap.Model_getItems self h in
  Heap.elements a h1 = Heap.elements (Heap.items self) h
  /\ Heap.objects h1 = Heap.objects h
  /\ (is_Some (Heap.arrays h !! Heap.items self) -> a <> Heap.items self)
  /\ (forall b, b <> a -> Heap.arrays h1 !! b = Heap.arrays h !! b).
Proof.
  unfold Heap.Model_getItems, Heap.new_array.
  set (a := fresh (dom (Heap.arrays h))).
  assert (Hfresh : Heap.arrays h !! a = None) by apply not_elem_of_dom, is_fresh.
  repeat split.
  - unfold Heap.elements at 1. cbn. now rewrite lookup_insert_eq.
  - intros [l Hl] ->. congruence.
  - intros b Hb. cbn. now rewrite lookup_insert_ne.
Qed.

(** Reading records through references that a change of the object map
    leaves alone. *)
Lemma omap_lookup_ext (objs objs' : gmap nat SitemapItem) (l : list nat) :
  (forall r, r ∈ l -> objs' !! r = objs !! r) ->
  omap (fun r => objs' !! r) l = omap (fun r => objs !! r) l.
Proof.
  induction l as [|r l IH]; intros Hsame; [reflexivity |].
  cbn. rewrite (Hsame r) by apply list_elem_of_here.
  rewrite IH; [reflexivity |].
  intros r' Hr'. apply Hsame. now apply list_elem_of_further.
Qed.

(** One mutation outside the model keeps its array, its records and its
    well-formedness. *)
Lemma mutation_frame self h a mu :
  a <> Heap.items self ->
  Heap.well_formed self h ->
  Heap.mutates_copy a self h mu ->
  Heap.arrays (Heap.apply mu h) !! Heap.items self = Heap.arrays h !! Heap.items self
  /\ Heap.snapshot self (Heap.apply mu h) = Heap.snapshot self h
  /\ Heap.well_formed self (Heap.apply mu h).
Proof.
  intros Hne [Harr Hobjs] Hmu.
  assert (Hsame : forall r, r ∈ Heap.elements (Heap.items self) h ->
                    Heap.objects (Heap.apply mu h) !! r = Heap.objects h !! r).
  { intros r Hr. destruct mu as [a' f | r' f | item];
      cbn [Heap.apply Heap.objects Heap.mutates_copy Heap.new_object snd] in *.
    - reflexivity.
    - apply lookup_alter_ne. intros ->. contradiction.
    - apply lookup_insert_ne. intros <-.
      destruct (Hobjs _ Hr) as [x Hx].
      pose proof (is_fresh (dom (Heap.objects h))) as Hfresh.
      apply not_elem_of_dom in Hfresh. congruence. }
  assert (Harrs : Heap.arrays (Heap.apply mu h) !! Heap.items self
                  = Heap.arrays h !! Heap.items self).
  { destruct mu as [a' f | r' f | item];
      cbn [Heap.apply Heap.arrays Heap.mutates_copy Heap.new_object snd] in *;
      [| reflexivity | reflexivity].
    subst a'. now apply lookup_alter_ne. }
  assert (Hels : Heap.elements (Heap.items self) (Heap.apply mu h)
                 = Heap.elements (Heap.items self) h).
  { unfold Heap.elements. now rewrite Harrs. }
  split; [exact Harrs |]. split.
  - unfold Heap.snapshot, Heap.records. rewrite Hels.
    now rewrite (omap_lookup_ext _ _ _ Hsame).
  - split; [now rewrite Harrs |].
    intros r Hr. rewrite Hels in Hr. rewrite (Hsame r Hr). now apply Hobjs.
Qed.

Lemma mutations_frame self a mus : forall h0 h,
  a <> Heap.items self ->
  Heap.well_formed self h ->
  Heap.elements (Heap.items self) h = Heap.elements (Heap.items self) h0 ->
  Forall (Heap.mutates_copy a self h0) mus ->
  Heap.arrays (Heap.run mus h) !! Heap.items self = Heap.arrays h !! Heap.items self
  /\ Heap.snapshot self (Heap.run mus h) = Heap.snapshot self h.
Proof.
  induction mus as [|mu mus IH]; intros h0 h Hne Hwf Hels Hmus; [now split |].
  apply Forall_cons in Hmus as [Hmu Hmus].
  assert (Hmu' : Heap.mutates_copy a self h mu).
  { destruct mu; cbn in *; [assumption | now rewrite Hels | exact I]. }
  destruct (mutation_frame self h a mu Hne Hwf Hmu') as (Harr & Hsnap & Hwf').
  unfold Heap.run. cbn [foldl]. fold (Heap.run mus (Heap.apply mu h)).
  destruct (IH h0 (Heap.apply mu h)) as [Harr2 Hsnap2]; try assumption.
  { unfold Heap.elements. now rewrite Harr. }
  split; congruence.
Qed.

(** C1 (as amended): the array [getItems] returns is a new one. Whatever
    a caller then does to that array (push, pop, an assignment to an index
    or to the length), to records of its own making and to records the
    store does not hold, the store holds the same records afterwards: a
    later [getItems] returns an array of the same records, the count is the
    same and so is every render. *)
Theorem getItems_returns_copy (self : Heap.model) (h : Heap.t)
    (mus : list Heap.mutation) :
  Heap.well_formed self h ->
  let (a, h1) := Heap.Sitemap_getItems self h in
  Forall (Heap.mutates_copy a self h) mus ->
  let h2 := Heap.run mus h1 in
  Heap.snapshot self h2 = Heap.snapshot self h
  /\ (let (a', h3) := Heap.Sitemap_getItems self h2 in
      Heap.records a' h3 = Heap.records (Heap.items self) h)
  /\ Heap.Model_getItemCount self h2 = Heap.Model_getItemCount self h
  /\ (forall options,
        Sitemap.toXML options (Sitemap.mk (Heap.snapshot self h2))
        = Sitemap.toXML options (Sitemap.mk (Heap.snapshot self h))).
Proof.
  intros Hwf. unfold Heap.Sitemap_getItems.
  pose proof (getItems_elements self h) as Hget.
  destruct (Heap.Model_getItems self h) as [a h1].
  destruct Hget as (Hel & Hobj & Hne & Hother).
  specialize (Hne (proj1 Hwf)). cbv beta iota zeta.
  intros Hmus. set (h2 := Heap.run mus h1).
  assert (Harr1 : Heap.arrays h1 !! Heap.items self = Heap.arrays h !! Heap.items self)
    by (apply Hother; congruence).
  assert (Hels1 : Heap.elements (Heap.items self) h1 = Heap.elements (Heap.items self) h)
    by (unfold Heap.elements; now rewrite Harr1).
  assert (Hsnap1 : Heap.snapshot self h1 = Heap.snapshot self h).
  { unfold Heap.snapshot, Heap.records. now rewrite Hels1, Hobj. }
  assert (Hwf1 : Heap.well_formed self h1).
  { destruct Hwf as [Harr Hobjs]. split; [now rewrite Harr1 |].
    intros r Hr. rewrite Hels1 in Hr. rewrite Hobj. now apply Hobjs. }
  destruct (mutations_frame self a mus h h1 Hne Hwf1 Hels1 Hmus) as [Harr2 Hsnap2].
  fold h2 in Harr2, Hsnap2.
  assert (Hsnap : Heap.snapshot self h2 = Heap.snapshot self h) by congruence.
  split; [exact Hsnap |]. split; [| split].
  - pose proof (getItems_elements self h2) as Hget2.
    destruct (Heap.Model_getItems self h2) as [a' h3].
    destruct Hget2 as (Hel2 & Hobj2 & _ & _).
    unfold Heap.records. rewrite Hel2, Hobj2.
    change (Model.items (Heap.snapshot self h2) = Model.items (Heap.snapshot self h)).
    now rewrite Hsnap.
  - unfold Heap.Model_getItemCount, Heap.elements. now rewrite Harr2, Harr1.
  - intros options. now rewrite Hsnap.
Qed.

End Copies.

(** C1 as stated also covers writes to the records of the returned array.
    The copy is shallow: the new array holds the records of the store
    themselves, and a write to one of them through the copy shows in the
    store. *)
Lemma getItems_shares_records :
  Heap.well_formed Example.store Example.heap
  /\ Heap.mutates_collection Example.copy Example.heap_after_read Example.tamper
  /\ Model.getItems (Heap.snapshot Example.store Example.heap)
     = [plain_item "https://example.com/"]
  /\ Model.getItems
       (Heap.snapshot Example.store (Heap.apply Example.tamper Example.heap_after_read))
     = [plain_item "https://example.com/moved"]
  /\ Heap.snapshot Example.store (Heap.apply Example.tamper Example.heap_after_read)
     <> Heap.snapshot Example.store Example.heap.
Proof.
  assert (Hels : Heap.elements (Heap.items Example.store) Example.heap = [0])
    by (vm_compute; reflexivity).
  assert (Hbefore : Model.getItems (Heap.snapshot Example.store Example.heap)
                    = [plain_item "https://example.com/"]) by (vm_compute; reflexivity).
  assert (Hafter : Model.getItems
                     (Heap.snapshot Example.store
                        (Heap.apply Example.tamper Example.heap_after_read))
                   = [plain_item "https://example.com/moved"]) by (vm_compute; reflexivity).
  split; [| split; [| split; [exact Hbefore | split; [exact Hafter |]]]].
  - split; [vm_compute; eauto |].
    intros r Hr. rewrite Hels in Hr. apply list_elem_of_singleton in Hr as ->.
    vm_compute. eauto.
  - unfold Heap.mutates_collection, Example.tamper.
    replace (Heap.elements Example.copy Example.heap_after_read) with [0]
      by (vm_compute; reflexivity).
    cbn. apply list_elem_of_here.
  - intros Heq. rewrite Heq, Hbefore in Hafter. discriminate.
Qed.

Lemma getItems_returns_copy_witness :
  Heap.elements Example.copy (Heap.run Example.push_new Example.heap_after_read)
  = [0; 1]
  /\ Heap.snapshot Example.store (Heap.run Example.push_new Example.heap_after_read)
     = Heap.snapshot Example.store Example.heap
  /\ Heap.Model_getItemCount Example.store
       (Heap.run Example.push_new Example.heap_after_read) = 1.
Proof.
  pose proof (getItems_returns_copy Example.store Example.heap Example.push_new) as Hcopy.
  assert (Hget : Heap.Sitemap_getItems Example.store Example.heap
                 = (Example.copy, Example.heap_after_read)).
  { unfold Example.copy, Example.heap_after_read.
    now destruct (Heap.Sitemap_getItems _ _). }
  rewrite Hget in Hcopy.
  destruct Hcopy as (Hsnap & _ & Hcount & _).
  - split; [vm_compute; eauto |].
    intros r Hr.
    replace (Heap.elements (Heap.items Example.store) Example.heap) with [0] in Hr
      by (vm_compute; reflexivity).
    apply list_elem_of_singleton in Hr as ->. vm_compute. eauto.
  - repeat constructor.
  - split; [vm_compute; reflexivity |].
    split; [exact Hsnap |].
    rewrite Hcount. vm_compute. reflexivity.
Defined.

(** ** Normalizing a URL *)

Section Normalize.
Context `{JSRuntime}.

Lemma normalize_object_idempotent (urlObj : URL) :
  normalize_object (normalize_object urlObj) = normalize_object urlObj.
Proof.
  destruct urlObj as [pr us pw ho po pa qu fr].
  unfold normalize_object, URL_clear_hash, URL_set_pathname_root. cbn.
  destruct (String.eqb pa "") eqn:Hempty, (String.eqb pa "/") eqn:Hroot; cbn;
    rewrite ?Hempty, ?Hroot; reflexivity.
Qed.

Lemma normalize_object_fields (urlObj : URL) :
  fragment (normalize_object urlObj) = None
  /\ pathname (normalize_object urlObj)
     = (if String.eqb (pathname urlObj) "" then "/"%string else pathname urlObj)
  /\ query (normalize_object urlObj) = query urlObj
  /\ protocol (normalize_object urlObj) = protocol urlObj
  /\ username (normalize_object urlObj) = username urlObj
  /\ password (normalize_object urlObj) = password urlObj
  /\ hostname (normalize_object urlObj) = hostname urlObj
  /\ port (normalize_object urlObj) = port urlObj.
Proof.
  destruct urlObj as [pr us pw ho po pa qu fr].
  unfold normalize_object, URL_clear_hash, URL_set_pathname_root. cbn.
  destruct (String.eqb pa "") eqn:Hempty; cbn; [repeat split |].
  destruct (String.eqb_spec pa "/") as [-> | Hroot]; cbn; repeat split.
Qed.

(** What [isValidUrl] has checked when it answers [true]. *)
Lemma isValidUrl_true (url : string) :
  isValidUrl url = true ->
  exists urlObj,
    URL_parse url = Some urlObj
    /\ String.eqb (protocol urlObj) "http:" || String.eqb (protocol urlObj) "https:" = true
    /\ String.eqb (hostname urlObj) "" = false
    /\ String.length url <= 2048
    /\ url <> ""%string.
Proof.
  unfold isValidUrl.
  destruct (String.eqb_spec url "") as [-> | Hne]; [discriminate |].
  destruct (URL_parse url) as [urlObj |]; [| discriminate].
  destruct (String.eqb (protocol urlObj) "http:" || String.eqb (protocol urlObj) "https:")
    eqn:Hweb; [| discriminate].
  destruct (String.eqb (hostname urlObj) "") eqn:Hhost; [discriminate |].
  cbn [negb]. destruct (Nat.ltb_spec 2048 (String.length url)); [discriminate |].
  intros _. exists urlObj. repeat split; assumption.
Qed.

(** C8: on a platform whose URL class reads back what it printed,
    [normalizeUrl] is idempotent on every string. It returns an invalid
    input unchanged; on a valid one it prints the parsed URL without its
    fragment, with the root path for an empty path and the path and the
    query as they were. *)
Theorem normalizeUrl_idempotent (url : string) :
  URL_round_trip ->
  normalizeUrl (normalizeUrl url) = normalizeUrl url
  /\ (isValidUrl url = false -> normalizeUrl url = url)
  /\ (isValidUrl url = true ->
      exists urlObj,
        URL_parse url = Some urlObj
        /\ normalizeUrl url = URL_href (normalize_object urlObj)
        /\ fragment (normalize_object urlObj) = None
        /\ pathname (normalize_object urlObj)
           = (if String.eqb (pathname urlObj) "" then "/"%string else pathname urlObj)
        /\ query (normalize_object urlObj) = query urlObj).
Proof.
  intros Hround. split; [| split].
  - unfold normalizeUrl at 2 3.
    destruct (isValidUrl url) eqn:Hvalid; cbn [negb].
    + destruct (isValidUrl_true url Hvalid) as (urlObj & Hparse & Hweb & Hhost & _).
      rewrite Hparse. unfold normalizeUrl.
      destruct (isValidUrl (URL_href (normalize_object urlObj))); cbn [negb];
        [| reflexivity].
      rewrite (Hround url urlObj Hparse Hweb Hhost).
      now rewrite normalize_object_idempotent.
    + unfold normalizeUrl. now rewrite Hvalid.
  - intros Hinvalid. unfold normalizeUrl. now rewrite Hinvalid.
  - intros Hvalid.
    destruct (isValidUrl_true url Hvalid) as (urlObj & Hparse & _).
    exists urlObj. split; [assumption |].
    split; [unfold normalizeUrl; now rewrite Hvalid, Hparse |].
    pose proof (normalize_object_fields urlObj) as (Hf & Hp & Hq & _).
    auto.
Qed.

End Normalize.

(** The runtime of the examples reads back what it prints. *)
Lemma example_round_trip : @URL_round_trip Example.runtime.
Proof.
  intros url urlObj Hparse _ _. cbn in *. unfold Example.parse in Hparse.
  repeat match type of Hparse with
         | (if ?c then _ else _) = _ => destruct c
         end;
    try discriminate; injection Hparse as <-; reflexivity.
Qed.

Lemma normalizeUrl_idempotent_witness :
  normalizeUrl "https://example.com/page?a=1#top" = "https://example.com/page?a=1"%string
  /\ normalizeUrl (normalizeUrl "https://example.com/page?a=1#top")
     = normalizeUrl "https://example.com/page?a=1#top"
  /\ normalizeUrl "not a url" = "not a url"%string.
Proof.
  destruct (normalizeUrl_idempotent "https://example.com/page?a=1#top" example_round_trip)
    as (Hidem & _ & Hvalid).
  destruct (normalizeUrl_idempotent "not a url" example_round_trip)
    as (_ & Hinvalid & _).
  destruct (Hvalid eq_refl) as (urlObj & Hparse & Hnorm & _).
  injection Hparse as <-.
  split; [rewrite Hnorm; reflexivity |].
  split; [exact Hidem | exact (Hinvalid eq_refl)].
Defined.

(** * More of the code *)

(** ** What a sitemap holds *)

(** A loop keeps what each of its turns keeps. *)
Lemma for_each_preserves {St A} (P : St -> Prop) (body : nat -> A -> Eff St unit)
    (xs : list A) : forall index s,
  (forall i x s, P s -> P (fst (body i x s))) ->
  P s -> P (fst (for_each body index xs s)).
Proof.
  induction xs as [|x xs IH]; intros index s Hbody Hs; [exact Hs |].
  cbn [for_each]. unfold mbind, eff_bind.
  pose proof (Hbody index x s Hs) as Hstep.
  destruct (body index x s) as [s' [[] | e]]; cbn [fst] in *; [| exact Hstep].
  now apply IH.
Qed.

Section Holdings.
Context `{JSRuntime}.

(** [add] leaves the store as it was, or appends the record it built and,
    when validation is on, found without error. *)
Lemma add_cases now url lastmod priority changefreq options (self : Sitemap.t) :
  fst (Sitemap.add now url lastmod priority changefreq options self) = self
  \/ exists item,
       Sitemap.add_item self url lastmod priority changefreq options = Returns item
       /\ (Config.validate (Model.getConfig (Sitemap.model self)) = false
           \/ DataValidator.validateItem now item = [])
       /\ fst (Sitemap.add now url lastmod priority changefreq options self)
          = extended self [item].
Proof.
  destruct (Sitemap.add_item self url lastmod priority changefreq options)
    as [item | e] eqn:Hitem.
  - destruct (Config.validate (Model.getConfig (Sitemap.model self))) eqn:Hval.
    + destruct (DataValidator.validateItem now item) as [|error errors] eqn:Herr.
      * right. exists item. split; [reflexivity |]. split; [now right |].
        now rewrite (add_accepts now _ _ _ _ _ _ item Hitem (or_intror Herr)).
      * left. unfold Sitemap.add, mbind, eff_bind, gets, lift. cbv beta iota.
        now rewrite Hitem, Hval, Herr.
    + right. exists item. split; [reflexivity |]. split; [now left |].
      now rewrite (add_accepts now _ _ _ _ _ _ item Hitem (or_introl Hval)).
  - left. now rewrite (add_throws_unchanged now _ _ _ _ _ _ e Hitem).
Qed.

Lemma addItem_turn_cases config now item (self : Sitemap.t) :
  fst (Sitemap.addItem_turn config now item self) = self
  \/ exists p,
       Sitemap.processedItem config item = Returns p
       /\ (Config.validate config = false \/ DataValidator.validateItem now p = [])
       /\ fst (Sitemap.addItem_turn config now item self) = extended self [p].
Proof.
  destruct (Sitemap.processedItem config item) as [p | e] eqn:Hp.
  - destruct (Config.validate config) eqn:Hval.
    + destruct (DataValidator.validateItem now p) as [|error errors] eqn:Herr.
      * right. exists p. split; [reflexivity |]. split; [now right |].
        now rewrite (addItem_turn_accepts _ _ _ _ _ Hp (or_intror Herr)).
      * left. rewrite (addItem_turn_rejects _ _ _ _ _ Hp Hval); [reflexivity |].
        now rewrite Herr.
    + right. exists p. split; [reflexivity |]. split; [now left |].
      now rewrite (addItem_turn_accepts _ _ _ _ _ Hp (or_introl Hval)).
  - left. unfold Sitemap.addItem_turn, mbind, eff_bind, lift. cbv beta iota.
    now rewrite Hp.
Qed.

(** [removeItems] keeps, in order, the records the predicate rejects. *)
Lemma removeItems_filter predicate (self : Sitemap.t) :
  Sitemap.removeItems predicate self
  = Sitemap.mk (Model.mk (filter (fun item => negb (predicate item) = true)
                            (Model.items (Sitemap.model self)))
                  (Model.sitemaps (Sitemap.model self))
                  (Model.config (Sitemap.model self))).
Proof.
  unfold Sitemap.removeItems, Model.getItems.
  pose proof (addItem_foldl (filter (fun item => negb (predicate item) = true)
                               (Model.items (Sitemap.model self)))
                (Model.clear (Sitemap.model self))) as [Hitems Hconfig].
  destruct (foldl _ _ _) as [items sitemaps config] eqn:Hfold.
  cbn in Hitems, Hconfig. subst items config. f_equal. f_equal.
  assert (Hsitemaps : forall l (m : Model.t),
             Model.sitemaps (foldl (fun m item => Model.addItem item m) m l)
             = Model.sitemaps m).
  { induction l as [|x l IH]; intros m; [reflexivity |]. cbn [foldl]. now rewrite IH. }
  specialize (Hsitemaps (filter (fun item => negb (predicate item) = true)
                           (Model.items (Sitemap.model self)))
                (Model.clear (Sitemap.model self))).
  rewrite Hfold in Hsitemaps. exact Hsitemaps.
Qed.

(** What every call keeps: the configuration, and any property of records
    that the records built by [add] and by [addItem] have. *)
Lemma run_call_keeps (P : SitemapItem -> Prop) (c : Sitemap.call) (self : Sitemap.t) :
  (forall self' now url lastmod priority changefreq options item,
      Model.config (Sitemap.model self') = Model.config (Sitemap.model self) ->
      Sitemap.add_item self' url lastmod priority changefreq options = Returns item ->
      Config.validate (Model.getConfig (Sitemap.model self')) = false
      \/ DataValidator.validateItem now item = [] ->
      P item) ->
  (forall now item p,
      Sitemap.processedItem (Model.config (Sitemap.model self)) item = Returns p ->
      Config.validate (Model.config (Sitemap.model self)) = false
      \/ DataValidator.validateItem now p = [] ->
      P p) ->
  Forall P (Sitemap.getItems self) ->
  Forall P (Sitemap.getItems (fst (Sitemap.run_call c self)))
  /\ Model.config (Sitemap.model (fst (Sitemap.run_call c self)))
     = Model.config (Sitemap.model self).
Proof.
  intros Hadd Hturn Hall.
  destruct c as [now url lastmod priority changefreq options | clock input | | predicate];
    cbn [Sitemap.run_call].
  - destruct (add_cases now url lastmod priority changefreq options self)
      as [-> | (item & Hitem & Hok & ->)]; [now split |].
    split; [| reflexivity].
    unfold Sitemap.getItems, Model.getItems, extended in *. cbn.
    apply Forall_app. split; [assumption |].
    constructor; [| constructor]. now apply (Hadd self now url lastmod priority changefreq options).
  - unfold Sitemap.addItem, mbind at 1, eff_bind at 1, gets. cbv beta iota.
    apply (for_each_preserves
             (fun s => Forall P (Sitemap.getItems s)
                       /\ Model.config (Sitemap.model s) = Model.config (Sitemap.model self)));
      [| now split].
    intros i x s [Hs Hcfg].
    destruct (addItem_turn_cases (Model.getConfig (Sitemap.model self)) (clock i) x s)
      as [-> | (p & Hp & Hok & ->)]; [now split |].
    split; [| exact Hcfg].
    unfold Sitemap.getItems, Model.getItems, extended in *. cbn.
    apply Forall_app. split; [assumption |].
    constructor; [| constructor]. now apply (Hturn (clock i) x p).
  - cbn. split; [constructor | reflexivity].
  - cbn [modify fst]. rewrite removeItems_filter. cbn. split; [| reflexivity].
    unfold Sitemap.getItems, Model.getItems in Hall.
    apply Forall_forall. intros item Hin. apply list_elem_of_filter in Hin as [_ Hin].
    rewrite Forall_forall in Hall. now apply Hall.
Qed.

End Holdings.

Section Kept.
Context `{JSRuntime}.

Lemma run_calls_keep (P : SitemapItem -> Prop) (calls : list Sitemap.call) :
  forall self : Sitemap.t,
  (forall self' now url lastmod priority changefreq options item,
      Model.config (Sitemap.model self') = Model.config (Sitemap.model self) ->
      Sitemap.add_item self' url lastmod priority changefreq options = Returns item ->
      Config.validate (Model.getConfig (Sitemap.model self')) = false
      \/ DataValidator.validateItem now item = [] ->
      P item) ->
  (forall now item p,
      Sitemap.processedItem (Model.config (Sitemap.model self)) item = Returns p ->
      Config.validate (Model.config (Sitemap.model self)) = false
      \/ DataValidator.validateItem now p = [] ->
      P p) ->
  Forall P (Sitemap.getItems self) ->
  Forall P (Sitemap.getItems (Sitemap.run_calls calls self))
  /\ Model.config (Sitemap.model (Sitemap.run_calls calls self))
     = Model.config (Sitemap.model self).
Proof.
  induction calls as [|c calls IH]; intros self Hadd Hturn Hall; [now split |].
  destruct (run_call_keeps P c self Hadd Hturn Hall) as [Hall1 Hcfg1].
  unfold Sitemap.run_calls. cbn [foldl].
  fold (Sitemap.run_calls calls (fst (Sitemap.run_call c self))).
  destruct (IH (fst (Sitemap.run_call c self))) as [Hall2 Hcfg2].
  - intros self' now url lastmod priority changefreq options item Hcfg.
    apply Hadd. congruence.
  - rewrite Hcfg1. exact Hturn.
  - exact Hall1.
  - split; [exact Hall2 | congruence].
Qed.



(** A record without error has a valid location and a news date that can
    be printed. *)
Lemma validateItem_nil now item :
  DataValidator.validateItem now item = [] ->
  isValidUrl (loc item) = true /\ news_date_ok item = true.
Proof.
  unfold DataValidator.validateItem. intros Hnil.
  apply app_eq_nil in Hnil as [Hloc Hnil].
  repeat (apply app_eq_nil in Hnil as [_ Hnil]).
  split.
  - destruct (String.eqb (loc item) ""); [discriminate |].
    unfold DataValidator.isValidUrl in Hloc.
    destruct (isValidUrl (loc item)); [reflexivity | discriminate].
  - unfold news_date_ok. destruct (googlenews item) as [news |]; [| reflexivity].
    unfold DataValidator.validateGoogleNewsItem in Hnil.
    repeat (apply app_eq_nil in Hnil as [_ Hnil]).
    destruct (GoogleNewsItem.publication_date news) as [s | [ms |]]; try reflexivity.
    cbn in Hnil. discriminate.
Qed.

Lemma add_item_config self self' url lastmod priority changefreq options :
  Model.config (Sitemap.model self') = Model.config (Sitemap.model self) ->
  Sitemap.add_item self' url lastmod priority changefreq options
  = Sitemap.add_item self url lastmod priority changefreq options.
Proof. intros Hcfg. unfold Sitemap.add_item, Model.getConfig. now rewrite Hcfg. Qed.

(** What the callbacks of a filter leave when their writes keep a property
    of the records. *)
Lemma filter_callback_keeps {A} (P : A -> Prop) (predicate : A -> A * outcome bool)
    (items : list A) :
  (forall item, P item -> P (fst (predicate item))) ->
  Forall P items ->
  Forall P (fst (filter_callback predicate items))
  /\ forall kept, snd (filter_callback predicate items) = Returns kept -> Forall P kept.
Proof.
  intros Hwrite. induction items as [|item rest IH]; intros Hall; cbn [filter_callback].
  - split; [constructor |]. intros kept [= <-]. constructor.
  - apply Forall_cons in Hall as [Hitem Hrest]. pose proof (Hwrite item Hitem) as Hw.
    destruct (predicate item) as [written [answer | e]]; cbn [fst] in Hw.
    + destruct (IH Hrest) as [Hleft Hkept].
      destruct (filter_callback predicate rest) as [rest' [kept | e]]; cbn [fst snd] in *.
      * split; [now constructor |]. intros kept' [= <-].
        specialize (Hkept kept eq_refl).
        destruct answer; cbn [negb]; [assumption | now constructor].
      * split; [now constructor | discriminate].
    + split; [now constructor | discriminate].
Qed.

(** A callback that reads and answers is a predicate. *)
Lemma filter_callback_reads {A} (predicate : A -> bool) (items : list A) :
  filter_callback (fun item => (item, Returns (predicate item))) items
  = (items, Returns (filter (fun item => negb (predicate item) = true) items)).
Proof.
  induction items as [|item rest IH]; [reflexivity |].
  cbn [filter_callback]. rewrite IH, filter_cons.
  destruct (predicate item); reflexivity.
Qed.

(** [removeItems] with a predicate that reads and answers. *)
Lemma removeItems_callback_reads (predicate : SitemapItem -> bool) (self : Sitemap.t) :
  Sitemap.removeItems_callback (fun item => (item, Returns (predicate item))) self
  = (Sitemap.removeItems predicate self, Returns tt).
Proof.
  unfold Sitemap.removeItems_callback, Sitemap.removeItems.
  now rewrite filter_callback_reads.
Qed.

(** What every use keeps when the caller does not write: the
    configuration, and any property of records that the records built by
    [add] and by [addItem] have. *)
Lemma run_use_keeps (P : SitemapItem -> Prop) (u : Sitemap.use) (self : Sitemap.t) :
  Sitemap.reads_only u ->
  (forall self' now url lastmod priority changefreq options item,
      Model.config (Sitemap.model self') = Model.config (Sitemap.model self) ->
      Sitemap.add_item self' url lastmod priority changefreq options = Returns item ->
      Config.validate (Model.getConfig (Sitemap.model self')) = false
      \/ DataValidator.validateItem now item = [] ->
      P item) ->
  (forall now item p,
      Sitemap.processedItem (Model.config (Sitemap.model self)) item = Returns p ->
      Config.validate (Model.config (Sitemap.model self)) = false
      \/ DataValidator.validateItem now p = [] ->
      P p) ->
  Forall P (Sitemap.getItems self) ->
  Forall P (Sitemap.getItems (fst (Sitemap.run_use u self)))
  /\ Model.config (Sitemap.model (fst (Sitemap.run_use u self)))
     = Model.config (Sitemap.model self).
Proof.
  intros Hreads Hadd Hturn Hall.
  destruct u as [c | predicate | index write]; cbn [Sitemap.run_use Sitemap.reads_only] in *.
  - now apply run_call_keeps.
  - unfold Sitemap.removeItems_callback.
    destruct (filter_callback_keeps P predicate (Model.getItems (Sitemap.model self)))
      as [Hleft Hkept]; [intros item Hitem; now rewrite Hreads | exact Hall |].
    destruct (filter_callback predicate _) as [written [kept | e]]; cbn [fst snd] in *.
    + destruct (addItem_foldl kept (Model.clear (Sitemap.model self))) as [Hitems Hconfig].
      unfold Sitemap.getItems, Model.getItems. cbn [Sitemap.model].
      rewrite Hitems, Hconfig. cbn. split; [now apply Hkept | reflexivity].
    + split; [exact Hleft | reflexivity].
  - cbn. unfold Sitemap.getItems, Model.getItems in *. cbn.
    rewrite list_alter_id by exact Hreads. split; [exact Hall | reflexivity].
Qed.

Lemma run_uses_keep (P : SitemapItem -> Prop) (uses : list Sitemap.use) :
  forall self : Sitemap.t,
  Forall Sitemap.reads_only uses ->
  (forall self' now url lastmod priority changefreq options item,
      Model.config (Sitemap.model self') = Model.config (Sitemap.model self) ->
      Sitemap.add_item self' url lastmod priority changefreq options = Returns item ->
      Config.validate (Model.getConfig (Sitemap.model self')) = false
      \/ DataValidator.validateItem now item = [] ->
      P item) ->
  (forall now item p,
      Sitemap.processedItem (Model.config (Sitemap.model self)) item = Returns p ->
      Config.validate (Model.config (Sitemap.model self)) = false
      \/ DataValidator.validateItem now p = [] ->
      P p) ->
  Forall P (Sitemap.getItems self) ->
  Forall P (Sitemap.getItems (Sitemap.run_uses uses self))
  /\ Model.config (Sitemap.model (Sitemap.run_uses uses self))
     = Model.config (Sitemap.model self).
Proof.
  induction uses as [|u uses IH]; intros self Hreads Hadd Hturn Hall; [now split |].
  apply Forall_cons in Hreads as [Hu Hreads].
  destruct (run_use_keeps P u self Hu Hadd Hturn Hall) as [Hall1 Hcfg1].
  unfold Sitemap.run_uses. cbn [foldl].
  fold (Sitemap.run_uses uses (fst (Sitemap.run_use u self))).
  destruct (IH (fst (Sitemap.run_use u self))) as [Hall2 Hcfg2].
  - exact Hreads.
  - intros self' now url lastmod priority changefreq options item Hcfg.
    apply Hadd. congruence.
  - rewrite Hcfg1. exact Hturn.
  - exact Hall1.
  - split; [exact Hall2 | congruence].
Qed.


(** What validation leaves in a store that has it on, when the caller
    does not write to the records. *)
Lemma validated_store (config : SitemapConfig.t) (uses : list Sitemap.use) :
  Config.validate (Model.getConfig (Sitemap.model (Sitemap.new config))) = true ->
  Forall Sitemap.reads_only uses ->
  Forall (fun item => isValidUrl (loc item) = true /\ news_date_ok item = true)
         (Sitemap.getItems (Sitemap.run_uses uses (Sitemap.new config))).
Proof.
  intros Hval Hreads. unfold Model.getConfig in Hval.
  apply (run_uses_keep _ uses (Sitemap.new config) Hreads).
  - intros self' now url lastmod priority changefreq options item Hcfg _ [Hoff | Hnil].
    + unfold Model.getConfig in Hoff. congruence.
    + now apply validateItem_nil in Hnil.
  - intros now item p _ [Hoff | Hnil]; [congruence |].
    now apply validateItem_nil in Hnil.
  - constructor.
Qed.

(** X2: in a new store in whose configuration validation is on, every
    stored location is a valid URL (parses, http or https, with a host,
    at most 2048 characters), whatever [add], [addItem], [clear] and
    [removeItems] calls were made and whichever of them threw, as long as
    the caller does not write to the stored records: the callbacks of
    [removeItems] leave the records they are handed as they are, and
    nothing is written through the records of [getItems]. A callback that
    writes can store any location. *)
Theorem validated_store_locations (config : SitemapConfig.t) (uses : list Sitemap.use) :
  Config.validate (Model.getConfig (Sitemap.model (Sitemap.new config))) = true ->
  Forall Sitemap.reads_only uses ->
  forall item,
    item ∈ Sitemap.getItems (Sitemap.run_uses uses (Sitemap.new config)) ->
    isValidUrl (loc item) = true.
Proof.
  intros Hon Hreads item Hin.
  pose proof (validated_store config uses Hon Hreads) as Hall.
  rewrite Forall_forall in Hall. now destruct (Hall item Hin).
Qed.

End Kept.

Lemma careful_reads_only : Forall Sitemap.reads_only Example.careful.
Proof. repeat constructor. Qed.


Lemma validated_store_locations_witness :
  isValidUrl (loc (plain_item "https://example.com/")) = true.
Proof.
  apply (validated_store_locations SitemapConfig.empty Example.careful eq_refl
           careful_reads_only).
  replace (Sitemap.getItems (Sitemap.run_uses Example.careful
                               (Sitemap.new SitemapConfig.empty)))
    with [plain_item "https://example.com/"] by (vm_compute; reflexivity).
  apply list_elem_of_here.
Defined.

(** ** When a render throws *)

Section Renders.
Context `{JSRuntime}.

Lemma render_googlenews_outcome self indentStr item :
  match Sitemap.render_googlenews self indentStr item with
  | Returns _ => news_date_ok item = true
  | Throws e => news_date_ok item = false /\ e = "Invalid Date object"%string
  end.
Proof.
  unfold Sitemap.render_googlenews, news_date_ok.
  destruct (googlenews item) as [news |]; [| reflexivity].
  destruct (GoogleNewsItem.publication_date news) as [s | [ms |]]; cbn; auto.
Qed.

Lemma renderSitemapItem_outcome self item indent :
  match Sitemap.renderSitemapItem self item indent with
  | Returns _ => news_date_ok item = true
  | Throws e => news_date_ok item = false /\ e = "Invalid Date object"%string
  end.
Proof.
  unfold Sitemap.renderSitemapItem.
  pose proof (render_googlenews_outcome self (Str.repeat "  " indent) item) as Hnews.
  destruct (Sitemap.render_googlenews _ _ _); cbn; exact Hnews.
Qed.

Lemma concat_outcomes_outcome self indent (items : list SitemapItem) :
  match concat_outcomes (fun item => Sitemap.renderSitemapItem self item indent) items with
  | Returns _ => forallb news_date_ok items = true
  | Throws e => forallb news_date_ok items = false /\ e = "Invalid Date object"%string
  end.
Proof.
  induction items as [|item items IH]; [reflexivity |].
  cbn [concat_outcomes forallb].
  pose proof (renderSitemapItem_outcome self item indent) as Hitem.
  destruct (Sitemap.renderSitemapItem self item indent) as [block | e]; cbn.
  - rewrite Hitem. cbn.
    destruct (concat_outcomes _ items); cbn; exact IH.
  - destruct Hitem as [-> ->]. now split.
Qed.

(** X3: [toXML] returns a document exactly when no stored record has news
    metadata whose publication date is an invalid [Date] object; when some
    record has, it throws [Invalid Date object], whatever the options. *)
Theorem toXML_throws_on_invalid_news_date (options : RenderOptions) (self : Sitemap.t) :
  match Sitemap.toXML options self with
  | Returns _ => forallb news_date_ok (Sitemap.getItems self) = true
  | Throws e =>
      forallb news_date_ok (Sitemap.getItems self) = false
      /\ e = "Invalid Date object"%string
  end.
Proof.
  unfold Sitemap.toXML, Sitemap.getItems.
  pose proof (concat_outcomes_outcome self
                (if default (Config.pretty (Model.getConfig (Sitemap.model self)))
                            (ro_pretty options) then 1 else 0)
                (Model.getItems (Sitemap.model self))) as Hloop.
  destruct (concat_outcomes _ _); cbn; exact Hloop.
Qed.

(** X4: a new store in whose configuration validation is on renders:
    after any sequence of [add], [addItem], [clear] and [removeItems]
    calls, [toXML] returns a document for every choice of options, as
    long as the caller does not write to the stored records: the
    callbacks of [removeItems] leave the records they are handed as they
    are, and nothing is written through the records of [getItems] or the
    objects passed to [add] and [addItem]. After a write to a stored
    record the render can throw. *)
Theorem validated_store_renders (config : SitemapConfig.t) (uses : list Sitemap.use)
    (options : RenderOptions) :
  Config.validate (Model.getConfig (Sitemap.model (Sitemap.new config))) = true ->
  Forall Sitemap.reads_only uses ->
  exists xml,
    Sitemap.toXML options (Sitemap.run_uses uses (Sitemap.new config)) = Returns xml.
Proof.
  intros Hon Hreads.
  pose proof (validated_store config uses Hon Hreads) as Hall.
  set (self := Sitemap.run_uses uses (Sitemap.new config)) in *.
  unfold Sitemap.toXML.
  pose proof (concat_outcomes_outcome self
                (if default (Config.pretty (Model.getConfig (Sitemap.model self)))
                            (ro_pretty options) then 1 else 0)
                (Model.getItems (Sitemap.model self))) as Hloop.
  destruct (concat_outcomes _ _) as [entries | e]; cbn; [eauto |].
  destruct Hloop as [Hbad _]. exfalso.
  assert (Hgood : forallb news_date_ok (Model.getItems (Sitemap.model self)) = true).
  { apply forallb_forall. intros item Hin. apply list_elem_of_In in Hin.
    rewrite Forall_forall in Hall. now destruct (Hall item Hin). }
  congruence.
Qed.

End Renders.

Lemma validated_store_renders_witness :
  exists xml,
    Sitemap.toXML default_render_options
      (Sitemap.run_uses Example.careful (Sitemap.new SitemapConfig.empty))
    = Returns xml.
Proof.
  apply (validated_store_renders SitemapConfig.empty Example.careful
           default_render_options eq_refl careful_reads_only).
Defined.

(** The caller must not write: in a store with validation on, a callback
    of [removeItems] that writes to the record it is handed and keeps it
    leaves a record with a [Date] object as last modification and a
    location that is no URL, and the render throws. *)
Example writing_callback_spoils_store :
  let self := Sitemap.run_uses Example.careless (Sitemap.new SitemapConfig.empty) in
  Config.validate (Model.getConfig (Sitemap.model self)) = true
  /\ (exists item,
        Sitemap.getItems self = [item]
        /\ lastmod item = Some (DObj InvalidDate)
        /\ isValidUrl (loc item) = false)
  /\ Sitemap.toXML default_render_options self = Throws "Invalid Date object".
Proof.
  cbv zeta. split; [reflexivity |]. split; [| vm_compute; reflexivity].
  eexists. split; [vm_compute; reflexivity |]. split; reflexivity.
Qed.

(** Without validation a record with an invalid news date enters, and the
    render throws. *)
Example unchecked_store_throws :
  Sitemap.toXML default_render_options
    (Sitemap.run_calls
       [Sitemap.call_addItem (fun _ => Example.now) (OneItem Example.undated_news)]
       (Sitemap.new Example.unchecked))
  = Throws "Invalid Date object".
Proof. vm_compute. reflexivity. Qed.

(** ** The document, record by record *)

Section Blocks.
Context `{JSRuntime}.

Lemma concat_outcomes_blocks {A} (f : A -> outcome string) (xs : list A) (text : string) :
  concat_outcomes f xs = Returns text ->
  exists blocks,
    Forall2 (fun x block => f x = Returns block) xs blocks
    /\ text = concat_blocks blocks.
Proof.
  revert text. induction xs as [|x xs IH]; intros text; cbn [concat_outcomes].
  - intros [= <-]. exists []. split; [constructor | reflexivity].
  - destruct (f x) as [block |] eqn:Hblock; cbn; [| discriminate].
    destruct (concat_outcomes f xs) as [rest |]; cbn; [| discriminate].
    intros [= <-]. destruct (IH rest eq_refl) as (blocks & Hall & ->).
    exists (block :: blocks). split; [now constructor | reflexivity].
Qed.

(** The first and the last lines of the entry of a record. *)
Lemma renderSitemapItem_frame self item indent block :
  Sitemap.renderSitemapItem self item indent = Returns block ->
  (exists rest,
      block = Str.repeat "  " indent +:+ "<url>" +:+ Str.nl
              +:+ Str.repeat "  " indent +:+ "  <loc>" +:+ Sitemap.escapeXml self (loc item)
              +:+ "</loc>" +:+ Str.nl +:+ rest)
  /\ (exists front,
         block = front +:+ Str.repeat "  " indent +:+ "</url>" +:+ Str.nl).
Proof.
  unfold Sitemap.renderSitemapItem.
  destruct (Sitemap.render_googlenews _ _ _) as [news |]; cbn [mbind outcome_bind];
    [| discriminate].
  intros [= <-]. split.
  - destruct (lastmod item) as [[s | d] |]; [destruct (negb (String.eqb s "")) | |];
      destruct (truthy (changefreq item));
      destruct (priority item);
      eexists; rewrite !append_assoc; reflexivity.
  - eexists. reflexivity.
Qed.

(** X5: a document [toXML] returns is the prolog, the start tag of the
    root, a line break, one entry per stored record in the order of the
    store, and the end tag. Each entry opens with [<url>] and the escaped
    location of its record in [<loc>], and closes with [</url>]. *)
Theorem toXML_one_entry_per_record (options : RenderOptions) (self : Sitemap.t)
    (xml : string) :
  Sitemap.toXML options self = Returns xml ->
  let config := Model.getConfig (Sitemap.model self) in
  let indent := if default (Config.pretty config) (ro_pretty options) then 1 else 0 in
  exists blocks,
    xml = Sitemap.prolog self (default (Config.stylesheet config) (ro_stylesheet options))
          +:+ Sitemap.urlset_tag (Sitemap.getItems self) +:+ Str.nl
          +:+ concat_blocks blocks +:+ "</urlset>"
    /\ length blocks = Sitemap.getItemCount self
    /\ Forall2 (fun item block =>
                  Sitemap.renderSitemapItem self item indent = Returns block
                  /\ (exists rest,
                         block = Str.repeat "  " indent +:+ "<url>" +:+ Str.nl
                                 +:+ Str.repeat "  " indent +:+ "  <loc>"
                                 +:+ Sitemap.escapeXml self (loc item)
                                 +:+ "</loc>" +:+ Str.nl +:+ rest)
                  /\ (exists front,
                         block = front +:+ Str.repeat "  " indent +:+ "</url>" +:+ Str.nl))
               (Sitemap.getItems self) blocks.
Proof.
  unfold Sitemap.toXML, Sitemap.getItems, Sitemap.getItemCount, Model.getItemCount.
  intros Hxml. cbv zeta.
  destruct (concat_outcomes _ _) as [entries |] eqn:Hloop; cbn in Hxml; [| discriminate].
  injection Hxml as <-.
  apply concat_outcomes_blocks in Hloop as (blocks & Hall & ->).
  exists blocks. split; [now rewrite !append_assoc |].
  split; [symmetry; exact (Forall2_length _ _ _ Hall) |].
  eapply Forall2_impl; [exact Hall |].
  intros item block Hblock. cbn beta in Hblock. split; [exact Hblock |].
  now apply renderSitemapItem_frame.
Qed.

End Blocks.

Lemma toXML_one_entry_per_record_witness :
  exists block,
    Sitemap.toXML default_render_options Example.gallery
    = Returns (Sitemap.prolog Example.gallery "" +:+ Sitemap.urlset_tag [Example.with_image]
               +:+ Str.nl +:+ concat_blocks [block] +:+ "</urlset>").
Proof.
  destruct (Sitemap.toXML default_render_options Example.gallery) as [xml |] eqn:Hxml;
    [| vm_compute in Hxml; discriminate].
  destruct (toXML_one_entry_per_record default_render_options Example.gallery xml Hxml)
    as (blocks & -> & Hlen & _).
  destruct blocks as [|block [|? ?]]; try discriminate.
  exists block. reflexivity.
Defined.

(** ** Removing and adding *)

Section Removing.
Context `{JSRuntime}.

(** X6: [removeItems] leaves exactly the records on which the predicate
    is false, in the order they had; it never adds a record and it keeps
    the configuration. *)
Theorem removeItems_keeps_the_others (predicate : SitemapItem -> bool) (self : Sitemap.t) :
  let after := Sitemap.removeItems predicate self in
  Sitemap.getItems after
    = filter (fun item => predicate item = false) (Sitemap.getItems self)
  /\ (forall item,
        item ∈ Sitemap.getItems after
        <-> item ∈ Sitemap.getItems self /\ predicate item = false)
  /\ Sitemap.getItems after `sublist_of` Sitemap.getItems self
  /\ Sitemap.getItemCount after <= Sitemap.getItemCount self
  /\ Model.getConfig (Sitemap.model after) = Model.getConfig (Sitemap.model self).
Proof.
  intros after.
  assert (Hitems : Sitemap.getItems after
                   = filter (fun item => predicate item = false) (Sitemap.getItems self)).
  { unfold after. rewrite removeItems_filter. unfold Sitemap.getItems, Model.getItems. cbn.
    apply list_filter_iff. intros item. destruct (predicate item); cbn; split; congruence. }
  split; [exact Hitems |]. split; [| split; [| split]].
  - intros item. rewrite Hitems, list_elem_of_filter. tauto.
  - rewrite Hitems. apply sublist_filter.
  - unfold Sitemap.getItemCount, Model.getItemCount.
    change (length (Sitemap.getItems after) <= length (Sitemap.getItems self)).
    rewrite Hitems. apply length_filter.
  - unfold after. now rewrite removeItems_filter.
Qed.


End Removing.


(** ** Validation *)

Lemma elem_of_flat_mapi {A B} (f : nat -> A -> list B) (l : list A) : forall start y,
  y ∈ flat_mapi f start l
  <-> exists i x, l !! i = Some x /\ y ∈ f (start + i) x.
Proof.
  induction l as [|x l IH]; intros start y; cbn [flat_mapi].
  - split; [intros Hin; now apply not_elem_of_nil in Hin |].
    intros (i & x & Hx & _). discriminate.
  - rewrite elem_of_app, IH. split.
    + intros [Hin | (i & x' & Hx' & Hin)].
      * exists 0, x. rewrite Nat.add_0_r. now split.
      * exists (S i), x'. rewrite <- Nat.add_succ_comm. now split.
    + intros ([|i] & x' & Hx' & Hin).
      * left. cbn in Hx'. injection Hx' as <-. now rewrite Nat.add_0_r in Hin.
      * right. exists i, x'. rewrite Nat.add_succ_comm. now split.
Qed.

Lemma nil_iff_no_elem {A} (l : list A) : l = [] <-> forall x, x ∉ l.
Proof.
  split; [intros -> x; apply not_elem_of_nil |].
  destruct l as [|x l]; [reflexivity |]. intros Hnone.
  now destruct (Hnone x (list_elem_of_here x l)).
Qed.

Section Validation.
Context `{JSRuntime}.

(** X8: [validate()] reports nothing exactly when every stored record is
    without error at the time it is checked; each error it reports is an
    error of the record at some index, its field prefixed by [item[index].]. *)
Theorem validate_reports_each_record (clock : nat -> Z) (self : Sitemap.t) :
  (Sitemap.validate clock self = []
   <-> forall index item,
         Sitemap.getItems self !! index = Some item ->
         DataValidator.validateItem (clock index) item = [])
  /\ (forall reported,
        reported ∈ Sitemap.validate clock self
        <-> exists index item error,
              Sitemap.getItems self !! index = Some item
              /\ error ∈ DataValidator.validateItem (clock index) item
              /\ reported = prefix_field ("item[" +:+ Str.of_nat index +:+ "].") error).
Proof.
  assert (Hin : forall reported,
        reported ∈ Sitemap.validate clock self
        <-> exists index item error,
              Sitemap.getItems self !! index = Some item
              /\ error ∈ DataValidator.validateItem (clock index) item
              /\ reported = prefix_field ("item[" +:+ Str.of_nat index +:+ "].") error).
  { intros reported. unfold Sitemap.validate, Sitemap.getItems.
    rewrite elem_of_flat_mapi. split.
    - intros (index & item & Hitem & Hrep). cbn [Nat.add] in Hrep.
      apply list_elem_of_fmap in Hrep as (error & -> & Herror). eauto 6.
    - intros (index & item & error & Hitem & Herror & ->).
      exists index, item. split; [assumption |]. cbn [Nat.add].
      now apply list_elem_of_fmap_2. }
  split; [| exact Hin].
  rewrite nil_iff_no_elem. split.
  - intros Hnone index item Hitem. apply nil_iff_no_elem. intros error Herror.
    apply (Hnone (prefix_field ("item[" +:+ Str.of_nat index +:+ "].") error)).
    apply Hin. eauto 6.
  - intros Hall reported Hrep. apply Hin in Hrep as (index & item & error & Hitem & Herror & _).
    rewrite (Hall index item Hitem) in Herror. now apply not_elem_of_nil in Herror.
Qed.

Lemma isValidLastModDate_later now later date :
  (now <= later)%Z ->
  isValidLastModDate now date = true -> isValidLastModDate later date = true.
Proof.
  unfold isValidLastModDate. intros Hle.
  destruct (match date with DStr s => Date_parse s | DObj d => d end); [| discriminate].
  intros Hnow. apply Z.leb_le in Hnow. apply Z.leb_le. lia.
Qed.

(** X9: time only removes validation errors: every error [validateItem]
    finds on a record at a later reading of the clock it also finds at an
    earlier one, so a record without error stays without error. *)
Theorem validateItem_later (now later : Z) (item : SitemapItem) :
  (now <= later)%Z ->
  (forall error,
      error ∈ DataValidator.validateItem later item ->
      error ∈ DataValidator.validateItem now item)
  /\ (DataValidator.validateItem now item = [] ->
      DataValidator.validateItem later item = []).
Proof.
  intros Hle.
  assert (Hsub : forall error,
             error ∈ DataValidator.validateItem later item ->
             error ∈ DataValidator.validateItem now item).
  { intros error. unfold DataValidator.validateItem.
    rewrite !elem_of_app.
    intros [Hin | [Hin | [Hin | Hin]]]; [now left | right; now left | | do 3 right; exact Hin].
    right. right. left.
    destruct (lastmod item) as [d |]; [| exact Hin].
    destruct (negb (DataValidator.isValidDate d)); [exact Hin |].
    destruct (isValidLastModDate now d) eqn:Hnow.
    - now rewrite (isValidLastModDate_later now later d Hle Hnow) in Hin.
    - cbn [negb]. destruct (negb (isValidLastModDate later d)); [exact Hin |].
      now apply not_elem_of_nil in Hin. }
  split; [exact Hsub |].
  intros Hnil. apply nil_iff_no_elem. intros error Herror.
  apply Hsub in Herror. rewrite Hnil in Herror. now apply not_elem_of_nil in Herror.
Qed.

End Validation.

Lemma validateItem_later_witness :
  DataValidator.validateItem (Example.now + 1)
    (mkItem "https://example.com/" (Some (DStr "2025-01-01")) None None None None None
            None None None) = [].
Proof.
  destruct (validateItem_later Example.now (Example.now + 1)
              (mkItem "https://example.com/" (Some (DStr "2025-01-01")) None None None
                      None None None None None)) as [_ Hnil]; [lia |].
  apply Hnil. vm_compute. reflexivity.
Defined.

Section Rules.
Context `{JSRuntime}.

Lemma prefixed_field_not_loc (start : ascii) (prefix : string) (error : ValidationError) :
  start <> "l"%char ->
  field (prefix_field (String start prefix) error) <> "loc"%string.
Proof. intros Hne. cbn. rewrite append_cons. congruence. Qed.

(** X10: the location rule of [validateItem]. An empty location is
    reported as required, any other location that [isValidUrl] refuses as
    not valid, both under the field [loc]; and no rule but this one
    reports under [loc], so an error with that field means that the
    location is not a valid URL. *)
Theorem validateItem_location_rule (now : Z) (item : SitemapItem) :
  (loc item = ""%string ->
   mkError required_error "loc" "URL (loc) is required" (VString "")
   ∈ DataValidator.validateItem now item)
  /\ (loc item <> ""%string -> isValidUrl (loc item) = false ->
      mkError url_error "loc" "URL (loc) is not valid" (VString (loc item))
      ∈ DataValidator.validateItem now item)
  /\ (forall error,
        error ∈ DataValidator.validateItem now item ->
        field error = "loc"%string ->
        isValidUrl (loc item) = false).
Proof.
  unfold DataValidator.validateItem, DataValidator.isValidUrl. split; [| split].
  - intros ->. apply elem_of_app. left. cbn. apply list_elem_of_here.
  - intros Hne Hinvalid. apply elem_of_app. left.
    rewrite (proj2 (String.eqb_neq _ _) Hne), Hinvalid. cbn. apply list_elem_of_here.
  - intros error Hin Hfield. rewrite !elem_of_app in Hin.
    destruct Hin as [Hin | [Hin | [Hin | [Hin | [Hin | [Hin | [Hin | [Hin | Hin]]]]]]]].
    + destruct (String.eqb_spec (loc item) "") as [-> | Hne];
        [unfold isValidUrl; reflexivity |].
      destruct (isValidUrl (loc item)); [| reflexivity].
      now apply not_elem_of_nil in Hin.
    + exfalso. destruct (priority item) as [p |]; [| now apply not_elem_of_nil in Hin].
      destruct (negb (DataValidator.isValidPriority p)); [| now apply not_elem_of_nil in Hin].
      apply list_elem_of_singleton in Hin as ->. discriminate.
    + exfalso. destruct (lastmod item) as [d |]; [| now apply not_elem_of_nil in Hin].
      destruct (negb (DataValidator.isValidDate d));
        [apply list_elem_of_singleton in Hin as ->; discriminate |].
      destruct (negb (isValidLastModDate now d)); [| now apply not_elem_of_nil in Hin].
      apply list_elem_of_singleton in Hin as ->. discriminate.
    + exfalso. destruct (changefreq item) as [freq |]; [| now apply not_elem_of_nil in Hin].
      destruct (negb (DataValidator.isValidChangeFreq freq));
        [| now apply not_elem_of_nil in Hin].
      apply list_elem_of_singleton in Hin as ->. discriminate.
    + exfalso. destruct (images item) as [l |]; [| now apply not_elem_of_nil in Hin].
      apply elem_of_flat_mapi in Hin as (i & x & _ & Hin).
      apply list_elem_of_fmap in Hin as (e & -> & _).
      revert Hfield. now apply prefixed_field_not_loc.
    + exfalso. destruct (videos item) as [l |]; [| now apply not_elem_of_nil in Hin].
      apply elem_of_flat_mapi in Hin as (i & x & _ & Hin).
      apply list_elem_of_fmap in Hin as (e & -> & _).
      revert Hfield. now apply prefixed_field_not_loc.
    + exfalso. destruct (translations item) as [l |]; [| now apply not_elem_of_nil in Hin].
      apply elem_of_flat_mapi in Hin as (i & x & _ & Hin).
      apply list_elem_of_fmap in Hin as (e & -> & _).
      revert Hfield. now apply prefixed_field_not_loc.
    + exfalso. destruct (alternates item) as [l |]; [| now apply not_elem_of_nil in Hin].
      apply elem_of_flat_mapi in Hin as (i & x & _ & Hin).
      apply list_elem_of_fmap in Hin as (e & -> & _).
      revert Hfield. now apply prefixed_field_not_loc.
    + exfalso. destruct (googlenews item) as [news |]; [| now apply not_elem_of_nil in Hin].
      unfold DataValidator.validateGoogleNewsItem in Hin. rewrite !elem_of_app in Hin.
      destruct Hin as [Hin | [Hin | Hin]].
      * destruct (String.eqb (GoogleNewsItem.sitename news) "");
          [| now apply not_elem_of_nil in Hin].
        apply list_elem_of_singleton in Hin as ->. discriminate.
      * destruct (String.eqb (GoogleNewsItem.language news) "");
          [| now apply not_elem_of_nil in Hin].
        apply list_elem_of_singleton in Hin as ->. discriminate.
      * destruct (GoogleNewsItem.publication_date news) as [[|c s] | d].
        -- apply list_elem_of_singleton in Hin as ->. discriminate.
        -- destruct (negb (DataValidator.isValidDate (DStr (String c s))));
             [| now apply not_elem_of_nil in Hin].
           apply list_elem_of_singleton in Hin as ->. discriminate.
        -- destruct (negb (DataValidator.isValidDate (DObj d)));
             [| now apply not_elem_of_nil in Hin].
           apply list_elem_of_singleton in Hin as ->. discriminate.
Qed.

(** X11: [validateItem] goes through every nested entry and reports each
    of its errors with the place of the entry in front of the field: an
    error of the image at index [i] under [images[i].], and likewise for
    videos, translations and alternates; errors of the news metadata are
    reported as they are. *)
Theorem validateItem_nested_paths (now : Z) (item : SitemapItem) :
  (forall l i image error,
      images item = Some l -> l !! i = Some image ->
      error ∈ DataValidator.validateImageItem image ->
      prefix_field ("images[" +:+ Str.of_nat i +:+ "].") error
      ∈ DataValidator.validateItem now item)
  /\ (forall l i video error,
        videos item = Some l -> l !! i = Some video ->
        error ∈ DataValidator.validateVideoItem video ->
        prefix_field ("videos[" +:+ Str.of_nat i +:+ "].") error
        ∈ DataValidator.validateItem now item)
  /\ (forall l i translation error,
        translations item = Some l -> l !! i = Some translation ->
        error ∈ DataValidator.validateTranslationItem translation ->
        prefix_field ("translations[" +:+ Str.of_nat i +:+ "].") error
        ∈ DataValidator.validateItem now item)
  /\ (forall l i alternate error,
        alternates item = Some l -> l !! i = Some alternate ->
        error ∈ DataValidator.validateAlternateItem alternate ->
        prefix_field ("alternates[" +:+ Str.of_nat i +:+ "].") error
        ∈ DataValidator.validateItem now item)
  /\ (forall news error,
        googlenews item = Some news ->
        error ∈ DataValidator.validateGoogleNewsItem news ->
        error ∈ DataValidator.validateItem now item).
Proof.
  unfold DataValidator.validateItem. repeat split.
  - intros l i image error -> Hi Herror. rewrite !elem_of_app. do 4 right. left.
    apply elem_of_flat_mapi. exists i, image. split; [assumption |].
    now apply list_elem_of_fmap_2.
  - intros l i video error -> Hi Herror. rewrite !elem_of_app. do 5 right. left.
    apply elem_of_flat_mapi. exists i, video. split; [assumption |].
    now apply list_elem_of_fmap_2.
  - intros l i translation error -> Hi Herror. rewrite !elem_of_app. do 6 right. left.
    apply elem_of_flat_mapi. exists i, translation. split; [assumption |].
    now apply list_elem_of_fmap_2.
  - intros l i alternate error -> Hi Herror. rewrite !elem_of_app. do 7 right. left.
    apply elem_of_flat_mapi. exists i, alternate. split; [assumption |].
    now apply list_elem_of_fmap_2.
  - intros news error -> Herror. rewrite !elem_of_app. do 8 right. exact Herror.
Qed.

End Rules.

Lemma validateItem_location_rule_witness :
  mkError url_error "loc" "URL (loc) is not valid" (VString "not a url")
  ∈ DataValidator.validateItem Example.now (plain_item "not a url").
Proof.
  destruct (validateItem_location_rule Example.now (plain_item "not a url"))
    as (_ & Hinvalid & _).
  apply Hinvalid; [discriminate | reflexivity].
Defined.

Lemma validateItem_nested_paths_witness :
  mkError url_error "images[1].image.url" "Image URL is not valid" (VString "not a url")
  ∈ DataValidator.validateItem Example.now Example.with_broken_image.
Proof.
  destruct (validateItem_nested_paths Example.now Example.with_broken_image)
    as (Himages & _).
  apply (Himages [Example.photo; Example.broken_image] 1 Example.broken_image
           (mkError url_error "image.url" "Image URL is not valid" (VString "not a url")));
    [reflexivity | reflexivity |].
  vm_compute. apply list_elem_of_here.
Defined.

(** ** Dates *)

Lemma before_split (c : ascii) (text : string) :
  exists rest,
    text = Str.before c text +:+ rest
    /\ Str.occurs c (Str.before c text) = false
    /\ (rest = ""%string \/ exists tail, rest = String c tail).
Proof.
  induction text as [|a text (rest & Heq & Hnone & Hrest)].
  - exists ""%string. repeat split. now left.
  - cbn [Str.before]. destruct (Ascii.eqb_spec a c) as [-> | Hne].
    + exists (String c text). repeat split. right. now exists text.
    + exists rest. rewrite append_cons, <- Heq. split; [reflexivity |].
      split; [| exact Hrest].
      cbn [Str.occurs]. now rewrite (proj2 (Ascii.eqb_neq a c) Hne), Hnone.
Qed.

Section Dates.
Context `{JSRuntime} `{JSText} `{JSLocalTime}.

(** X12: the three date formatters accept the same inputs, those the
    validator calls valid dates: [formatDate], [formatNewsDate] and
    [formatW3CDate] return exactly when [DataValidator.isValidDate] is
    true and throw otherwise. With the time they all return the same
    string; without it [formatW3CDate] returns what stands before the
    first [T] of that string. *)
Theorem formatters_agree (date : DateInput) :
  match formatDate date with
  | Returns iso =>
      DataValidator.isValidDate date = true
      /\ formatNewsDate date = Returns iso
      /\ formatW3CDate date None = Returns iso
      /\ formatW3CDate date (Some true) = Returns iso
      /\ exists day rest,
           formatW3CDate date (Some false) = Returns day
           /\ iso = day +:+ rest
           /\ Str.occurs "T" day = false
           /\ (rest = ""%string \/ exists tail, rest = String "T" tail)
  | Throws _ =>
      DataValidator.isValidDate date = false
      /\ (exists e, formatNewsDate date = Throws e)
      /\ forall includeTime,
           formatW3CDate date includeTime = Throws "Invalid date provided"
  end.
Proof.
  unfold formatNewsDate, formatW3CDate, formatDate, DataValidator.isValidDate, isValidDate.
  destruct date as [s | [ms |]]; [destruct (Date_parse s) as [ms |] | |]; cbn;
    try (repeat split; eauto; fail);
    (repeat split;
     destruct (before_split "T" (Date_toISOString ms)) as (rest & Heq & Hnone & Hrest);
     exists (Str.before "T" (Date_toISOString ms)), rest; auto).
Qed.

(** X13: [isSameDay] is symmetric; it is false as soon as one of the two
    dates is invalid (a string that does not parse or an invalid [Date]
    object), so a date is on the same day as itself exactly when it is
    valid. *)
Theorem isSameDay_symmetric (date1 date2 : DateInput) :
  isSameDay date1 date2 = isSameDay date2 date1
  /\ (DataValidator.isValidDate date1 = false -> isSameDay date1 date2 = false)
  /\ (DataValidator.isValidDate date2 = false -> isSameDay date1 date2 = false)
  /\ isSameDay date1 date1 = DataValidator.isValidDate date1.
Proof.
  unfold isSameDay, parseDate, DateLike_of, same_local_day,
    DataValidator.isValidDate, isValidDate.
  destruct date1 as [s1 | [t1 |]]; [destruct (Date_parse s1) as [t1 |] | |];
    (destruct date2 as [s2 | [t2 |]]; [destruct (Date_parse s2) as [t2 |] | |]);
    cbn; rewrite ?Z.eqb_refl; repeat split; try discriminate; try reflexivity;
    rewrite (Z.eqb_sym (getFullYear t1)), (Z.eqb_sym (getMonth t1)),
      (Z.eqb_sym (getDate t1)); reflexivity.
Qed.

End Dates.

Lemma isSameDay_symmetric_witness :
  isSameDay (DStr "not a date") (DStr "2025-01-01") = false.
Proof.
  destruct (isSameDay_symmetric (DStr "not a date") (DStr "2025-01-01"))
    as (_ & Hinvalid & _).
  apply Hinvalid. reflexivity.
Defined.

(** ** Statistics *)

Lemma sum_list_cons (x : nat) (l : list nat) : sum_list (x :: l) = x + sum_list l.
Proof. reflexivity. Qed.

Lemma count_if_positive (p : SitemapItem -> bool) (items : list SitemapItem) :
  (0 <? count_if p items)%nat = existsb p items.
Proof.
  unfold count_if. induction items as [|item items IH]; [reflexivity |].
  rewrite fmap_cons, sum_list_cons. cbn [existsb].
  destruct (p item); cbn [orb]; [reflexivity | exact IH].
Qed.

Lemma count_if_le (p : SitemapItem -> bool) (items : list SitemapItem) :
  count_if p items <= length items.
Proof.
  unfold count_if. induction items as [|item items IH]; [reflexivity |].
  rewrite fmap_cons, sum_list_cons. cbn [length]. destruct (p item); lia.
Qed.

Section Statistics.
Context `{JSRuntime}.

(** What one turn of the counting loop adds. *)
Lemma count_item_fields (stats : SitemapStats) (item : SitemapItem) :
  let stats' := Sitemap.count_item stats item in
  urls stats' = urls stats
  /\ withImages stats' = withImages stats
                         + (if Sitemap.non_empty (images item) then 1 else 0)
  /\ withVideos stats' = withVideos stats
                         + (if Sitemap.non_empty (videos item) then 1 else 0)
  /\ withTranslations stats' = withTranslations stats
                               + (if Sitemap.non_empty (translations item) then 1 else 0)
  /\ withAlternates stats' = withAlternates stats
                             + (if Sitemap.non_empty (alternates item) then 1 else 0)
  /\ withGoogleNews stats' = withGoogleNews stats
                             + (if bool_decide (is_Some (googlenews item)) then 1 else 0)
  /\ totalImages stats' = totalImages stats
                          + (if Sitemap.non_empty (images item)
                             then array_length (images item) else 0)
  /\ totalVideos stats' = totalVideos stats
                          + (if Sitemap.non_empty (videos item)
                             then array_length (videos item) else 0).
Proof.
  destruct stats as [u wi wv wt wa wn ti tv size].
  destruct item as [l lm pr cf ti' [[|image imgs] |] [[|video vids] |]
                      [[|translation trs] |] [[|alternate alts] |] [news |]];
    cbv -[Nat.add]; repeat split; lia.
Qed.

Lemma count_items_fields (items : list SitemapItem) : forall stats : SitemapStats,
  let stats' := foldl Sitemap.count_item stats items in
  urls stats' = urls stats
  /\ withImages stats'
     = withImages stats + count_if (fun item => Sitemap.non_empty (images item)) items
  /\ withVideos stats'
     = withVideos stats + count_if (fun item => Sitemap.non_empty (videos item)) items
  /\ withTranslations stats'
     = withTranslations stats
       + count_if (fun item => Sitemap.non_empty (translations item)) items
  /\ withAlternates stats'
     = withAlternates stats
       + count_if (fun item => Sitemap.non_empty (alternates item)) items
  /\ withGoogleNews stats'
     = withGoogleNews stats
       + count_if (fun item => bool_decide (is_Some (googlenews item))) items
  /\ totalImages stats'
     = totalImages stats
       + sum_list ((fun item => if Sitemap.non_empty (images item)
                                then array_length (images item) else 0) <$> items)
  /\ totalVideos stats'
     = totalVideos stats
       + sum_list ((fun item => if Sitemap.non_empty (videos item)
                                then array_length (videos item) else 0) <$> items).
Proof.
  induction items as [|item items IH]; intros stats; cbn [foldl].
  - unfold count_if. cbn. repeat split; lia.
  - destruct (IH (Sitemap.count_item stats item))
      as (Hu & Hi & Hv & Ht & Ha & Hn & Hti & Htv).
    destruct (count_item_fields stats item)
      as (Hu1 & Hi1 & Hv1 & Ht1 & Ha1 & Hn1 & Hti1 & Htv1).
    cbv zeta in *. unfold count_if in *. rewrite !fmap_cons, !sum_list_cons.
    rewrite Hu, Hi, Hv, Ht, Ha, Hn, Hti, Htv, Hu1, Hi1, Hv1, Ht1, Ha1, Hn1, Hti1, Htv1.
    repeat split; lia.
Qed.

Lemma total_ge_count {A} (get : SitemapItem -> option (list A)) (items : list SitemapItem) :
  count_if (fun item => Sitemap.non_empty (get item)) items
  <= sum_list ((fun item => if Sitemap.non_empty (get item)
                            then array_length (get item) else 0) <$> items).
Proof.
  unfold count_if. induction items as [|item items IH]; [reflexivity |].
  rewrite !fmap_cons, !sum_list_cons.
  destruct (get item) as [[|x l] |]; cbn [Sitemap.non_empty array_length length Nat.ltb Nat.leb];
    lia.
Qed.

(** X14: the counts of [getStats] fit together and fit the document:
    [urls] is the number of records, no count of records with a feature
    exceeds it, there are at least as many images (videos) as records with
    images (videos), and a count is positive exactly when [toXML] declares
    the namespace of that feature. *)
Theorem getStats_counts (self : Sitemap.t) :
  let stats := Sitemap.getStats self in
  let items := Sitemap.getItems self in
  urls stats = Sitemap.getItemCount self
  /\ withImages stats <= urls stats
  /\ withVideos stats <= urls stats
  /\ withTranslations stats <= urls stats
  /\ withAlternates stats <= urls stats
  /\ withGoogleNews stats <= urls stats
  /\ withImages stats <= totalImages stats
  /\ withVideos stats <= totalVideos stats
  /\ (0 <? withImages stats)%nat = Sitemap.hasImages items
  /\ (0 <? withVideos stats)%nat = Sitemap.hasVideos items
  /\ (0 <? withTranslations stats)%nat || (0 <? withAlternates stats)%nat
     = Sitemap.hasTranslations items || Sitemap.hasAlternates items
  /\ (0 <? withGoogleNews stats)%nat = Sitemap.hasGoogleNews items.
Proof.
  intros stats items.
  destruct (count_items_fields (Model.getItems (Sitemap.model self))
              (mkStats (length (Model.getItems (Sitemap.model self))) 0 0 0 0 0 0 0 0))
    as (Hu & Hi & Hv & Ht & Ha & Hn & Hti & Htv).
  cbv zeta in *. cbn [urls withImages withVideos withTranslations withAlternates
                       withGoogleNews totalImages totalVideos Nat.add] in *.
  unfold stats, Sitemap.getStats.
  cbn [urls withImages withVideos withTranslations withAlternates withGoogleNews
       totalImages totalVideos].
  rewrite Hu, Hi, Hv, Ht, Ha, Hn, Hti, Htv.
  unfold Sitemap.getItemCount, Model.getItemCount, Model.getItems, items,
    Sitemap.getItems, Model.getItems.
  repeat split; try apply count_if_le; try apply total_ge_count;
    rewrite ?count_if_positive; reflexivity.
Qed.

Lemma add_itemSize_foldl (items : list SitemapItem) : forall size,
  foldl Sitemap.add_itemSize size items
  = size + sum_list (Sitemap.add_itemSize 0 <$> items).
Proof.
  induction items as [|item items IH]; intros size; cbn [foldl].
  - cbn. lia.
  - rewrite IH, fmap_cons, sum_list_cons.
    assert (Hsize : forall n, Sitemap.add_itemSize n item = n + Sitemap.add_itemSize 0 item).
    { intros n. unfold Sitemap.add_itemSize.
      destruct (truthy (title item)), (truthy_date (lastmod item)), (images item),
        (videos item), (translations item), (alternates item), (googlenews item); lia. }
    rewrite (Hsize size). lia.
Qed.

(** X15: the estimated size starts at 500 for an empty store and grows
    record by record: appending records to a store adds the sizes of the
    new records to the estimate of the old store, and each record counts
    for at least 150 plus the length of its location. *)
Theorem getStats_estimate (self : Sitemap.t) (more : list SitemapItem) :
  estimatedSize (Sitemap.getStats (extended self more))
  = estimatedSize (Sitemap.getStats self) + sum_list (Sitemap.add_itemSize 0 <$> more)
  /\ Forall (fun item => 150 + String.length (loc item) <= Sitemap.add_itemSize 0 item) more
  /\ 500 + 150 * Sitemap.getItemCount self <= estimatedSize (Sitemap.getStats self)
  /\ (Sitemap.getItems self = [] -> estimatedSize (Sitemap.getStats self) = 500).
Proof.
  assert (Hitem : forall item,
             150 + String.length (loc item) <= Sitemap.add_itemSize 0 item).
  { intros item. unfold Sitemap.add_itemSize.
    destruct (truthy (title item)), (truthy_date (lastmod item)), (images item),
      (videos item), (translations item), (alternates item), (googlenews item); lia. }
  unfold Sitemap.getStats, Sitemap.getItemCount, Model.getItemCount, Sitemap.getItems.
  cbn [estimatedSize]. rewrite !add_itemSize_foldl. repeat split.
  - unfold extended, Model.getItems. cbn [Sitemap.model Model.items].
    rewrite fmap_app, sum_list_with_app. lia.
  - apply Forall_forall. intros item _. apply Hitem.
  - unfold Model.getItems.
    induction (Model.items (Sitemap.model self)) as [|item items IH]; [cbn; lia |].
    rewrite fmap_cons, sum_list_cons. specialize (Hitem item). cbn [length]. lia.
  - unfold Model.getItems. intros ->. reflexivity.
Qed.

End Statistics.

Lemma getStats_estimate_witness :
  estimatedSize (Sitemap.getStats Example.one_record) = 500 + (150 + 20).
Proof.
  destruct (getStats_estimate (Sitemap.new Example.limited)
              [plain_item "https://example.com/"]) as (Hadd & _ & _ & Hempty).
  change (extended (Sitemap.new Example.limited) [plain_item "https://example.com/"])
    with Example.one_record in Hadd.
  rewrite Hadd, (Hempty eq_refl). reflexivity.
Defined.

(** ** The index *)

Section IndexEntries.
Context `{JSRuntime}.

(** [addSitemap] throws and leaves the index as it was, or appends the
    entry it built and, when validation is on, found without error. *)
Lemma addSitemap_entry loc lastmod (self : SitemapIndex.t) :
  (exists e, SitemapIndex.addSitemap loc lastmod self = (self, Throws e))
  \/ exists item,
       SitemapIndex.addSitemap_item (SitemapIndex.config self) loc lastmod = Returns item
       /\ (IndexConfig.validate (SitemapIndex.config self) = true ->
           SitemapIndex.validateSitemapItem item = [])
       /\ SitemapIndex.addSitemap loc lastmod self
          = (SitemapIndex.mk (SitemapIndex.items self ++ [item]) (SitemapIndex.config self),
             Returns tt).
Proof.
  unfold SitemapIndex.addSitemap, mbind, eff_bind, gets, lift, throw, modify,
    mret, eff_ret.
  cbv beta iota.
  destruct (SitemapIndex.addSitemap_item _ loc lastmod) as [item | e]; [| eauto].
  destruct (IndexConfig.validate _) eqn:Hval.
  - destruct (SitemapIndex.validateSitemapItem item) as [|error errors] eqn:Herr;
      cbn [length Nat.ltb Nat.leb]; [| eauto].
    destruct (IndexConfig.maxSitemaps _ <=? _)%Z; [eauto |].
    right. exists item. repeat split; auto.
  - destruct (IndexConfig.maxSitemaps _ <=? _)%Z; [eauto |].
    right. exists item. repeat split; auto. discriminate.
Qed.

Lemma addSitemap_item_lastmod config loc lastmod item :
  SitemapIndex.addSitemap_item config loc lastmod = Returns item ->
  index_lastmod_is_string item.
Proof.
  unfold SitemapIndex.addSitemap_item, index_lastmod_is_string.
  destruct lastmod as [[s | d] |]; cbn [mbind outcome_bind mret outcome_ret].
  - now intros [= <-].
  - destruct (formatDate (DObj d)); cbn [mbind outcome_bind]; [| discriminate].
    now intros [= <-].
  - now intros [= <-].
Qed.

(** The location of the entry [addSitemap] builds when it does not resolve
    against a base URL. *)
Lemma addSitemap_item_loc config loc lastmod item :
  SitemapIndex.addSitemap_item config loc lastmod = Returns item ->
  IndexConfig.baseUrl config = ""%string \/ isValidUrl (normalizeUrl loc) = true ->
  index_loc item = normalizeUrl loc.
Proof.
  unfold SitemapIndex.addSitemap_item, DataValidator.isValidUrl.
  intros Hitem Hcase.
  assert (Hif : negb (String.eqb (IndexConfig.baseUrl config) "")
                && negb (isValidUrl (normalizeUrl loc)) = false).
  { destruct Hcase as [-> | ->]; [reflexivity | apply andb_false_r]. }
  rewrite Hif in Hitem.
  destruct lastmod as [[s | d] |]; cbn [mbind outcome_bind mret outcome_ret] in Hitem.
  - now injection Hitem as <-.
  - destruct (formatDate (DObj d)); cbn [mbind outcome_bind] in Hitem; [| discriminate].
    now injection Hitem as <-.
  - now injection Hitem as <-.
Qed.

(** What an entry without error is. *)
Lemma validateSitemapItem_nil item :
  SitemapIndex.validateSitemapItem item = [] ->
  isValidUrl (index_loc item) = true
  /\ forall s, index_lastmod item = Some (DStr s) -> s = ""%string \/ isValidDate s = true.
Proof.
  unfold SitemapIndex.validateSitemapItem, DataValidator.isValidUrl, isValidDate.
  destruct (isValidUrl (index_loc item)); cbn [negb app]; [| discriminate].
  intros Herr. split; [reflexivity |]. intros s Hs. rewrite Hs in Herr.
  destruct (String.eqb_spec s ""); [now left | right].
  cbn [negb] in Herr. now destruct (Date_parse s).
Qed.

(** The entries [addSitemaps] appends are those built from the first
    inputs, up to the first one that [addSitemap] refuses. *)
Lemma addSitemaps_entries (sitemaps : list SitemapIndexItem) : forall start self,
  let run :=
    for_each (fun (_ : nat) item =>
                SitemapIndex.addSitemap (index_loc item) (index_lastmod item))
      start sitemaps self in
  exists n added,
    n <= length sitemaps
    /\ Forall2 (fun input entry =>
                  SitemapIndex.addSitemap_item (SitemapIndex.config self)
                    (index_loc input) (index_lastmod input) = Returns entry)
         (take n sitemaps) added
    /\ fst run = SitemapIndex.mk (SitemapIndex.items self ++ added) (SitemapIndex.config self)
    /\ (snd run = Returns tt <-> n = length sitemaps)
    /\ (forall e, snd run = Throws e ->
        exists input,
          sitemaps !! n = Some input
          /\ snd (SitemapIndex.addSitemap (index_loc input) (index_lastmod input) (fst run))
             = Throws e).
Proof.
  induction sitemaps as [|input sitemaps IH]; intros start self; cbv zeta.
  - exists 0, []. cbn. rewrite app_nil_r. destruct self.
    repeat split; auto; try constructor. discriminate.
  - cbn [for_each]. unfold mbind, eff_bind.
    destruct (addSitemap_entry (index_loc input) (index_lastmod input) self)
      as [[e He] | (entry & Hentry & _ & Hadd)].
    + rewrite He. exists 0, []. cbn [take length fst snd lookup list_lookup].
      rewrite app_nil_r. destruct self as [items config]. cbn [SitemapIndex.items
        SitemapIndex.config]. repeat split; try constructor; try lia; try discriminate.
      intros e' [= <-]. exists input. split; [reflexivity |]. now rewrite He.
    + rewrite Hadd.
      destruct (IH (S start)
                  (SitemapIndex.mk (SitemapIndex.items self ++ [entry])
                     (SitemapIndex.config self)))
        as (n & added & Hn & Hbuilt & Hfst & Hret & Hthrow).
      cbn [SitemapIndex.items SitemapIndex.config] in *.
      exists (S n), (entry :: added). cbn [take length lookup list_lookup].
      rewrite Hfst, <- app_assoc. cbn [app].
      repeat split; try lia.
      * now constructor.
      * intros Hr. apply Hret in Hr. lia.
      * intros Hr. apply Hret. lia.
      * intros e He. destruct (Hthrow e He) as (failing & Hlookup & Hfail).
        exists failing. split; [assumption |]. now rewrite Hfst, <- app_assoc in Hfail.
Qed.

End IndexEntries.

Section IndexKept.
Context `{JSRuntime}.
Variable P : SitemapIndexItem -> Prop.
Variable I : IndexConfig.t -> Prop.
Variable ok : SitemapIndex.call -> Prop.
Hypothesis built : forall config loc lastmod item,
  I config ->
  SitemapIndex.addSitemap_item config loc lastmod = Returns item ->
  (IndexConfig.validate config = true -> SitemapIndex.validateSitemapItem item = []) ->
  P item.
Hypothesis merged : forall config c,
  I config -> ok (SitemapIndex.call_setConfig c) -> I (SitemapIndex.merge config c).

Lemma index_addSitemap_keeps loc lastmod (self : SitemapIndex.t) :
  I (SitemapIndex.config self) -> Forall P (SitemapIndex.items self) ->
  let self' := fst (SitemapIndex.addSitemap loc lastmod self) in
  I (SitemapIndex.config self') /\ Forall P (SitemapIndex.items self').
Proof.
  intros HI HP. cbv zeta.
  destruct (addSitemap_entry loc lastmod self) as [[e ->] | (item & Hitem & Hval & ->)];
    [now split |].
  cbn. split; [assumption |]. apply Forall_app. split; [assumption |].
  constructor; [| constructor]. eapply built; eauto.
Qed.

Lemma index_addSitemaps_keep (sitemaps : list SitemapIndexItem) : forall start self,
  I (SitemapIndex.config self) -> Forall P (SitemapIndex.items self) ->
  let self' :=
    fst (for_each (fun (_ : nat) item =>
                     SitemapIndex.addSitemap (index_loc item) (index_lastmod item))
           start sitemaps self) in
  I (SitemapIndex.config self') /\ Forall P (SitemapIndex.items self').
Proof.
  induction sitemaps as [|item sitemaps IH]; intros start self HI HP; [now split |].
  cbn [for_each]. unfold mbind, eff_bind.
  destruct (index_addSitemap_keeps (index_loc item) (index_lastmod item) self HI HP)
    as [HI' HP'].
  destruct (SitemapIndex.addSitemap _ _ self) as [self1 [[] | e]]; cbn [fst] in *;
    [| now split].
  apply (IH (S start) self1 HI' HP').
Qed.

Lemma index_run_call_keeps (c : SitemapIndex.call) (self : SitemapIndex.t) :
  ok c -> I (SitemapIndex.config self) -> Forall P (SitemapIndex.items self) ->
  let self' := fst (SitemapIndex.run_call c self) in
  I (SitemapIndex.config self') /\ Forall P (SitemapIndex.items self').
Proof.
  intros Hok HI HP.
  destruct c as [loc lastmod | items | sitemaps | predicate | | config];
    cbn [SitemapIndex.run_call].
  - now apply index_addSitemap_keeps.
  - now apply index_addSitemaps_keep.
  - unfold SitemapIndex.resetSitemaps, SitemapIndex.addSitemaps, mbind, eff_bind, modify.
    cbv beta iota zeta.
    apply (index_addSitemaps_keep sitemaps 0 (SitemapIndex.mk [] (SitemapIndex.config self)));
      [assumption | constructor].
  - cbn. split; [assumption |]. apply Forall_forall. intros item Hin.
    apply list_elem_of_filter in Hin as [_ Hin].
    now apply (proj1 (Forall_forall _ _) HP).
  - cbn. split; [assumption | constructor].
  - cbn. split; [now apply merged | assumption].
Qed.

End IndexKept.

Section IndexProperties.
Context `{JSRuntime}.

(** [removeSitemaps] with a predicate that reads and answers. *)
Lemma removeSitemaps_callback_reads (predicate : SitemapIndexItem -> bool)
    (self : SitemapIndex.t) :
  SitemapIndex.removeSitemaps_callback (fun item => (item, Returns (predicate item))) self
  = SitemapIndex.removeSitemaps predicate self.
Proof.
  unfold SitemapIndex.removeSitemaps_callback, SitemapIndex.removeSitemaps, modify.
  now rewrite filter_callback_reads.
Qed.

(** What a use of an index keeps when the caller does not write: any
    property of entries that the entries [addSitemap] builds there have. *)
Lemma index_run_use_keeps (P : SitemapIndexItem -> Prop) (u : SitemapIndex.use)
    (self : SitemapIndex.t) :
  SitemapIndex.reads_only u ->
  (forall loc lastmod item,
      SitemapIndex.addSitemap_item (SitemapIndex.config self) loc lastmod = Returns item ->
      (IndexConfig.validate (SitemapIndex.config self) = true ->
       SitemapIndex.validateSitemapItem item = []) ->
      P item) ->
  Forall P (SitemapIndex.items self) ->
  Forall P (SitemapIndex.items (fst (SitemapIndex.run_use u self))).
Proof.
  intros Hreads Hbuilt Hall.
  destruct u as [c | predicate | index write];
    cbn [SitemapIndex.run_use SitemapIndex.reads_only] in *.
  - assert (Hcall : forall c : SitemapIndex.call,
               match c with
               | SitemapIndex.call_setConfig _ => False
               | _ => True
               end ->
               Forall P (SitemapIndex.items (fst (SitemapIndex.run_call c self)))).
    { intros c' Hok.
      refine (proj2 (index_run_call_keeps P
                       (fun cfg => cfg = SitemapIndex.config self)
                       (fun c => match c with
                                 | SitemapIndex.call_setConfig _ => False
                                 | _ => True
                                 end)
                       _ _ c' self Hok eq_refl Hall)).
      - intros cfg loc lastmod item -> Hitem Hval. now apply (Hbuilt loc lastmod).
      - intros cfg c'' _ []. }
    destruct c as [loc lastmod | items | sitemaps | predicate | | config];
      try (apply Hcall; exact I).
    exact Hall.
  - unfold SitemapIndex.removeSitemaps_callback.
    destruct (filter_callback_keeps P predicate (SitemapIndex.items self))
      as [Hleft Hkept]; [intros item Hitem; now rewrite Hreads | exact Hall |].
    destruct (filter_callback predicate _) as [written [kept | e]]; cbn [fst snd] in *.
    + now apply Hkept.
    + exact Hleft.
  - cbn. rewrite list_alter_id by exact Hreads. exact Hall.
Qed.

Lemma index_run_uses_keep (P : SitemapIndexItem -> Prop) (uses : list SitemapIndex.use) :
  forall self : SitemapIndex.t,
  Forall SitemapIndex.reads_only uses ->
  (forall n loc lastmod item,
      let before := SitemapIndex.run_uses (take n uses) self in
      SitemapIndex.addSitemap_item (SitemapIndex.config before) loc lastmod = Returns item ->
      (IndexConfig.validate (SitemapIndex.config before) = true ->
       SitemapIndex.validateSitemapItem item = []) ->
      P item) ->
  Forall P (SitemapIndex.items self) ->
  Forall P (SitemapIndex.items (SitemapIndex.run_uses uses self)).
Proof.
  induction uses as [|u uses IH]; intros self Hreads Hbuilt Hall; [exact Hall |].
  apply Forall_cons in Hreads as [Hu Hreads].
  unfold SitemapIndex.run_uses. cbn [foldl].
  fold (SitemapIndex.run_uses uses (fst (SitemapIndex.run_use u self))).
  apply IH; [exact Hreads | |].
  - intros n. exact (Hbuilt (S n)).
  - apply index_run_use_keeps; [exact Hu | exact (Hbuilt 0) | exact Hall].
Qed.

(** X16: as long as the caller does not write to the entries, an index
    never holds a [Date] object as the last modification of an entry,
    whatever [addSitemap], [addSitemaps], [resetSitemaps],
    [removeSitemaps], [clear] and [setConfig] calls built it; and when
    validation is on in its configuration before each of these calls,
    every entry has a valid URL as its location and a last modification
    that, when it is a non-empty string, parses as a date. The caller does
    not write when the callbacks of [removeSitemaps] leave the entries
    they are handed as they are and nothing is written through the
    entries of [getSitemaps]; a callback that writes can store any
    entry. *)
Theorem index_entries_validated (config : SitemapIndexConfig.t)
    (uses : list SitemapIndex.use) :
  Forall SitemapIndex.reads_only uses ->
  let self := SitemapIndex.run_uses uses (SitemapIndex.new config) in
  Forall index_lastmod_is_string (SitemapIndex.getSitemaps self)
  /\ ((forall n,
         IndexConfig.validate
           (SitemapIndex.getConfig
              (SitemapIndex.run_uses (take n uses) (SitemapIndex.new config))) = true) ->
      forall item,
        item ∈ SitemapIndex.getSitemaps self ->
        isValidUrl (index_loc item) = true
        /\ forall s,
             index_lastmod item = Some (DStr s) -> s = ""%string \/ isValidDate s = true).
Proof.
  intros Hreads. cbv zeta. split.
  - apply (index_run_uses_keep index_lastmod_is_string uses (SitemapIndex.new config) Hreads);
      [| constructor].
    intros n loc lastmod item before Hitem _. eapply addSitemap_item_lastmod; eauto.
  - intros Hon item Hin.
    apply validateSitemapItem_nil.
    revert item Hin. apply Forall_forall.
    apply (index_run_uses_keep (fun item => SitemapIndex.validateSitemapItem item = [])
             uses (SitemapIndex.new config) Hreads); [| constructor].
    intros n loc lastmod item before _ Hval. apply Hval. apply (Hon n).
Qed.

(** X17: after an [addSitemap] that returns, [hasSitemap] still finds
    every URL it found before, and, when no base URL is configured or the
    normalized location is a valid URL, it finds the location just added
    and every URL that normalizes to the same string. *)
Theorem addSitemap_then_hasSitemap (loc : string) (lastmod : option DateInput)
    (self : SitemapIndex.t) :
  snd (SitemapIndex.addSitemap loc lastmod self) = Returns tt ->
  let after := fst (SitemapIndex.addSitemap loc lastmod self) in
  (forall url, SitemapIndex.hasSitemap url self = true ->
               SitemapIndex.hasSitemap url after = true)
  /\ (IndexConfig.baseUrl (SitemapIndex.config self) = ""%string
      \/ isValidUrl (normalizeUrl loc) = true ->
      forall url, normalizeUrl url = normalizeUrl loc ->
                  SitemapIndex.hasSitemap url after = true).
Proof.
  destruct (addSitemap_entry loc lastmod self) as [[e ->] | (item & Hitem & _ & ->)];
    [discriminate |].
  intros _. cbv zeta. cbn [fst]. unfold SitemapIndex.hasSitemap.
  cbn [SitemapIndex.items]. split.
  - intros url Hurl. rewrite existsb_app, Hurl. reflexivity.
  - intros Hcase url Hurl. rewrite existsb_app. cbn [existsb].
    rewrite (addSitemap_item_loc _ _ _ _ Hitem Hcase), Hurl, String.eqb_refl.
    now rewrite orb_false_r, orb_true_r.
Qed.

(** X18: [addSitemaps] appends, behind the entries that were there, the
    entries built from the first inputs and stops at the first input that
    [addSitemap] refuses: it returns exactly when none is refused, and
    when it throws, it throws what [addSitemap] throws for that input and
    the entries before it stay in the index. *)
Theorem addSitemaps_stops_at_first_refused (sitemaps : list SitemapIndexItem)
    (self : SitemapIndex.t) :
  let run := SitemapIndex.addSitemaps sitemaps self in
  exists n added,
    n <= length sitemaps
    /\ Forall2 (fun input entry =>
                  SitemapIndex.addSitemap_item (SitemapIndex.getConfig self)
                    (index_loc input) (index_lastmod input) = Returns entry)
         (take n sitemaps) added
    /\ SitemapIndex.getSitemaps (fst run) = SitemapIndex.getSitemaps self ++ added
    /\ SitemapIndex.getConfig (fst run) = SitemapIndex.getConfig self
    /\ (snd run = Returns tt <-> n = length sitemaps)
    /\ (forall e, snd run = Throws e ->
        exists input,
          sitemaps !! n = Some input
          /\ snd (SitemapIndex.addSitemap (index_loc input) (index_lastmod input) (fst run))
             = Throws e).
Proof.
  cbv zeta. unfold SitemapIndex.addSitemaps, SitemapIndex.getSitemaps,
    SitemapIndex.getConfig.
  destruct (addSitemaps_entries sitemaps 0 self)
    as (n & added & Hn & Hbuilt & Hfst & Hret & Hthrow).
  exists n, added. rewrite Hfst in *. cbn [SitemapIndex.items SitemapIndex.config].
  repeat split; auto; apply Hret.
Qed.

(** X19: [resetSitemaps] is not all or nothing. Whether it returns or
    throws, none of the old entries is left: the index holds the entries
    built from the first inputs, up to the first one that is refused, and
    it returns exactly when it took them all. *)
Theorem resetSitemaps_drops_the_old (sitemaps : list SitemapIndexItem)
    (self : SitemapIndex.t) :
  let run := SitemapIndex.resetSitemaps sitemaps self in
  exists n,
    n <= length sitemaps
    /\ SitemapIndex.getSitemapCount (fst run) = n
    /\ Forall2 (fun input entry =>
                  SitemapIndex.addSitemap_item (SitemapIndex.getConfig self)
                    (index_loc input) (index_lastmod input) = Returns entry)
         (take n sitemaps) (SitemapIndex.getSitemaps (fst run))
    /\ SitemapIndex.getConfig (fst run) = SitemapIndex.getConfig self
    /\ (snd run = Returns tt <-> n = length sitemaps).
Proof.
  cbv zeta. unfold SitemapIndex.resetSitemaps, SitemapIndex.addSitemaps, mbind, eff_bind,
    modify, SitemapIndex.getSitemaps, SitemapIndex.getConfig, SitemapIndex.getSitemapCount.
  cbv beta iota.
  destruct (addSitemaps_entries sitemaps 0 (SitemapIndex.mk [] (SitemapIndex.config self)))
    as (n & added & Hn & Hbuilt & Hfst & Hret & _).
  cbv zeta in *. cbn [SitemapIndex.items SitemapIndex.config app] in *.
  exists n. rewrite Hfst. cbn [SitemapIndex.items SitemapIndex.config].
  repeat split; auto; try apply Hret.
  apply Forall2_length in Hbuilt. rewrite <- Hbuilt, length_take. lia.
Qed.

(** X20: the two validators of an index entry. Every field the index's
    own [validateSitemapItem] reports, [DataValidator.validateIndexItem]
    reports too, so an entry the second accepts the first accepts; they
    report the same fields unless the last modification is a [Date]
    object or the empty string, which the index's own validator skips. *)
Theorem index_validators_agree (item : SitemapIndexItem) :
  field <$> SitemapIndex.validateSitemapItem item
    `sublist_of` field <$> DataValidator.validateIndexItem item
  /\ (DataValidator.validateIndexItem item = [] ->
      SitemapIndex.validateSitemapItem item = [])
  /\ (index_lastmod_is_string item -> index_lastmod item <> Some (DStr "") ->
      field <$> SitemapIndex.validateSitemapItem item
      = field <$> DataValidator.validateIndexItem item).
Proof.
  destruct item as [loc lastmod].
  unfold SitemapIndex.validateSitemapItem, DataValidator.validateIndexItem,
    DataValidator.isValidUrl, index_lastmod_is_string.
  cbn [index_loc index_lastmod].
  assert (Hloc :
    field <$> (if negb (isValidUrl loc)
               then [mkError url_error "loc" "Invalid URL format" (VString loc)]
               else [])
    = field <$> (if String.eqb loc ""
                 then [mkError required_error "loc" "Sitemap URL (loc) is required"
                         (VString loc)]
                 else if negb (isValidUrl loc)
                      then [mkError url_error "loc" "Sitemap URL (loc) is not valid"
                              (VString loc)]
                      else [])).
  { destruct (String.eqb_spec loc "") as [-> |]; [reflexivity |].
    now destruct (isValidUrl loc). }
  assert (Hsub :
    field <$> SitemapIndex.validateSitemapItem (mkIndexItem loc lastmod)
      `sublist_of` field <$> DataValidator.validateIndexItem (mkIndexItem loc lastmod)).
  { unfold SitemapIndex.validateSitemapItem, DataValidator.validateIndexItem,
      DataValidator.isValidUrl.
    cbn [index_loc index_lastmod]. rewrite !fmap_app, Hloc.
    apply sublist_app; [reflexivity |].
    destruct lastmod as [[s | [ms |]] |]; cbn [DataValidator.isValidDate negb];
      try apply sublist_nil_l.
    unfold isValidDate. destruct (String.eqb_spec s ""); cbn [negb];
      [apply sublist_nil_l |].
    destruct (Date_parse s); reflexivity. }
  split; [exact Hsub |]. split.
  - intros Hnil.
    unfold DataValidator.validateIndexItem, DataValidator.isValidUrl in Hsub.
    cbn [index_loc index_lastmod] in Hsub. rewrite Hnil in Hsub.
    apply sublist_nil_r in Hsub. now apply fmap_nil_inv in Hsub.
  - intros Hstring Hnonempty. rewrite !fmap_app, Hloc. f_equal.
    destruct lastmod as [[s | d] |]; [| contradiction | reflexivity].
    cbn [DataValidator.isValidDate]. unfold isValidDate.
    destruct (String.eqb_spec s "") as [-> |]; [congruence |]. cbn [negb].
    now destruct (Date_parse s).
Qed.

End IndexProperties.

Lemma index_entries_validated_witness :
  SitemapIndex.getSitemaps
    (SitemapIndex.run_uses Example.index_uses (SitemapIndex.new SitemapIndexConfig.empty))
  = [mkIndexItem "https://example.com/" (Some (DStr "2025-01-01"))]
  /\ isValidUrl "https://example.com/" = true.
Proof.
  assert (Hentries :
    SitemapIndex.getSitemaps
      (SitemapIndex.run_uses Example.index_uses
         (SitemapIndex.new SitemapIndexConfig.empty))
    = [mkIndexItem "https://example.com/" (Some (DStr "2025-01-01"))])
    by (vm_compute; reflexivity).
  split; [exact Hentries |].
  assert (Hreads : Forall SitemapIndex.reads_only Example.index_uses)
    by (repeat constructor).
  destruct (index_entries_validated SitemapIndexConfig.empty Example.index_uses Hreads)
    as [_ Hvalid].
  assert (Hon : forall n,
             IndexConfig.validate
               (SitemapIndex.getConfig
                  (SitemapIndex.run_uses (take n Example.index_uses)
                     (SitemapIndex.new SitemapIndexConfig.empty))) = true).
  { intros n. do 6 (destruct n as [|n]; [vm_compute; reflexivity |]).
    vm_compute. reflexivity. }
  apply (Hvalid Hon (mkIndexItem "https://example.com/" (Some (DStr "2025-01-01")))).
  rewrite Hentries. constructor.
Defined.

(** The caller must not write: in an index with validation on, a callback
    of [removeSitemaps] that writes to the entry it is handed and keeps it
    leaves an entry with a [Date] object and a location that is no URL. *)
Example writing_callback_spoils_index :
  let self :=
    SitemapIndex.run_uses Example.index_careless
      (SitemapIndex.new SitemapIndexConfig.empty) in
  IndexConfig.validate (SitemapIndex.getConfig self) = true
  /\ SitemapIndex.getSitemaps self = [mkIndexItem "not a url" (Some (DObj InvalidDate))]
  /\ isValidUrl "not a url" = false.
Proof. vm_compute. repeat split. Qed.

Lemma addSitemap_then_hasSitemap_witness :
  SitemapIndex.hasSitemap "https://example.com/#top"
    (fst (SitemapIndex.addSitemap "https://example.com" None
            (SitemapIndex.new SitemapIndexConfig.empty))) = true.
Proof.
  assert (Hret : snd (SitemapIndex.addSitemap "https://example.com" None
                        (SitemapIndex.new SitemapIndexConfig.empty)) = Returns tt)
    by (vm_compute; reflexivity).
  apply (addSitemap_then_hasSitemap _ _ _ Hret); [left |]; vm_compute; reflexivity.
Defined.

(** ** The index document *)

Lemma foldl_append {A} (f : A -> string) (xs : list A) : forall xml,
  foldl (fun xml x => xml +:+ f x) xml xs = xml +:+ concat_blocks (f <$> xs).
Proof.
  induction xs as [|x xs IH]; intros xml; cbn [foldl].
  - cbn. now rewrite append_nil_r.
  - rewrite IH, fmap_cons. cbn [concat_blocks foldr]. now rewrite append_assoc.
Qed.

Section IndexDocument.
Context `{JSRuntime}.

(** X21: the document of an index is a prolog, the start tag of the
    root, one [<sitemap>] block per entry in the order of the index, and
    the end tag. With escaping on, the stylesheet line of the prolog is
    the one [xmlStylesheet] makes. A block holds the escaped location in
    [<loc>]; a last modification that is a non-empty string follows in
    [<lastmod>] as it is stored, never escaped. *)
Theorem index_toXML_entries (options : RenderOptions) (self : SitemapIndex.t) :
  let config := SitemapIndex.getConfig self in
  let indent := if default (IndexConfig.pretty config) (ro_pretty options) then 1 else 0 in
  let stylesheet := default (IndexConfig.stylesheet config) (ro_stylesheet options) in
  let indentStr := Str.repeat "  " indent in
  (exists head,
      SitemapIndex.toXML options self
      = head +:+ SitemapIndex.sitemapindex_tag +:+ Str.nl
        +:+ concat_blocks ((fun item => SitemapIndex.renderSitemapIndexItem self item indent)
                             <$> SitemapIndex.getSitemaps self)
        +:+ "</sitemapindex>"
      /\ (stylesheet = ""%string -> head = xmlDeclaration None None +:+ Str.nl)
      /\ (stylesheet <> ""%string -> IndexConfig.escaping config = true ->
          head = xmlDeclaration None None +:+ Str.nl
                 +:+ xmlStylesheet stylesheet None +:+ Str.nl))
  /\ forall item,
       exists dated,
         SitemapIndex.renderSitemapIndexItem self item indent
         = indentStr +:+ "<sitemap>" +:+ Str.nl
           +:+ indentStr +:+ "  <loc>" +:+ SitemapIndex.escapeXml self (index_loc item)
           +:+ "</loc>" +:+ Str.nl
           +:+ dated +:+ indentStr +:+ "</sitemap>" +:+ Str.nl
         /\ (forall s, index_lastmod item = Some (DStr s) -> s <> ""%string ->
             dated = indentStr +:+ "  <lastmod>" +:+ s +:+ "</lastmod>" +:+ Str.nl)
         /\ (index_lastmod item = None \/ index_lastmod item = Some (DStr "") ->
             dated = ""%string).
Proof.
  cbv zeta. unfold SitemapIndex.getConfig, SitemapIndex.getSitemaps.
  set (indent := if default (IndexConfig.pretty (SitemapIndex.config self))
                      (ro_pretty options) then 1 else 0).
  set (indentStr := Str.repeat "  " indent).
  split.
  - unfold SitemapIndex.toXML. cbv zeta. rewrite foldl_append.
    set (stylesheet := default (IndexConfig.stylesheet (SitemapIndex.config self))
                         (ro_stylesheet options)).
    destruct (String.eqb_spec stylesheet "") as [Hnone | Hsome]; cbn [negb].
    + exists (Sitemap.xml_declaration +:+ Str.nl). rewrite !append_assoc.
      split; [reflexivity |]. split; [reflexivity | contradiction].
    + exists (Sitemap.xml_declaration +:+ Str.nl
              +:+ "<?xml-stylesheet href=" +:+ Str.q
              +:+ SitemapIndex.escapeXml self stylesheet +:+ Str.q
              +:+ " type=" +:+ Str.q +:+ "text/xsl" +:+ Str.q +:+ "?>" +:+ Str.nl).
      rewrite !append_assoc. split; [reflexivity |].
      split; [contradiction |]. intros _ Hon.
      unfold SitemapIndex.escapeXml, xmlStylesheet. rewrite Hon. cbn [negb].
      rewrite !append_assoc. reflexivity.
  - intros item. unfold SitemapIndex.renderSitemapIndexItem. cbv zeta.
    fold indentStr.
    destruct (index_lastmod item) as [[s | d] |].
    + destruct (String.eqb_spec s "") as [-> | Hs]; cbn [negb].
      * exists ""%string. rewrite !append_assoc, append_nil_l.
        split; [reflexivity |]. split; [| reflexivity].
        intros s [= <-]. contradiction.
      * exists (indentStr +:+ "  <lastmod>" +:+ s +:+ "</lastmod>" +:+ Str.nl).
        rewrite !append_assoc. split; [reflexivity |].
        split; [now intros s' [= <-] |]. intros [|]; congruence.
    + exists (indentStr +:+ "  <lastmod>" +:+ Date_toString d +:+ "</lastmod>" +:+ Str.nl).
      rewrite !append_assoc. split; [reflexivity |].
      split; [discriminate |]. intros [|]; discriminate.
    + exists ""%string. rewrite !append_assoc, append_nil_l.
      split; [reflexivity |]. split; [discriminate | reflexivity].
Qed.

End IndexDocument.

(** ** What the validators accept *)

Lemma and_iff_both (A B C D : Prop) : (A <-> B) -> (C <-> D) -> (A /\ C <-> B /\ D).
Proof. tauto. Qed.

Section Acceptance.
Context `{JSRuntime}.

Lemma isValidUrl_empty : isValidUrl "" = false.
Proof. reflexivity. Qed.

(** The rule for a URL that is required. *)
Lemma required_url_rule (url : string) (e1 e2 : ValidationError) :
  (if String.eqb url "" then [e1]
   else if negb (DataValidator.isValidUrl url) then [e2] else []) = []
  <-> isValidUrl url = true.
Proof.
  unfold DataValidator.isValidUrl.
  destruct (String.eqb_spec url "") as [-> |]; [now rewrite isValidUrl_empty |].
  now destruct (isValidUrl url).
Qed.

(** The rule for a string that is required. *)
Lemma required_rule (s : string) (e : ValidationError) :
  (if String.eqb s "" then [e] else []) = [] <-> s <> ""%string.
Proof. now destruct (String.eqb_spec s ""). Qed.



(** X23: what the validators of nested entries accept. An image or an
    alternate needs a valid URL; a translation a language and a valid
    URL; a video a title, a description, a valid thumbnail URL, a
    duration that is a non-negative integer and a rating that is neither
    below 0 nor above 5; news metadata a site name, a language and a
    publication date that is valid and not the empty string. *)
Theorem nested_validators_accept_exactly :
  (forall image,
      DataValidator.validateImageItem image = []
      <-> isValidUrl (ImageItem.url image) = true)
  /\ (forall alternate,
        DataValidator.validateAlternateItem alternate = []
        <-> isValidUrl (AlternateItem.url alternate) = true)
  /\ (forall translation,
        DataValidator.validateTranslationItem translation = []
        <-> TranslationItem.language translation <> ""%string
            /\ isValidUrl (TranslationItem.url translation) = true)
  /\ (forall video,
        DataValidator.validateVideoItem video = []
        <-> VideoItem.title video <> ""%string
            /\ VideoItem.description video <> ""%string
            /\ isValidUrl (VideoItem.thumbnail_url video) = true
            /\ match VideoItem.duration video with
               | Some duration =>
                   PrimFloat.ltb duration 0 = false /\ Number_isInteger duration = true
               | None => True
               end
            /\ match VideoItem.rating video with
               | Some rating =>
                   PrimFloat.ltb rating 0 = false /\ PrimFloat.ltb 5 rating = false
               | None => True
               end)
  /\ (forall news,
        DataValidator.validateGoogleNewsItem news = []
        <-> GoogleNewsItem.sitename news <> ""%string
            /\ GoogleNewsItem.language news <> ""%string
            /\ GoogleNewsItem.publication_date news <> DStr ""
            /\ DataValidator.isValidDate (GoogleNewsItem.publication_date news) = true).
Proof.
  split; [intros image; apply required_url_rule |].
  split; [intros alternate; apply required_url_rule |].
  split.
  { intros translation. unfold DataValidator.validateTranslationItem. rewrite app_nil.
    apply and_iff_both; [apply required_rule | apply required_url_rule]. }
  split.
  { intros video. unfold DataValidator.validateVideoItem. rewrite !app_nil.
    repeat apply and_iff_both.
    - apply required_rule.
    - apply required_rule.
    - apply required_url_rule.
    - destruct (VideoItem.duration video) as [d |]; [| tauto].
      destruct (PrimFloat.ltb d 0), (Number_isInteger d); cbn [orb negb];
        split; try discriminate; try tauto; intros [? ?]; discriminate.
    - destruct (VideoItem.rating video) as [r |]; [| tauto].
      destruct (PrimFloat.ltb r 0), (PrimFloat.ltb 5 r); cbn [orb];
        split; try discriminate; try tauto; intros [? ?]; discriminate. }
  intros news. unfold DataValidator.validateGoogleNewsItem. rewrite !app_nil.
  repeat apply and_iff_both.
  - apply required_rule.
  - apply required_rule.
  - destruct (GoogleNewsItem.publication_date news) as [[|c s] | d].
    + split; [discriminate | intros [Hne _]; congruence].
    + destruct (DataValidator.isValidDate (DStr (String c s))); cbn [negb].
      * split; [intros _; split; [discriminate | reflexivity] | reflexivity].
      * split; [discriminate | intros [_ ?]; discriminate].
    + destruct (DataValidator.isValidDate (DObj d)); cbn [negb].
      * split; [intros _; split; [discriminate | reflexivity] | reflexivity].
      * split; [discriminate | intros [_ ?]; discriminate].
Qed.

(** X24: the configuration of a sitemap is fixed when it is made: no
    [add], [addItem], [clear] or [removeItems] changes it, whether the
    call returns or throws, so a new sitemap keeps the defaults merged
    with the options it was given. *)
Theorem sitemap_config_is_fixed (calls : list Sitemap.call) (self : Sitemap.t)
    (config : SitemapConfig.t) :
  Model.getConfig (Sitemap.model (Sitemap.run_calls calls self))
  = Model.getConfig (Sitemap.model self)
  /\ Model.getConfig (Sitemap.model (Sitemap.run_calls calls (Sitemap.new config)))
     = Model.merge Model.DEFAULT_CONFIG config.
Proof.
  assert (Hkeep : forall self : Sitemap.t,
             Model.config (Sitemap.model (Sitemap.run_calls calls self))
             = Model.config (Sitemap.model self)).
  { intros self'.
    apply (run_calls_keep (fun _ => True) calls self'); auto.
    apply Forall_forall. auto. }
  unfold Model.getConfig. split; [apply Hkeep |]. now rewrite Hkeep.
Qed.

End Acceptance.

(** ** CDATA sections *)

Lemma substring_all (s : string) : String.substring 0 (String.length s) s = s.
Proof. induction s as [|c s IH]; cbn; [reflexivity | now rewrite IH]. Qed.

Lemma starts_with_cons a pat b text :
  Str.starts_with (String a pat) (String b text) = Ascii.eqb a b && Str.starts_with pat text.
Proof. reflexivity. Qed.

Lemma starts_with_nil text : Str.starts_with "" text = true.
Proof. reflexivity. Qed.

Lemma includes_cons pat a text :
  Str.includes pat (String a text)
  = Str.starts_with pat (String a text) || Str.includes pat text.
Proof. reflexivity. Qed.

Lemma count_sub_cons pat a text :
  Str.count_sub pat (String a text)
  = (if Str.starts_with pat (String a text) then 1 else 0) + Str.count_sub pat text.
Proof. reflexivity. Qed.

Lemma starts_with_end_mark (text : string) :
  Str.starts_with "]]>" text = true ->
  exists rest, text = String "]" (String "]" (String ">" rest)).
Proof.
  intros Hs. destruct text as [|a [|b [|c rest]]]; try discriminate;
    rewrite ?starts_with_cons in Hs;
    destruct (Ascii.eqb_spec "]" a); try discriminate;
    try destruct (Ascii.eqb_spec "]" b); try discriminate;
    try destruct (Ascii.eqb_spec ">" c); try discriminate.
  subst. eauto.
Qed.

Lemma replace_end_mark_step (fuel : nat) (by_ rest : string) :
  Str.replace_sub_aux (S fuel) "]]>" by_ (String "]" (String "]" (String ">" rest)))
  = by_ +:+ Str.replace_sub_aux fuel "]]>" by_ rest.
Proof.
  cbn [Str.replace_sub_aux].
  replace (Str.starts_with "]]>" (String "]" (String "]" (String ">" rest)))) with true
    by reflexivity.
  cbn [String.length Nat.sub String.substring]. now rewrite Nat.sub_0_r, substring_all.
Qed.

Lemma replace_other_step (fuel : nat) (pat by_ : string) (a : ascii) (rest : string) :
  Str.starts_with pat (String a rest) = false ->
  Str.replace_sub_aux (S fuel) pat by_ (String a rest)
  = String a (Str.replace_sub_aux fuel pat by_ rest).
Proof. intros Hs. cbn [Str.replace_sub_aux]. now rewrite Hs. Qed.

(** Where the text has no match, nothing is replaced. *)
Lemma replace_sub_absent (pat by_ : string) (fuel : nat) : forall text,
  Str.includes pat text = false -> Str.replace_sub_aux fuel pat by_ text = text.
Proof.
  induction fuel as [|fuel IH]; intros text Hinc; [reflexivity |].
  destruct text as [|a rest]; [reflexivity |].
  rewrite includes_cons in Hinc. apply orb_false_elim in Hinc as [Hs Hrest].
  now rewrite replace_other_step, IH.
Qed.

Lemma replaced_head_gt (fuel : nat) (text : string) :
  Str.starts_with ">" (Str.replace_sub_aux fuel "]]>" "]]&gt;" text) = true ->
  Str.starts_with ">" text = true.
Proof.
  destruct fuel as [|fuel]; [trivial |]. destruct text as [|a rest]; [trivial |].
  destruct (Str.starts_with "]]>" (String a rest)) eqn:Hs.
  - apply starts_with_end_mark in Hs as [r ->]. rewrite replace_end_mark_step.
    rewrite !append_cons. discriminate.
  - rewrite replace_other_step by assumption. now rewrite !starts_with_cons.
Qed.

Lemma replaced_head_mark (fuel : nat) (text : string) :
  Str.starts_with "]>" (Str.replace_sub_aux fuel "]]>" "]]&gt;" text) = true ->
  Str.starts_with "]>" text = true.
Proof.
  destruct fuel as [|fuel]; [trivial |]. destruct text as [|a rest]; [trivial |].
  destruct (Str.starts_with "]]>" (String a rest)) eqn:Hs.
  - apply starts_with_end_mark in Hs as [r ->]. rewrite replace_end_mark_step.
    rewrite !append_cons. discriminate.
  - rewrite replace_other_step by assumption. rewrite !starts_with_cons.
    intros Hhead. apply andb_prop in Hhead as [-> Hgt].
    now rewrite (replaced_head_gt _ _ Hgt).
Qed.

(** After the replacement no end mark is left. *)
Lemma replaced_no_end_mark (fuel : nat) : forall text,
  String.length text <= fuel ->
  Str.includes "]]>" (Str.replace_sub_aux fuel "]]>" "]]&gt;" text) = false.
Proof.
  induction fuel as [|fuel IH]; intros text Hlen.
  - destruct text; [reflexivity | cbn in Hlen; lia].
  - destruct text as [|a rest]; [reflexivity |].
    destruct (Str.starts_with "]]>" (String a rest)) eqn:Hs.
    + apply starts_with_end_mark in Hs as [r Hr]. rewrite Hr in *.
      rewrite replace_end_mark_step, !append_cons, append_nil_l.
      rewrite !includes_cons.
      repeat (match goal with
              | |- context [Str.starts_with "]]>" (String ?c ?t)] =>
                  replace (Str.starts_with "]]>" (String c t)) with false by reflexivity
              end).
      cbn [orb]. apply IH. cbn in Hlen. lia.
    + rewrite replace_other_step by assumption. rewrite includes_cons.
      rewrite IH by (cbn in Hlen; lia). rewrite orb_false_r.
      destruct (Str.starts_with "]]>" (String a (Str.replace_sub_aux fuel "]]>" "]]&gt;" rest)))
        eqn:Hout; [| reflexivity].
      rewrite starts_with_cons in Hout, Hs.
      apply andb_prop in Hout as [Ha Hout]. apply replaced_head_mark in Hout.
      rewrite Ha, Hout in Hs. discriminate.
Qed.

(** Behind a text without end mark, the end mark stands once. *)
Lemma end_mark_once (body : string) :
  Str.includes "]]>" body = false -> Str.count_sub "]]>" (body +:+ "]]>") = 1.
Proof.
  induction body as [|a body IH]; intros Hinc; [reflexivity |].
  rewrite includes_cons in Hinc. apply orb_false_elim in Hinc as [Hs Hbody].
  rewrite append_cons, count_sub_cons, (IH Hbody).
  assert (Hhead : Str.starts_with "]]>" (String a (body +:+ "]]>")) = false).
  { destruct body as [|b [|c rest]].
    - rewrite append_nil_l, !starts_with_cons. destruct (Ascii.eqb "]" a); reflexivity.
    - rewrite append_cons, append_nil_l, !starts_with_cons.
      destruct (Ascii.eqb "]" a), (Ascii.eqb "]" b); reflexivity.
    - rewrite !append_cons, !starts_with_cons, starts_with_nil.
      rewrite !starts_with_cons, starts_with_nil in Hs. exact Hs. }
  now rewrite Hhead.
Qed.

(** X25: a CDATA section that [wrapCDATA] makes ends where it should.
    On a text with [&], [<], [>] or a line break the result is
    [<![CDATA[], a body, and the end mark; the body holds no end mark, so
    the end mark stands once in what follows the opening, at its end; and
    the body is the text itself when the text holds no end mark. On any
    other text the result is [escapeXml] of the text. *)
Theorem wrapCDATA_section (text : string) :
  let special :=
    Str.occurs "&" text || Str.occurs "<" text || Str.occurs ">" text
    || Str.occurs Str.newline text in
  (special = true ->
   exists body,
     wrapCDATA text = "<![CDATA[" +:+ body +:+ "]]>"
     /\ Str.includes "]]>" body = false
     /\ Str.count_sub "]]>" (body +:+ "]]>") = 1
     /\ (Str.includes "]]>" text = false -> body = text))
  /\ (special = false ->
      wrapCDATA text = escapeXml text /\ raw_free (wrapCDATA text) = true).
Proof.
  cbv zeta. unfold wrapCDATA.
  destruct (Str.occurs "&" text || Str.occurs "<" text || Str.occurs ">" text
            || Str.occurs Str.newline text).
  - split; [intros _ | discriminate].
    exists (Str.replace_sub "]]>" "]]&gt;" text).
    assert (Hfree : Str.includes "]]>" (Str.replace_sub "]]>" "]]&gt;" text) = false)
      by (apply replaced_no_end_mark; lia).
    split; [reflexivity |]. split; [exact Hfree |].
    split; [now apply end_mark_once |].
    apply replace_sub_absent.
  - split; [discriminate | intros _].
    split; [reflexivity | apply escapeXml_raw_free].
Qed.

(** ** Escaping, once more *)

Lemma length_append (a b : string) :
  String.length (a +:+ b) = String.length a + String.length b.
Proof. induction a as [|c a IH]; [reflexivity |]. rewrite append_cons. cbn. now rewrite IH. Qed.

(** The entity of a character, case by case. *)
Lemma entity_cases (c : ascii) :
  (c = "&"%char /\ entity c = "&amp;"%string)
  \/ (c = "<"%char /\ entity c = "&lt;"%string)
  \/ (c = ">"%char /\ entity c = "&gt;"%string)
  \/ (c = Str.dquote /\ entity c = "&quot;"%string)
  \/ (c = Str.squote /\ entity c = "&#39;"%string)
  \/ (is_meta c = false /\ c <> "&"%char /\ entity c = String c "").
Proof.
  unfold entity, is_meta, Str.chr.
  destruct (Ascii.eqb_spec c "&") as [-> | Hamp]; [now left |].
  destruct (Ascii.eqb_spec c "<") as [-> | Hlt]; [now right; left |].
  destruct (Ascii.eqb_spec c ">") as [-> | Hgt]; [now right; right; left |].
  destruct (Ascii.eqb_spec c Str.dquote) as [-> | Hdq]; [now right; right; right; left |].
  destruct (Ascii.eqb_spec c Str.squote) as [-> | Hsq];
    [now right; right; right; right; left |].
  now right; right; right; right; right.
Qed.

(** An escaped text can be read back one character at a time. *)
Lemma entity_inj (c1 c2 : ascii) (s1 s2 : string) :
  entity c1 +:+ s1 = entity c2 +:+ s2 -> c1 = c2 /\ s1 = s2.
Proof.
  destruct (entity_cases c1)
    as [[-> ->] | [[-> ->] | [[-> ->] | [[-> ->] | [[-> ->] | (_ & Hne1 & ->)]]]]];
    destruct (entity_cases c2)
      as [[-> ->] | [[-> ->] | [[-> ->] | [[-> ->] | [[-> ->] | (_ & Hne2 & ->)]]]]];
    rewrite ?append_cons, ?append_nil_l; intros Heq; try discriminate;
    injection Heq; intros; subst; try congruence; now split.
Qed.

Lemma entity_length (c : ascii) :
  1 <= String.length (entity c)
  /\ (is_meta c = true -> 2 <= String.length (entity c)).
Proof.
  destruct (entity_cases c)
    as [[-> ->] | [[-> ->] | [[-> ->] | [[-> ->] | [[-> ->] | (Hmeta & _ & ->)]]]]];
    cbn; split; try lia; congruence.
Qed.

Lemma has_meta_cons (c : ascii) (rest : string) :
  has_meta (String c rest) = is_meta c || has_meta rest.
Proof.
  unfold has_meta, is_meta. cbn [Str.occurs].
  destruct (Ascii.eqb c "&"), (Ascii.eqb c "<"), (Ascii.eqb c ">"),
    (Ascii.eqb c Str.dquote), (Ascii.eqb c Str.squote); cbn [orb];
    rewrite ?orb_true_r; reflexivity.
Qed.

Lemma escapeXml_length (text : string) :
  String.length text <= String.length (escapeXml text)
  /\ (has_meta text = true -> String.length text < String.length (escapeXml text)).
Proof.
  induction text as [|c rest [IHle IHlt]]; [split; [reflexivity | discriminate] |].
  rewrite escapeXml_cons, length_append, has_meta_cons. cbn [String.length].
  destruct (entity_length c) as [Hone Htwo]. split; [lia |].
  destruct (is_meta c); cbn [orb]; [specialize (Htwo eq_refl); lia |].
  intros Hrest. specialize (IHlt Hrest). lia.
Qed.

(** X26: [escapeXml] works character by character, so it goes through
    concatenation; it loses nothing: two texts with the same escaped form
    are equal; it never shortens a text; and it is not idempotent: on a
    text with a metacharacter, escaping the escaped form gives something
    else again. *)
Theorem escapeXml_reads_back :
  (forall a b, escapeXml (a +:+ b) = escapeXml a +:+ escapeXml b)
  /\ (forall a b, escapeXml a = escapeXml b -> a = b)
  /\ (forall text, String.length text <= String.length (escapeXml text))
  /\ (forall text, has_meta text = true -> escapeXml (escapeXml text) <> escapeXml text).
Proof.
  assert (Hinj : forall a b, escapeXml a = escapeXml b -> a = b).
  { induction a as [|c a IH]; intros [|d b]; rewrite ?escapeXml_cons.
    - reflexivity.
    - intros Heq. exfalso. destruct (entity_length d) as [Hone _].
      apply (f_equal String.length) in Heq. rewrite length_append in Heq.
      cbn in Heq. lia.
    - intros Heq. exfalso. destruct (entity_length c) as [Hone _].
      apply (f_equal String.length) in Heq. rewrite length_append in Heq.
      cbn in Heq. lia.
    - intros Heq. apply entity_inj in Heq as [-> Heq]. now rewrite (IH b Heq). }
  split; [| split; [exact Hinj | split]].
  - intros a b. unfold escapeXml. now rewrite !replace_char_app.
  - intros text. apply escapeXml_length.
  - intros text Hmeta Heq. apply Hinj in Heq.
    destruct (escapeXml_length text) as [_ Hlt]. specialize (Hlt Hmeta).
    rewrite Heq in Hlt. lia.
Qed.

(** ** The checks of a URL *)

Section UrlChecks.
Context `{JSRuntime} `{JSText}.

(** X27: what a valid URL is, and that every other check starts from it.
    [isValidUrl] accepts exactly the non-empty strings of at most 2048
    characters that parse with the protocol http or https and a host
    name. [isAccessibleUrl] and [hasValidWebExtension] accept valid URLs
    only, [extractDomain] gives a host name, never empty, for valid URLs
    only, and [isDomainAllowed] with a non-empty list accepts valid URLs
    only; without a list, or with an empty one, it accepts every string. *)
Theorem url_checks_start_from_isValidUrl (url : string) :
  (isValidUrl url = true
   <-> url <> ""%string
       /\ String.length url <= 2048
       /\ exists urlObj,
            URL_parse url = Some urlObj
            /\ (protocol urlObj = "http:"%string \/ protocol urlObj = "https:"%string)
            /\ hostname urlObj <> ""%string)
  /\ (isAccessibleUrl url = true -> isValidUrl url = true)
  /\ (hasValidWebExtension url = true -> isValidUrl url = true)
  /\ (forall domain,
        extractDomain url = Some domain -> isValidUrl url = true /\ domain <> ""%string)
  /\ (forall allowed,
        allowed <> [] -> isDomainAllowed url (Some allowed) = true ->
        isValidUrl url = true)
  /\ isDomainAllowed url None = true
  /\ isDomainAllowed url (Some []) = true.
Proof.
  split; [| split; [| split; [| split; [| split; [| split]]]]].
  - split.
    + intros Hvalid.
      destruct (isValidUrl_true url Hvalid) as (urlObj & Hparse & Hproto & Hhost & Hlen & Hne).
      split; [assumption |]. split; [assumption |]. exists urlObj.
      split; [assumption |]. split.
      * apply orb_prop in Hproto as [Hp | Hp]; apply String.eqb_eq in Hp; auto.
      * now apply String.eqb_neq.
    + intros (Hne & Hlen & urlObj & Hparse & Hproto & Hhost).
      unfold isValidUrl. apply String.eqb_neq in Hne, Hhost.
      rewrite Hne, Hparse, Hhost.
      assert (Hp : String.eqb (protocol urlObj) "http:"
                   || String.eqb (protocol urlObj) "https:" = true).
      { destruct Hproto as [-> | ->]; reflexivity. }
      rewrite Hp. cbn [negb].
      destruct (Nat.ltb_spec 2048 (String.length url)); [lia | reflexivity].
  - unfold isAccessibleUrl. destruct (isValidUrl url); auto.
  - unfold hasValidWebExtension. destruct (isValidUrl url); auto.
  - intros domain. unfold extractDomain.
    destruct (isValidUrl url) eqn:Hvalid; cbn [negb]; [| discriminate].
    destruct (isValidUrl_true url Hvalid) as (urlObj & Hparse & _ & Hhost & _).
    rewrite Hparse. intros [= <-]. split; [reflexivity | now apply String.eqb_neq].
  - intros [|domain allowed] Hne; [contradiction |].
    unfold isDomainAllowed. destruct (isValidUrl url); auto.
  - reflexivity.
  - reflexivity.
Qed.

End UrlChecks.

(** X28: of the host names [172.n.] followed by anything, with [n] an
    octet written in decimal, [isAccessibleUrl] takes for private exactly
    those with [n] from 16 to 31. *)
Theorem private_ip_172_range (n : nat) (rest : string) :
  n <= 255 ->
  private_ip ("172." +:+ Str.of_nat n +:+ "." +:+ rest) = (16 <=? n)%nat && (n <=? 31)%nat.
Proof.
  intros Hn.
  do 10 (destruct n as [|n];
           [destruct rest as [|c [|c' rest]]; vm_compute; reflexivity |]).
  do 90 (destruct n as [|n]; [destruct rest; vm_compute; reflexivity |]).
  do 156 (destruct n as [|n]; [vm_compute; reflexivity |]).
  lia.
Qed.

Lemma private_ip_172_range_witness :
  private_ip "172.16.0.1" = true /\ private_ip "172.32.0.1" = false.
Proof.
  split.
  - apply (private_ip_172_range 16 "0.1"). lia.
  - apply (private_ip_172_range 32 "0.1"). lia.
Defined.

(** ** The text format *)

Lemma join_snoc (sep : string) (l : list string) (x : string) :
  Str.join sep (l ++ [x])
  = match l with
    | [] => x
    | _ => Str.join sep l +:+ sep +:+ x
    end.
Proof.
  induction l as [|p [|q l] IH]; [reflexivity | reflexivity |].
  change (Str.join sep ((p :: q :: l) ++ [x]))
    with (p +:+ sep +:+ Str.join sep ((q :: l) ++ [x])).
  rewrite IH.
  change (Str.join sep (p :: q :: l)) with (p +:+ sep +:+ Str.join sep (q :: l)).
  now rewrite !append_assoc.
Qed.

Section TextFormat.
Context `{JSRuntime}.

(** X29: [toTXT] writes the locations as they are stored, unescaped,
    one after the other with a line break between two: the text of an
    empty store is empty, every stored location stands in the text, and
    one more record adds its location behind the text there was, after a
    line break unless it is the first. *)
Theorem toTXT_lists_locations (self : Sitemap.t) (item : SitemapItem) :
  (Sitemap.getItems self = [] -> Sitemap.toTXT self = ""%string)
  /\ (forall stored,
        stored ∈ Sitemap.getItems self ->
        Str.contains (Sitemap.toTXT self) (loc stored))
  /\ Sitemap.toTXT (extended self [item])
     = match Sitemap.getItems self with
       | [] => loc item
       | _ => Sitemap.toTXT self +:+ Str.nl +:+ loc item
       end.
Proof.
  unfold Sitemap.toTXT, Sitemap.getItems, Model.getItems, extended.
  cbn [Sitemap.model Model.items]. split; [| split].
  - now intros ->.
  - intros stored Hin. apply join_contains. now apply list_elem_of_fmap_2.
  - rewrite fmap_app. cbn [fmap list_fmap]. rewrite join_snoc.
    now destruct (Model.items (Sitemap.model self)).
Qed.

End TextFormat.
